(** * The terminal session client of the Cyberorganism Logseq plugin

    A shallow embedding of [src/plugin/index.js]: the module-level handles
    ([terminal], [fitAddon], [terminalSidebar], [websocket]), the functions
    [openTerminal], [toggleTerminal], [connectToBackend], [connectWebSocket]
    and the callbacks they install, run by a single event loop.

    The browser side (WebSocket objects, timers, [fetch], [JSON]) is the
    part of the state the plugin does not own; it is modelled next to the
    plugin's variables and driven by [step]. *)

From Stdlib Require Import NArith String Ascii.
From stdpp Require Import base tactics decidable option list numbers.

#[local] Open Scope N_scope.
#[local] Set Warnings "-register-all".

(** ** JavaScript strings

    A JavaScript string is a sequence of UTF-16 code units. *)

Abbreviation jsstring := (list N).

(** A literal of the source, all of whose characters are ASCII. *)
Definition lit (s : string) : jsstring :=
  map N_of_ascii (list_ascii_of_string s).

(** The same, with every apostrophe read as a double quote: used to write
    JSON texts in examples. *)
Definition json_text (s : string) : jsstring :=
  map (fun c => if c =? 39 then 34 else c) (lit s).

Definition jsstring_eqb (a b : jsstring) : bool := bool_decide (a = b).

(** Decimal rendering of a non-negative integer, as [Number::toString]
    prints one that a Number holds exactly, which every integer below
    [2 ^ 53] is. (A larger Number is rounded to 17 significant digits at
    most and printed with an exponent from [1e21] on: the numbers printed
    here, the grid of a terminal and the status of a response, are far
    below.) *)
Definition digit_char (d : N) : N := 48 + d.

Fixpoint decimal_digits (fuel : nat) (n : N) (acc : jsstring) : jsstring :=
  match fuel with
  | O => acc
  | S fuel' =>
      let acc' := digit_char (n mod 10) :: acc in
      if n / 10 =? 0 then acc' else decimal_digits fuel' (n / 10) acc'
  end.

Definition Number_toString (n : N) : jsstring :=
  decimal_digits (S (N.to_nat (N.log2 n))) n [].

(** ** JSON values *)

Inductive jsval :=
| JUndefined
| JNull
| JBool (b : bool)
| JNum (lexeme : jsstring)
| JStr (s : jsstring)
| JArr (items : list jsval)
| JObj (fields : list (jsstring * jsval)).

(** Result of a parsing function: the value and the unread input, a syntax
    error, or exhausted fuel ([JSON_parse_fuel] shows the last never
    happens with the fuel [JSON_parse] gives). *)
Inductive parsed (A : Type) :=
| Parsed (a : A) (rest : jsstring)
| SyntaxError
| OutOfFuel.
Arguments Parsed {A} a rest.
Arguments SyntaxError {A}.
Arguments OutOfFuel {A}.

Definition parsed_map {A B} (f : A -> B) (p : parsed A) : parsed B :=
  match p with
  | Parsed a rest => Parsed (f a) rest
  | SyntaxError => SyntaxError
  | OutOfFuel => OutOfFuel
  end.

Module Json.

Definition is_ws (c : N) : bool :=
  (c =? 32) || (c =? 9) || (c =? 10) || (c =? 13).

Fixpoint skip_ws (s : jsstring) : jsstring :=
  match s with
  | c :: s' => if is_ws c then skip_ws s' else s
  | [] => []
  end.

Definition is_digit (c : N) : bool := (48 <=? c) && (c <=? 57).

Definition hex_value (c : N) : option N :=
  if is_digit c then Some (c - 48)
  else if (97 <=? c) && (c <=? 102) then Some (c - 87)
  else if (65 <=? c) && (c <=? 70) then Some (c - 55)
  else None.

Definition hex4 (a b c d : N) : option N :=
  match hex_value a, hex_value b, hex_value c, hex_value d with
  | Some x, Some y, Some z, Some w => Some (4096 * x + 256 * y + 16 * z + w)
  | _, _, _, _ => None
  end.

(** The character after a backslash, other than [u]. *)
Definition unescape (e : N) : option N :=
  if e =? 34 then Some 34          (* quotation mark *)
  else if e =? 92 then Some 92     (* backslash *)
  else if e =? 47 then Some 47     (* solidus *)
  else if e =? 98 then Some 8      (* b: backspace *)
  else if e =? 102 then Some 12    (* f: form feed *)
  else if e =? 110 then Some 10    (* n: line feed *)
  else if e =? 114 then Some 13    (* r: carriage return *)
  else if e =? 116 then Some 9     (* t: tab *)
  else None.

(** The characters of a string literal, after its opening quote, up to
    and including the closing quote. *)
Fixpoint parse_chars (s : jsstring) : parsed jsstring :=
  match s with
  | [] => SyntaxError
  | c :: s1 =>
      if c =? 34 then Parsed [] s1
      else if c =? 92 then
        match s1 with
        | [] => SyntaxError
        | e :: s2 =>
            if e =? 117 then
              match s2 with
              | h1 :: h2 :: h3 :: h4 :: s3 =>
                  match hex4 h1 h2 h3 h4 with
                  | Some u => parsed_map (cons u) (parse_chars s3)
                  | None => SyntaxError
                  end
              | _ => SyntaxError
              end
            else
              match unescape e with
              | Some u => parsed_map (cons u) (parse_chars s2)
              | None => SyntaxError
              end
        end
      else if c <? 32 then SyntaxError
      else parsed_map (cons c) (parse_chars s1)
  end.

(** Longest prefix of digits. *)
Fixpoint take_digits (s : jsstring) : jsstring * jsstring :=
  match s with
  | c :: s' =>
      if is_digit c then let '(ds, r) := take_digits s' in (c :: ds, r)
      else ([], s)
  | [] => ([], [])
  end.

(** [int]: a single zero, or a non-zero digit followed by digits. *)
Definition lex_int (s : jsstring) : option (jsstring * jsstring) :=
  match s with
  | c :: s' =>
      if c =? 48 then Some ([c], s')
      else if is_digit c then
        let '(ds, r) := take_digits s' in Some (c :: ds, r)
      else None
  | [] => None
  end.

(** [frac]: nothing, or a dot followed by one digit at least. *)
Definition lex_frac (s : jsstring) : option (jsstring * jsstring) :=
  match s with
  | c :: s' =>
      if c =? 46 then
        match take_digits s' with
        | ([], _) => None
        | (ds, r) => Some (c :: ds, r)
        end
      else Some ([], s)
  | [] => Some ([], [])
  end.

(** [exp]: nothing, or [e]/[E], an optional sign and one digit at least. *)
Definition lex_exp (s : jsstring) : option (jsstring * jsstring) :=
  match s with
  | c :: s' =>
      if (c =? 101) || (c =? 69) then
        let '(sign, s'') :=
          match s' with
          | g :: t => if (g =? 43) || (g =? 45) then ([g], t) else ([], s')
          | [] => ([], s')
          end in
        match take_digits s'' with
        | ([], _) => None
        | (ds, r) => Some (c :: sign ++ ds, r)
        end
      else Some ([], s)
  | [] => Some ([], [])
  end.

Definition lex_number (s : jsstring) : parsed jsstring :=
  let '(minus, s0) :=
    match s with
    | c :: s' => if c =? 45 then ([c], s') else ([], s)
    | [] => ([], s)
    end in
  match lex_int s0 with
  | None => SyntaxError
  | Some (i, s1) =>
      match lex_frac s1 with
      | None => SyntaxError
      | Some (f, s2) =>
          match lex_exp s2 with
          | None => SyntaxError
          | Some (e, s3) => Parsed (minus ++ i ++ f ++ e) s3
          end
      end
  end.

(** [strip_prefix p s] is what follows [p] in [s]. *)
Fixpoint strip_prefix (p s : jsstring) : option jsstring :=
  match p, s with
  | [], _ => Some s
  | a :: p', b :: s' => if a =? b then strip_prefix p' s' else None
  | _ :: _, [] => None
  end.

Definition parse_keyword (kw : string) (v : jsval) (s : jsstring) : parsed jsval :=
  match strip_prefix (lit kw) s with
  | Some rest => Parsed v rest
  | None => SyntaxError
  end.

(** Values, the elements of a non-empty array after its bracket, and the
    members of a non-empty object after its brace. *)
Fixpoint parse_value (fuel : nat) (s : jsstring) : parsed jsval :=
  match fuel with
  | O => OutOfFuel
  | S fuel' =>
      match skip_ws s with
      | [] => SyntaxError
      | c :: s1 =>
          if c =? 123 then
            match skip_ws s1 with
            | d :: s2 =>
                if d =? 125 then Parsed (JObj []) s2
                else parsed_map JObj (parse_members fuel' s1)
            | [] => SyntaxError
            end
          else if c =? 91 then
            match skip_ws s1 with
            | d :: s2 =>
                if d =? 93 then Parsed (JArr []) s2
                else parsed_map JArr (parse_elements fuel' s1)
            | [] => SyntaxError
            end
          else if c =? 34 then parsed_map JStr (parse_chars s1)
          else if c =? 116 then parse_keyword "true" (JBool true) (c :: s1)
          else if c =? 102 then parse_keyword "false" (JBool false) (c :: s1)
          else if c =? 110 then parse_keyword "null" JNull (c :: s1)
          else parsed_map JNum (lex_number (c :: s1))
      end
  end
with parse_elements (fuel : nat) (s : jsstring) : parsed (list jsval) :=
  match fuel with
  | O => OutOfFuel
  | S fuel' =>
      match parse_value fuel' s with
      | Parsed v r =>
          match skip_ws r with
          | c :: r1 =>
              if c =? 44 then parsed_map (cons v) (parse_elements fuel' r1)
              else if c =? 93 then Parsed [v] r1
              else SyntaxError
          | [] => SyntaxError
          end
      | SyntaxError => SyntaxError
      | OutOfFuel => OutOfFuel
      end
  end
with parse_members (fuel : nat) (s : jsstring) : parsed (list (jsstring * jsval)) :=
  match fuel with
  | O => OutOfFuel
  | S fuel' =>
      match skip_ws s with
      | q :: s1 =>
          if q =? 34 then
            match parse_chars s1 with
            | Parsed key s2 =>
                match skip_ws s2 with
                | colon :: s3 =>
                    if colon =? 58 then
                      match parse_value fuel' s3 with
                      | Parsed v r =>
                          match skip_ws r with
                          | c :: r1 =>
                              if c =? 44 then
                                parsed_map (cons (key, v)) (parse_members fuel' r1)
                              else if c =? 125 then Parsed [(key, v)] r1
                              else SyntaxError
                          | [] => SyntaxError
                          end
                      | SyntaxError => SyntaxError
                      | OutOfFuel => OutOfFuel
                      end
                    else SyntaxError
                | [] => SyntaxError
                end
            | SyntaxError => SyntaxError
            | OutOfFuel => OutOfFuel
            end
          else SyntaxError
      | [] => SyntaxError
      end
  end.

(** A whole text: one value, with nothing but white space after it. *)
Definition parse_text (fuel : nat) (s : jsstring) : parsed jsval :=
  match parse_value fuel s with
  | Parsed v rest =>
      match skip_ws rest with
      | [] => Parsed v []
      | _ :: _ => SyntaxError
      end
  | e => e
  end.

Definition fuel_for (s : jsstring) : nat := 2 * length s + 2.

End Json.

(** A parsing result that is not a lack of fuel and leaves less than [n]
    characters unread. *)
Definition consumes {A} (n : nat) (p : parsed A) : Prop :=
  p <> OutOfFuel /\ forall v r, p = Parsed v r -> (length r < n)%nat.

(** [JSON.parse(text)]: [Some v] is the value returned, [None] stands for
    the [SyntaxError] thrown. *)
Definition JSON_parse (text : jsstring) : option jsval :=
  match Json.parse_text (Json.fuel_for text) text with
  | Parsed v _ => Some v
  | _ => None
  end.

(** ** Property access and comparison

    [get_property v key] is [v.key] for a key that is neither an index nor
    a name found on the built-in prototypes, as [type] and [data] are:
    [None] stands for the [TypeError] of reading a property of [null] or
    [undefined]. A repeated key of a JSON object keeps its last value. *)

Fixpoint own_property (key : jsstring) (fields : list (jsstring * jsval)) : option jsval :=
  match fields with
  | [] => None
  | (k, v) :: rest =>
      match own_property key rest with
      | Some later => Some later
      | None => if jsstring_eqb k key then Some v else None
      end
  end.

Definition get_property (v : jsval) (key : jsstring) : option jsval :=
  match v with
  | JUndefined | JNull => None
  | JObj fields => Some (default JUndefined (own_property key fields))
  | JBool _ | JNum _ | JStr _ | JArr _ => Some JUndefined
  end.

(** [v === 'literal'] *)
Definition strict_equals_string (v : jsval) (s : jsstring) : bool :=
  match v with
  | JStr s' => jsstring_eqb s' s
  | _ => false
  end.

(** [v === undefined || v === null] *)
Definition nullish (v : jsval) : bool :=
  match v with
  | JUndefined | JNull => true
  | _ => false
  end.

(** The conversion of [v] to a string, as a template literal makes it,
    throws a [TypeError]: [v] is an object that has a [toString] of its
    own, which is no function since the object was parsed from a text and
    hides the one of [Object.prototype] ([valueOf] then gives the object
    back, not a primitive value), or [v] is an array that has such an
    element, [Array.prototype.join] converting every element but [null].
    Any other value is converted without an exception. *)
Fixpoint ToString_throws (v : jsval) : bool :=
  match v with
  | JObj fields =>
      match own_property (lit "toString") fields with
      | Some _ => true
      | None => false
      end
  | JArr items => existsb ToString_throws items
  | JUndefined | JNull | JBool _ | JNum _ | JStr _ => false
  end.

(** ** [JSON.stringify] of the two objects the plugin sends *)

Module Stringify.

Definition hex_char (d : N) : N := if d <? 10 then 48 + d else 87 + d.

(** Four lower-case hexadecimal digits after a backslash and [u]. *)
Definition unicode_escape (c : N) : jsstring :=
  [92; 117; hex_char (c / 4096 mod 16); hex_char (c / 256 mod 16);
   hex_char (c / 16 mod 16); hex_char (c mod 16)].

Definition is_high_surrogate (c : N) : bool := (55296 <=? c) && (c <=? 56319).
Definition is_low_surrogate (c : N) : bool := (56320 <=? c) && (c <=? 57343).

Definition escape_unit (c : N) : jsstring :=
  if c =? 8 then [92; 98]
  else if c =? 9 then [92; 116]
  else if c =? 10 then [92; 110]
  else if c =? 12 then [92; 102]
  else if c =? 13 then [92; 114]
  else if c =? 34 then [92; 34]
  else if c =? 92 then [92; 92]
  else if (c <? 32) || is_high_surrogate c || is_low_surrogate c
       then unicode_escape c
  else [c].

(** A surrogate pair is copied; a lone surrogate is escaped. *)
Fixpoint quote_units (s : jsstring) : jsstring :=
  match s with
  | [] => []
  | c :: s1 =>
      if is_high_surrogate c then
        match s1 with
        | d :: s2 =>
            if is_low_surrogate d then c :: d :: quote_units s2
            else unicode_escape c ++ quote_units s1
        | [] => unicode_escape c
        end
      else escape_unit c ++ quote_units s1
  end.

Definition quote (s : jsstring) : jsstring := 34 :: quote_units s ++ [34].

Definition key (name : string) : jsstring := 34 :: lit name ++ [34; 58].

(** [JSON.stringify({ type: 'input', data })] *)
Definition input (data : jsstring) : jsstring :=
  [123] ++ key "type" ++ quote (lit "input") ++ [44]
        ++ key "data" ++ quote data ++ [125].

(** [JSON.stringify({ type: 'resize', cols, rows })] *)
Definition resize (cols rows : N) : jsstring :=
  [123] ++ key "type" ++ quote (lit "resize") ++ [44]
        ++ key "cols" ++ Number_toString cols ++ [44]
        ++ key "rows" ++ Number_toString rows ++ [125].

End Stringify.

(** ** The objects of the page *)

Inductive ReadyState := CONNECTING | OPEN | CLOSING | CLOSED.

#[global] Instance ReadyState_eq_dec : EqDecision ReadyState.
Proof. solve_decision. Defined.

(** A WebSocket object: what the plugin reads and writes ([readyState],
    the texts passed to [send]) and, as a record of the run, the texts of
    the message events it has dispatched. *)
Record WebSocketObj := {
  readyState : ReadyState;
  sent : list jsstring;
  received : list jsstring
}.

(** Values thrown and caught. *)
Inductive js_error :=
| JsSyntaxError                       (* JSON.parse *)
| JsTypeError                         (* property of null or undefined *)
| InvalidStateError                   (* send on a CONNECTING socket *)
| FetchFailure (message : jsstring)   (* rejection of fetch *)
| ErrorEvent.                         (* argument of onerror *)

(** A template literal: its text and the values substituted in it. *)
Inductive piece :=
| Text (s : jsstring)
| Value (v : jsval)
| MessageOf (e : js_error).

Inductive term_call :=
| TClear
| TWrite (data : jsval)
| TWriteln (line : list piece).

(** The xterm [Terminal]: its grid, the calls made on it in order, and
    whether [onData] has a listener. *)
Record TerminalObj := {
  cols : N;
  rows : N;
  calls : list term_call;
  onData : bool
}.

Record Sidebar := { display : jsstring }.

(** [debugLog] prints its message after a time stamp; the entry keeps the
    message. *)
Inductive console_entry :=
| DebugLog (message : list piece)
| ConsoleError (label : jsstring) (error : js_error).

Inductive timer_callback :=
| FitAndResize   (* openTerminal *)
| FitOnly        (* toggleTerminal *)
| Reconnect.     (* websocket.onclose *)

Record Timer := { callback : timer_callback; delay : N }.

(** The module's variables, then the page around them: every WebSocket
    created so far, the pending timers, the number of health requests in
    flight, the grid that fits the container now, the window's resize
    listener, the console and the messages shown by [logseq.UI.showMsg]. *)
Record State := {
  terminal : option TerminalObj;
  fitAddon : option unit;
  terminalSidebar : option Sidebar;
  websocket : option nat;
  sockets : list WebSocketObj;
  timers : list Timer;
  fetches : nat;
  container : N * N;
  resize_listener : bool;
  console : list console_entry;
  shown : list jsstring
}.

Definition initial (dims : N * N) : State :=
  {| terminal := None; fitAddon := None; terminalSidebar := None;
     websocket := None; sockets := []; timers := []; fetches := 0;
     container := dims; resize_listener := false; console := [];
     shown := [] |}.

Definition set_terminal (t : option TerminalObj) (st : State) : State :=
  {| terminal := t; fitAddon := fitAddon st;
     terminalSidebar := terminalSidebar st; websocket := websocket st;
     sockets := sockets st; timers := timers st; fetches := fetches st;
     container := container st; resize_listener := resize_listener st;
     console := console st; shown := shown st |}.

Definition set_fitAddon (f : option unit) (st : State) : State :=
  {| terminal := terminal st; fitAddon := f;
     terminalSidebar := terminalSidebar st; websocket := websocket st;
     sockets := sockets st; timers := timers st; fetches := fetches st;
     container := container st; resize_listener := resize_listener st;
     console := console st; shown := shown st |}.

Definition set_terminalSidebar (s : option Sidebar) (st : State) : State :=
  {| terminal := terminal st; fitAddon := fitAddon st;
     terminalSidebar := s; websocket := websocket st;
     sockets := sockets st; timers := timers st; fetches := fetches st;
     container := container st; resize_listener := resize_listener st;
     console := console st; shown := shown st |}.

Definition set_websocket (w : option nat) (st : State) : State :=
  {| terminal := terminal st; fitAddon := fitAddon st;
     terminalSidebar := terminalSidebar st; websocket := w;
     sockets := sockets st; timers := timers st; fetches := fetches st;
     container := container st; resize_listener := resize_listener st;
     console := console st; shown := shown st |}.

Definition set_sockets (l : list WebSocketObj) (st : State) : State :=
  {| terminal := terminal st; fitAddon := fitAddon st;
     terminalSidebar := terminalSidebar st; websocket := websocket st;
     sockets := l; timers := timers st; fetches := fetches st;
     container := container st; resize_listener := resize_listener st;
     console := console st; shown := shown st |}.

Definition set_timers (l : list Timer) (st : State) : State :=
  {| terminal := terminal st; fitAddon := fitAddon st;
     terminalSidebar := terminalSidebar st; websocket := websocket st;
     sockets := sockets st; timers := l; fetches := fetches st;
     container := container st; resize_listener := resize_listener st;
     console := console st; shown := shown st |}.

Definition set_fetches (n : nat) (st : State) : State :=
  {| terminal := terminal st; fitAddon := fitAddon st;
     terminalSidebar := terminalSidebar st; websocket := websocket st;
     sockets := sockets st; timers := timers st; fetches := n;
     container := container st; resize_listener := resize_listener st;
     console := console st; shown := shown st |}.

Definition set_container (d : N * N) (st : State) : State :=
  {| terminal := terminal st; fitAddon := fitAddon st;
     terminalSidebar := terminalSidebar st; websocket := websocket st;
     sockets := sockets st; timers := timers st; fetches := fetches st;
     container := d; resize_listener := resize_listener st;
     console := console st; shown := shown st |}.

Definition set_resize_listener (b : bool) (st : State) : State :=
  {| terminal := terminal st; fitAddon := fitAddon st;
     terminalSidebar := terminalSidebar st; websocket := websocket st;
     sockets := sockets st; timers := timers st; fetches := fetches st;
     container := container st; resize_listener := b;
     console := console st; shown := shown st |}.

Definition set_console (l : list console_entry) (st : State) : State :=
  {| terminal := terminal st; fitAddon := fitAddon st;
     terminalSidebar := terminalSidebar st; websocket := websocket st;
     sockets := sockets st; timers := timers st; fetches := fetches st;
     container := container st; resize_listener := resize_listener st;
     console := l; shown := shown st |}.

Definition set_shown (l : list jsstring) (st : State) : State :=
  {| terminal := terminal st; fitAddon := fitAddon st;
     terminalSidebar := terminalSidebar st; websocket := websocket st;
     sockets := sockets st; timers := timers st; fetches := fetches st;
     container := container st; resize_listener := resize_listener st;
     console := console st; shown := l |}.

(** ** Running JavaScript: state and exceptions *)

Inductive outcome (A : Type) :=
| Normal (a : A) (st : State)
| Abrupt (e : js_error) (st : State).
Arguments Normal {A} a st.
Arguments Abrupt {A} e st.

Definition js (A : Type) : Type := State -> outcome A.

Definition ret {A} (a : A) : js A := fun st => Normal a st.

Definition bind {A B} (m : js A) (k : A -> js B) : js B :=
  fun st =>
    match m st with
    | Normal a st' => k a st'
    | Abrupt e st' => Abrupt e st'
    end.

Definition throw {A} (e : js_error) : js A := fun st => Abrupt e st.

(** [try { body } catch (error) { handler }] *)
Definition try_catch {A} (body : js A) (handler : js_error -> js A) : js A :=
  fun st =>
    match body st with
    | Normal a st' => Normal a st'
    | Abrupt e st' => handler e st'
    end.

Definition gets {A} (f : State -> A) : js A := fun st => Normal (f st) st.
Definition modify (f : State -> State) : js unit := fun st => Normal tt (f st).

Declare Scope js_scope.
Delimit Scope js_scope with js.
Notation "x <- m ;; k" := (bind m (fun x => k))
  (at level 20, m at level 99, k at level 200, only parsing) : js_scope.
Notation "' x <- m ;; k" := (bind m (fun x => k))
  (at level 20, x pattern, m at level 99, k at level 200, only parsing) : js_scope.
Notation "m ;; k" := (bind m (fun _ => k))
  (at level 100, k at level 200, only parsing, right associativity) : js_scope.

(** [if (b) { m }] *)
Definition when (b : bool) (m : js unit) : js unit := if b then m else ret tt.

#[local] Open Scope js_scope.

(** The state a callback leaves behind, whether it returned or threw. *)
Definition final {A} (o : outcome A) : State :=
  match o with
  | Normal _ st => st
  | Abrupt _ st => st
  end.

(** ** Library calls *)

Definition BACKEND_URL : jsstring := lit "http://127.0.0.1:3030".

Definition crlf : jsstring := [13; 10].

(** An escape sequence: ESC followed by [code]. *)
Definition esc (code : string) : jsstring := 27 :: lit code.

(** [debugLog(message)] (lines 7-17): [console.log] of the message. *)
Definition debugLog (message : list piece) : js unit :=
  modify (fun st => set_console (console st ++ [DebugLog message]) st).

(** [console.error(label, e)] *)
Definition console_error (label : string) (e : js_error) : js unit :=
  modify (fun st => set_console (console st ++ [ConsoleError (lit label) e]) st).

(** [logseq.UI.showMsg(message, ...)] *)
Definition showMsg (message : string) : js unit :=
  modify (fun st => set_shown (shown st ++ [lit message]) st).

(** A method call on [terminal]; a [TypeError] while it is [undefined]. *)
Definition terminal_call (c : term_call) : js unit :=
  fun st =>
    match terminal st with
    | Some t =>
        Normal tt (set_terminal
          (Some {| cols := cols t; rows := rows t;
                   calls := calls t ++ [c]; onData := onData t |}) st)
    | None => Abrupt JsTypeError st
    end.

(** [terminal.clear()], [terminal.write(data)], [terminal.writeln(line)].
    The plugin passes strings to [write], but for [message.data], which
    is whatever the frame holds. xterm reads [data.length] before it
    queues the data: [write(undefined)] and [write(null)] throw a
    [TypeError] and nothing is written. For any other value the
    call is recorded with that value; what xterm later draws for one that
    is no string is not modelled. *)
Definition terminal_clear : js unit := terminal_call TClear.
Definition terminal_write (data : jsval) : js unit :=
  if nullish data then throw JsTypeError else terminal_call (TWrite data).
Definition terminal_writeln (line : list piece) : js unit :=
  terminal_call (TWriteln line).

(** [const { cols, rows } = terminal] *)
Definition terminal_size : js (N * N) :=
  fun st =>
    match terminal st with
    | Some t => Normal (cols t, rows t) st
    | None => Abrupt JsTypeError st
    end.

(** [fitAddon.fit()]: the terminal takes the grid that fits its container. *)
Definition fit : js unit :=
  fun st =>
    match fitAddon st, terminal st with
    | Some _, Some t =>
        Normal tt (set_terminal
          (Some {| cols := fst (container st); rows := snd (container st);
                   calls := calls t; onData := onData t |}) st)
    | _, _ => Abrupt JsTypeError st
    end.

(** [websocket && websocket.readyState === WebSocket.OPEN] *)
Definition websocket_open (st : State) : bool :=
  match websocket st with
  | Some i =>
      match sockets st !! i with
      | Some ws => bool_decide (readyState ws = OPEN)
      | None => false
      end
  | None => false
  end.

(** [websocket.send(text)]: throws on a socket still CONNECTING, queues on
    an OPEN one, and discards on one that is closing or closed. *)
Definition websocket_send (text : jsstring) : js unit :=
  fun st =>
    match websocket st with
    | Some i =>
        match sockets st !! i with
        | Some ws =>
            match readyState ws with
            | CONNECTING => Abrupt InvalidStateError st
            | OPEN =>
                Normal tt (set_sockets
                  (<[i := {| readyState := OPEN; sent := sent ws ++ [text];
                             received := received ws |}]> (sockets st)) st)
            | CLOSING | CLOSED => Normal tt st
            end
        | None => Abrupt JsTypeError st
        end
    | None => Abrupt JsTypeError st
    end.

(** [setTimeout(cb, ms)] *)
Definition setTimeout (cb : timer_callback) (ms : N) : js unit :=
  modify (fun st => set_timers (timers st ++ [{| callback := cb; delay := ms |}]) st).

(** [fetch(`${BACKEND_URL}/health`)] with its [then] and [catch]. *)
Definition fetch_health : js unit :=
  modify (fun st => set_fetches (S (fetches st)) st).

(** [websocket = new WebSocket(...)]; the four callbacks assigned to it
    right after are the same for every socket, so they are not stored. *)
Definition new_WebSocket : js unit :=
  modify (fun st =>
    set_websocket (Some (length (sockets st)))
      (set_sockets (sockets st ++
         [{| readyState := CONNECTING; sent := []; received := [] |}]) st)).

(** [terminalSidebar.style.display = value] *)
Definition set_display (value : string) : js unit :=
  fun st =>
    match terminalSidebar st with
    | Some _ => Normal tt (set_terminalSidebar (Some {| display := lit value |}) st)
    | None => Abrupt JsTypeError st
    end.

(** [terminalSidebar.style.display === 'none'] *)
Definition display_is_none : js bool :=
  fun st =>
    match terminalSidebar st with
    | Some sb => Normal (jsstring_eqb (display sb) (lit "none")) st
    | None => Abrupt JsTypeError st
    end.

(** ** The plugin

    The functions of [index.js], in the order of the proofs' needs. The
    registration of commands in [main] (lines 32-123) only decides which
    user action calls [openTerminal] or [toggleTerminal]; it is part of
    [event] below. *)

(** [connectToBackend] (lines 236-261), up to the request; its two
    callbacks are [health_then] and [health_catch]. *)
Definition connectToBackend : js unit :=
  debugLog [Text (lit "Connecting to backend server at " ++ BACKEND_URL)];;
  fetch_health.

(** The body shared by the window's resize listener (lines 172-180) and
    the timer of [openTerminal] (lines 187-195). *)
Definition fit_and_send_resize : js unit :=
  f <- gets fitAddon;;
  when (bool_decide (is_Some f)) (
    fit;;
    open <- gets websocket_open;;
    when open (
      '(c, r) <- terminal_size;;
      websocket_send (Stringify.resize c r))).

(** The listener given to [terminal.onData] (lines 165-169). *)
Definition onData_handler (data : jsstring) : js unit :=
  open <- gets websocket_open;;
  when open (websocket_send (Stringify.input data)).

Definition register_onData : js unit :=
  fun st =>
    match terminal st with
    | Some t =>
        Normal tt (set_terminal
          (Some {| cols := cols t; rows := rows t;
                   calls := calls t; onData := true |}) st)
    | None => Abrupt JsTypeError st
    end.

(** [openTerminal] (lines 128-196). The sidebar, the container, the
    terminal and the fit addon are created together the first time; the
    container is only passed to [terminal.open] and is not kept here. *)
Definition openTerminal : js unit :=
  sb <- gets terminalSidebar;;
  (when (bool_decide (sb = None)) (
     modify (set_terminalSidebar (Some {| display := [] |}));;
     modify (set_terminal
       (Some {| cols := 80; rows := 24; calls := []; onData := false |}));;
     modify (set_fitAddon (Some tt));;
     fit;;
     connectToBackend;;
     register_onData;;
     modify (set_resize_listener true)));;
  set_display "flex";;
  setTimeout FitAndResize 100.

(** [toggleTerminal] (lines 201-231). [logseq] is defined by the import
    at the top of the file, so the message is always shown. *)
Definition toggleTerminal : js unit :=
  debugLog [Text (lit "toggleTerminal function called")];;
  showMsg "Terminal button clicked";;
  try_catch (
    sb <- gets terminalSidebar;;
    if bool_decide (sb = None) then
      debugLog [Text (lit "Terminal sidebar does not exist, creating it")];;
      openTerminal
    else
      hidden <- display_is_none;;
      if hidden then
        debugLog [Text (lit "Showing terminal sidebar")];;
        set_display "flex";;
        setTimeout FitOnly 100
      else
        debugLog [Text (lit "Hiding terminal sidebar")];;
        set_display "none")
  (fun error =>
    debugLog [Text (lit "Error in toggleTerminal function: "); MessageOf error];;
    console_error "Error in toggleTerminal function:" error).

(** The timer of [toggleTerminal] (lines 217-222). *)
Definition fit_only : js unit :=
  f <- gets fitAddon;;
  when (bool_decide (is_Some f)) (
    fit;;
    debugLog [Text (lit "Fit terminal to container")]).

Definition start_server_hint : list (list piece) :=
  [ [Text (esc "[33m" ++ lit "Please start the backend server with:" ++ esc "[0m")];
    [Text (esc "[1;34m"
           ++ lit "cd /home/brandt/projects/cyberorganism && cargo run --bin server"
           ++ esc "[0m" ++ crlf)] ].

Definition not_running_lines : list (list piece) :=
  [Text (crlf ++ esc "[31m" ++ lit "Backend server is not running." ++ esc "[0m")]
  :: start_server_hint.

Definition cannot_connect_lines : list (list piece) :=
  [Text (crlf ++ esc "[31m" ++ lit "Cannot connect to backend server." ++ esc "[0m")]
  :: start_server_hint.

Fixpoint writeln_all (lines : list (list piece)) : js unit :=
  match lines with
  | [] => ret tt
  | l :: rest => terminal_writeln l;; writeln_all rest
  end.

(** [connectWebSocket] (lines 266-313), up to the creation of the
    socket; its callbacks are [onopen], [onmessage], [onclose] and
    [onerror]. *)
Definition connectWebSocket : js unit :=
  debugLog [Text (lit "Connecting to WebSocket at ws://127.0.0.1:3030/terminal")];;
  new_WebSocket.

(** [response.ok] *)
Definition response_ok (status : N) : bool := (200 <=? status) && (status <=? 299).

(** The [then] callback of the health request (lines 240-253). *)
Definition health_then (status : N) : js unit :=
  debugLog [Text (lit "Health check response: " ++ Number_toString status)];;
  if response_ok status then
    debugLog [Text (lit "Health check successful, connecting to WebSocket")];;
    connectWebSocket
  else
    debugLog [Text (lit "Health check failed with status: " ++ Number_toString status)];;
    writeln_all not_running_lines.

(** The [catch] callback of the health request (lines 254-260); it is
    also what an exception of the [then] callback is passed to. *)
Definition health_catch (error : js_error) : js unit :=
  console_error "Error connecting to backend:" error;;
  debugLog [Text (lit "Connection error details: "); MessageOf error];;
  writeln_all cannot_connect_lines.

Definition banner : list (list piece) :=
  [ [Text (crlf ++ esc "[1;32m" ++ lit "Cyberorganism Terminal" ++ esc "[0m")];
    [Text (esc "[90m" ++ lit "Connected to backend server" ++ esc "[0m" ++ crlf)] ].

(** [websocket.onopen] (lines 270-280) *)
Definition onopen : js unit :=
  debugLog [Text (lit "WebSocket connected")];;
  '(c, r) <- terminal_size;;
  websocket_send (Stringify.resize c r);;
  terminal_clear;;
  writeln_all banner.

(** The template literal of line 289: [None] stands for the [TypeError]
    thrown when [message.data] cannot be converted to a string. *)
Definition error_line (data : jsval) : option (list piece) :=
  if ToString_throws data then None
  else Some [Text (crlf ++ esc "[31m" ++ lit "Error: "); Value data;
             Text (esc "[0m" ++ crlf)].

(** The evaluation of a template literal. *)
Definition template (line : option (list piece)) : js (list piece) :=
  match line with
  | Some l => ret l
  | None => throw JsTypeError
  end.

(** [JSON.parse(event.data)] inside a [try]. *)
Definition parse_message (data : jsstring) : js jsval :=
  match JSON_parse data with
  | Some v => ret v
  | None => throw JsSyntaxError
  end.

(** [message.key] *)
Definition member (message : jsval) (key : string) : js jsval :=
  match get_property message (lit key) with
  | Some v => ret v
  | None => throw JsTypeError
  end.

(** [websocket.onmessage] (lines 282-295), [data] being [event.data]. *)
Definition onmessage (data : jsstring) : js unit :=
  try_catch (
    message <- parse_message data;;
    ty <- member message "type";;
    if strict_equals_string ty (lit "output") then
      payload <- member message "data";;
      terminal_write payload
    else
      ty' <- member message "type";;
      if strict_equals_string ty' (lit "error") then
        payload <- member message "data";;
        line <- template (error_line payload);;
        terminal_writeln line
      else ret tt)
  (fun error =>
    console_error "Error parsing WebSocket message:" error;;
    terminal_write (JStr data)).

(** [websocket.onclose] (lines 297-307) *)
Definition onclose : js unit :=
  debugLog [Text (lit "WebSocket disconnected")];;
  terminal_writeln
    [Text (crlf ++ esc "[31m" ++ lit "Disconnected from backend server."
           ++ esc "[0m" ++ crlf)];;
  setTimeout Reconnect 5000.

(** [websocket.onerror] (lines 309-312) *)
Definition onerror : js unit :=
  console_error "WebSocket error:" ErrorEvent;;
  terminal_writeln
    [Text (crlf ++ esc "[31m" ++ lit "WebSocket error. Reconnecting..."
           ++ esc "[0m" ++ crlf)].

(** The timer of [websocket.onclose] (lines 302-306). *)
Definition reconnect : js unit :=
  sb <- gets terminalSidebar;;
  match sb with
  | Some s =>
      when (negb (jsstring_eqb (display s) (lit "none"))) connectToBackend
  | None => ret tt
  end.

Definition run_timer (cb : timer_callback) : js unit :=
  match cb with
  | FitAndResize => fit_and_send_resize
  | FitOnly => fit_only
  | Reconnect => reconnect
  end.

(** ** The event loop

    What the page can do to the plugin. Each event runs the callbacks
    registered for it to completion; [step] is [None] when the page cannot
    raise the event in that state (no such timer, socket already closed,
    no listener). A callback that throws leaves the state it had reached.

    Time is not modelled: a pending timer may fire at any moment, its
    delay being kept as data. A socket receives messages only while OPEN;
    messages are texts. A socket that fails raises [error] and then
    [close]; one that is closed cleanly raises [close] alone. *)

Inductive event :=
| SlashCommand                              (* the terminal slash command *)
| ToggleCommand                             (* shortcut or toolbar button *)
| Layout (dims : N * N)                     (* the container changes size *)
| WindowResize (dims : N * N)               (* the same, with a resize event *)
| TerminalData (data : jsstring)            (* keys typed or pasted *)
| TimerFires (k : nat)
| HealthResponse (status : N)
| HealthFailure (message : jsstring)
| SocketOpens (i : nat)
| SocketMessage (i : nat) (data : jsstring)
| SocketCloses (i : nat) (failed : bool).

Definition set_readyState (i : nat) (ws : WebSocketObj) (rs : ReadyState)
    (st : State) : State :=
  set_sockets
    (<[i := {| readyState := rs; sent := sent ws; received := received ws |}]>
       (sockets st)) st.

Definition deliver (i : nat) (ws : WebSocketObj) (data : jsstring)
    (st : State) : State :=
  set_sockets
    (<[i := {| readyState := readyState ws; sent := sent ws;
               received := received ws ++ [data] |}]> (sockets st)) st.

Definition step (ev : event) (st : State) : option State :=
  match ev with
  | SlashCommand => Some (final (openTerminal st))
  | ToggleCommand => Some (final (toggleTerminal st))
  | Layout dims => Some (set_container dims st)
  | WindowResize dims =>
      let st1 := set_container dims st in
      Some (if resize_listener st then final (fit_and_send_resize st1) else st1)
  | TerminalData data =>
      match terminal st with
      | Some t => if onData t then Some (final (onData_handler data st)) else None
      | None => None
      end
  | TimerFires k =>
      match timers st !! k with
      | Some t =>
          Some (final (run_timer (callback t) (set_timers (delete k (timers st)) st)))
      | None => None
      end
  | HealthResponse status =>
      match fetches st with
      | S n => Some (final (try_catch (health_then status) health_catch
                              (set_fetches n st)))
      | O => None
      end
  | HealthFailure message =>
      match fetches st with
      | S n => Some (final (health_catch (FetchFailure message) (set_fetches n st)))
      | O => None
      end
  | SocketOpens i =>
      match sockets st !! i with
      | Some ws =>
          match readyState ws with
          | CONNECTING => Some (final (onopen (set_readyState i ws OPEN st)))
          | _ => None
          end
      | None => None
      end
  | SocketMessage i data =>
      match sockets st !! i with
      | Some ws =>
          match readyState ws with
          | OPEN => Some (final (onmessage data (deliver i ws data st)))
          | _ => None
          end
      | None => None
      end
  | SocketCloses i failed =>
      match sockets st !! i with
      | Some ws =>
          match readyState ws with
          | CLOSED => None
          | _ =>
              let st1 := set_readyState i ws CLOSED st in
              let st2 := if failed then final (onerror st1) else st1 in
              Some (final (onclose st2))
          end
      | None => None
      end
  end.

Fixpoint run (evs : list event) (st : State) : option State :=
  match evs with
  | [] => Some st
  | ev :: rest =>
      match step ev st with
      | Some st' => run rest st'
      | None => None
      end
  end.

Inductive reachable : State -> Prop :=
| reachable_initial dims : reachable (initial dims)
| reachable_step st ev st' :
    reachable st -> step ev st = Some st' -> reachable st'.

(** ** The session the state stands for *)

Inductive Session := Disconnected | Probing | Connecting | Connected | Reconnecting.

Definition is_reconnect (t : Timer) : bool :=
  match callback t with
  | Reconnect => true
  | _ => false
  end.

Definition waiting (st : State) : Session :=
  match fetches st with
  | S _ => Probing
  | O => if existsb is_reconnect (timers st) then Reconnecting else Disconnected
  end.

Definition session (st : State) : Session :=
  match websocket st with
  | Some i =>
      match sockets st !! i with
      | Some ws =>
          match readyState ws with
          | CONNECTING => Connecting
          | OPEN => Connected
          | CLOSING | CLOSED => waiting st
          end
      | None => waiting st
      end
  | None => waiting st
  end.

(** [terminalSidebar && terminalSidebar.style.display !== 'none'] *)
Definition terminal_shown (st : State) : bool :=
  match terminalSidebar st with
  | Some sb => negb (jsstring_eqb (display sb) (lit "none"))
  | None => false
  end.

(** The frames sent so far on the socket [websocket] refers to. *)
Definition frames_sent (st : State) : list jsstring :=
  match websocket st with
  | Some i => default [] (sent <$> sockets st !! i)
  | None => []
  end.

Definition screen (st : State) : list term_call :=
  default [] (calls <$> terminal st).

Definition viewport (st : State) : option (N * N) :=
  (fun t => (cols t, rows t)) <$> terminal st.

(** ** The connection chain

    What may still call [connectToBackend] or [connectWebSocket] later: a
    health request in flight, a socket that is not closed yet, a reconnect
    timer. [chain] says which one there is, if any, as a function of the
    health requests, the sockets and the timers. *)

Definition fresh_socket : WebSocketObj :=
  {| readyState := CONNECTING; sent := []; received := [] |}.

Definition reconnect_timer : Timer := {| callback := Reconnect; delay := 5000 |}.

Definition all_closed (l : list WebSocketObj) : Prop :=
  Forall (fun ws => readyState ws = CLOSED) l.

(** The number of reconnect timers among the pending ones. *)
Fixpoint reconnects (l : list Timer) : nat :=
  match l with
  | [] => 0
  | t :: l' => (if is_reconnect t then 1 else 0) + reconnects l'
  end.

Inductive chain (f : nat) (socks : list WebSocketObj) (tms : list Timer)
  : Session -> Prop :=
| chain_disconnected :
    f = 0%nat -> all_closed socks -> reconnects tms = 0%nat ->
    chain f socks tms Disconnected
| chain_probing :
    f = 1%nat -> all_closed socks -> reconnects tms = 0%nat ->
    chain f socks tms Probing
| chain_connecting olds :
    f = 0%nat -> socks = olds ++ [fresh_socket] -> all_closed olds ->
    reconnects tms = 0%nat ->
    chain f socks tms Connecting
| chain_connected olds ws :
    f = 0%nat -> socks = olds ++ [ws] -> readyState ws = OPEN ->
    all_closed olds -> reconnects tms = 0%nat ->
    chain f socks tms Connected
| chain_reconnecting :
    f = 0%nat -> all_closed socks -> reconnects tms = 1%nat ->
    chain f socks tms Reconnecting.

(** The index of the socket created last. *)
Definition newest (socks : list WebSocketObj) : option nat :=
  match socks with
  | [] => None
  | _ :: _ => Some (pred (length socks))
  end.

(** What holds of every state the plugin can be in: the handles are
    created together and never dropped, [websocket] is the socket created
    last, and the chain has one link at most. *)
Record wf (st : State) : Prop := {
  wf_ui :
    match terminalSidebar st with
    | None =>
        terminal st = None /\ fitAddon st = None /\ sockets st = [] /\
        timers st = [] /\ fetches st = 0%nat /\ resize_listener st = false
    | Some _ =>
        (exists t, terminal st = Some t /\ onData t = true) /\
        fitAddon st = Some tt /\ resize_listener st = true
    end;
  wf_websocket : websocket st = newest (sockets st);
  wf_chain : exists s, chain (fetches st) (sockets st) (timers st) s
}.

(** ** Vocabulary of the statements *)

(** What the screen holds: the calls made since the last [clear]. (xterm
    keeps the line the cursor is on; every write the plugin makes before a
    socket opens ends with a line break, so that line is blank.) *)
Definition since_clear (l : list term_call) : list term_call :=
  fold_left (fun acc c => match c with TClear => [] | _ => acc ++ [c] end) l [].

(** [st] after [frames] have been passed to [send] on the socket that
    [websocket] refers to, and nothing else has happened. *)
Definition push_frames (frames : list jsstring) (st : State) : State :=
  match websocket st with
  | Some i =>
      match sockets st !! i with
      | Some ws =>
          set_sockets
            (<[i := {| readyState := readyState ws; sent := sent ws ++ frames;
                       received := received ws |}]> (sockets st)) st
      | None => st
      end
  | None => st
  end.

(** [st] after one more call on the terminal. *)
Definition add_call (c : term_call) (st : State) : State :=
  match terminal st with
  | Some t =>
      set_terminal (Some {| cols := cols t; rows := rows t;
                            calls := calls t ++ [c]; onData := onData t |}) st
  | None => st
  end.

Definition add_console (e : console_entry) (st : State) : State :=
  set_console (console st ++ [e]) st.

(** The object an input frame decodes to. *)
Definition input_message (data : jsstring) : jsval :=
  JObj [(lit "type", JStr (lit "input")); (lit "data", JStr data)].

(** Between [st] and [st'] no socket was created, opened or closed,
    nothing was sent, and no timer or health request was added or
    removed. *)
Definition stream_untouched (st st' : State) : Prop :=
  websocket st' = websocket st /\
  readyState <$> sockets st' = readyState <$> sockets st /\
  sent <$> sockets st' = sent <$> sockets st /\
  timers st' = timers st /\
  fetches st' = fetches st.

(** ** Runs used as examples *)

Definition grid : N * N := (80, 24).

(** The terminal is opened, the health request answers 200, the socket
    opens, and the timer set by [openTerminal] fires. *)
Definition connect_events : list event :=
  [SlashCommand; HealthResponse 200; SocketOpens 0%nat; TimerFires 0%nat].

Definition connected_example : State :=
  Eval vm_compute in default (initial grid) (run connect_events (initial grid)).

(** The terminal is opened and the health request is still in flight. *)
Definition probing_example : State :=
  Eval vm_compute in default (initial grid) (run [SlashCommand] (initial grid)).

(** The health request of [probing_example] has been answered 503. *)
Definition probe_failed_example : State :=
  Eval vm_compute in
    default (initial grid) (run [HealthResponse 503] probing_example).

(** The socket of [connected_example] has been closed by the server. *)
Definition reconnecting_example : State :=
  Eval vm_compute in
    default (initial grid) (run [SocketCloses 0%nat false] connected_example).

(** The user has hidden the terminal of [connected_example]. *)
Definition hidden_example : State :=
  Eval vm_compute in
    default (initial grid) (run [ToggleCommand] connected_example).

(** The user has hidden the terminal of [reconnecting_example]. *)
Definition hidden_reconnecting_example : State :=
  Eval vm_compute in
    default (initial grid) (run [ToggleCommand] reconnecting_example).

(** The socket of [connected_example] has been closed by the server, the
    reconnect timer has fired with the terminal shown, and the user has
    hidden the terminal while the health request is in flight. *)
Definition hidden_probing_example : State :=
  Eval vm_compute in
    default (initial grid)
      (run [SocketCloses 0%nat false; TimerFires 0%nat; ToggleCommand]
         connected_example).

(** The health request of [hidden_probing_example] has been answered 200. *)
Definition hidden_connecting_example : State :=
  Eval vm_compute in
    default (initial grid) (run [HealthResponse 200] hidden_probing_example).

(** The socket of [hidden_connecting_example] has opened. *)
Definition hidden_connected_example : State :=
  Eval vm_compute in
    default (initial grid) (run [SocketOpens 1%nat] hidden_connecting_example).

(** [connected_example] after a text that is no JSON has arrived. *)
Definition not_json_example : State :=
  Eval vm_compute in
    default (initial grid)
      (run [SocketMessage 0%nat (lit "not json")] connected_example).

(** [connected_example] after the JSON text [null] has arrived. *)
Definition null_example : State :=
  Eval vm_compute in
    default (initial grid)
      (run [SocketMessage 0%nat (lit "null")] connected_example).

(** An error frame, and [connected_example] after it has arrived. *)
Definition error_frame : jsstring := json_text "{'type':'error','data':'exit'}".

Definition error_example : State :=
  Eval vm_compute in
    default (initial grid) (run [SocketMessage 0%nat error_frame] connected_example).

(** An output frame whose payload has an escape sequence and a line
    break, a resize frame as a server could echo it, and
    [connected_example] after each has arrived. *)
Definition output_frame : jsstring :=
  json_text "{'type':'output','data':'\u001b[31mhi\r\n'}".

Definition output_example : State :=
  Eval vm_compute in
    default (initial grid) (run [SocketMessage 0%nat output_frame] connected_example).

Definition resize_frame : jsstring := Stringify.resize 80 24.

Definition resize_example : State :=
  Eval vm_compute in
    default (initial grid) (run [SocketMessage 0%nat resize_frame] connected_example).

(** After the socket of [connected_example] has closed, the reconnect
    timer has fired and the health request has answered 200: a second
    socket is connecting, and the screen still shows the first session. *)
Definition reopening_example : State :=
  Eval vm_compute in
    default (initial grid)
      (run [SocketCloses 0%nat false; TimerFires 0%nat; HealthResponse 200]
         connected_example).

Definition reopened_example : State :=
  Eval vm_compute in
    default (initial grid) (run [SocketOpens 1%nat] reopening_example).

(** The terminal of a connected session is hidden, its container gets
    room for a grid of 120 by 40, and the terminal is shown again, with
    the toggle command or with the slash command; then the timer set by
    the command fires. *)
Definition refit_events (show : event) : list event :=
  [ToggleCommand; Layout (120, 40); show; TimerFires 0%nat].

Definition toggled_example : State :=
  Eval vm_compute in
    default (initial grid) (run (refit_events ToggleCommand) connected_example).

Definition reopened_by_command_example : State :=
  Eval vm_compute in
    default (initial grid) (run (refit_events SlashCommand) connected_example).

(** The sessions a run goes through, the first state included. *)
Fixpoint sessions (evs : list event) (st : State) : list Session :=
  session st ::
  match evs with
  | [] => []
  | ev :: rest =>
      match step ev st with
      | Some st' => sessions rest st'
      | None => []
      end
  end.

(** ** Outcomes of the health request *)

Inductive probe_outcome :=
| Responded (status : N)
| Failed (message : jsstring).

Definition probe_event (o : probe_outcome) : event :=
  match o with
  | Responded status => HealthResponse status
  | Failed message => HealthFailure message
  end.

(** The outcome is a response whose status is in the range 200-299. *)
Definition probe_success (o : probe_outcome) : bool :=
  match o with
  | Responded status => response_ok status
  | Failed _ => false
  end.

(** ** The handlers registered by [main]

    [main] (lines 32-123) gives the slash command a callback that calls
    [openTerminal] and the palette command one that calls
    [toggleTerminal]. The toolbar button reaches [toggleTerminal] through
    the handler given to [logseq.provideModel] and, once the button has
    been found in the page, through the click listener added to it. *)

(** The handler [toggleTerminal] of the model (lines 111-119). *)
Definition model_toggleTerminal : js unit :=
  debugLog [Text (lit "toggleTerminal called from UI interaction")];;
  try_catch toggleTerminal
    (fun error =>
      debugLog [Text (lit "Error in toggleTerminal: "); MessageOf error];;
      console_error "Error in toggleTerminal:" error).

(** The click listener of the toolbar button (lines 94-98). *)
Definition button_click_listener : js unit :=
  debugLog [Text (lit "Terminal button clicked directly")];;
  showMsg "Terminal button clicked directly";;
  toggleTerminal.

(** A state without its console and without the messages shown. *)
Definition forget_log (st : State) : State := set_console [] (set_shown [] st).

(** ** The callbacks of an event

    [dispatch] splits [step] in two: the state the page hands to the
    callbacks of the event, and the callbacks, which are run one after the
    other, each to its end ([step_dispatch]). *)

Definition dispatch (ev : event) (st : State) : option (State * list (js unit)) :=
  match ev with
  | SlashCommand => Some (st, [openTerminal])
  | ToggleCommand => Some (st, [toggleTerminal])
  | Layout dims => Some (set_container dims st, [])
  | WindowResize dims =>
      Some (set_container dims st,
            if resize_listener st then [fit_and_send_resize] else [])
  | TerminalData data =>
      match terminal st with
      | Some t => if onData t then Some (st, [onData_handler data]) else None
      | None => None
      end
  | TimerFires k =>
      match timers st !! k with
      | Some t => Some (set_timers (delete k (timers st)) st, [run_timer (callback t)])
      | None => None
      end
  | HealthResponse status =>
      match fetches st with
      | S n => Some (set_fetches n st, [try_catch (health_then status) health_catch])
      | O => None
      end
  | HealthFailure message =>
      match fetches st with
      | S n => Some (set_fetches n st, [health_catch (FetchFailure message)])
      | O => None
      end
  | SocketOpens i =>
      match sockets st !! i with
      | Some ws =>
          match readyState ws with
          | CONNECTING => Some (set_readyState i ws OPEN st, [onopen])
          | _ => None
          end
      | None => None
      end
  | SocketMessage i data =>
      match sockets st !! i with
      | Some ws =>
          match readyState ws with
          | OPEN => Some (deliver i ws data st, [onmessage data])
          | _ => None
          end
      | None => None
      end
  | SocketCloses i failed =>
      match sockets st !! i with
      | Some ws =>
          match readyState ws with
          | CLOSED => None
          | _ => Some (set_readyState i ws CLOSED st,
                       if failed then [onerror; onclose] else [onclose])
          end
      | None => None
      end
  end.

Definition run_callbacks (cbs : list (js unit)) (st : State) : State :=
  fold_left (fun s cb => final (cb s)) cbs st.

(** The exceptions that leave the callbacks uncaught. *)
Fixpoint uncaught (cbs : list (js unit)) (st : State) : list js_error :=
  match cbs with
  | [] => []
  | cb :: rest =>
      match cb st with
      | Normal _ st' => uncaught rest st'
      | Abrupt e st' => e :: uncaught rest st'
      end
  end.

(** ** Connection attempts *)

(** The number of sockets that are not closed. *)
Fixpoint live_sockets (l : list WebSocketObj) : nat :=
  match l with
  | [] => 0
  | ws :: l' =>
      ((if bool_decide (readyState ws = CLOSED) then 0 else 1) + live_sockets l')%nat
  end.

(** What may still lead to a connection: the health requests in flight,
    the sockets that are not closed and the reconnect timers. *)
Definition attempts (st : State) : nat :=
  (fetches st + live_sockets (sockets st) + reconnects (timers st))%nat.

(** The event is the close of a socket. *)
Definition is_close (ev : event) : bool :=
  match ev with
  | SocketCloses _ _ => true
  | _ => false
  end.

(** ** Frames sent *)

(** The texts the plugin passes to [send]. *)
Definition client_frame (f : jsstring) : Prop :=
  (exists data, f = Stringify.input data) \/
  (exists c r, f = Stringify.resize c r).

Definition resize_frame_of (f : jsstring) : Prop :=
  exists c r, f = Stringify.resize c r.

(** The object a resize frame decodes to, its numbers as they are
    written. *)
Definition resize_message (c r : N) : jsval :=
  JObj [(lit "type", JStr (lit "resize"));
        (lit "cols", JNum (Number_toString c));
        (lit "rows", JNum (Number_toString r))].

(** What [lex_int] accepts as a whole: digits, with no zero in front of
    another digit. *)
Definition int_lexeme (ds : jsstring) : Prop :=
  Forall (fun d => Json.is_digit d = true) ds /\
  match ds with
  | [] => False
  | d :: rest => d = 48 -> rest = []
  end.

(** A character that ends a number. *)
Definition ends_number (c : N) : Prop :=
  Json.is_digit c = false /\ c <> 46 /\ c <> 101 /\ c <> 69.

(** The number a sequence of decimal digits denotes. *)
Definition decimal_value (s : jsstring) : N :=
  fold_left (fun acc c => 10 * acc + (c - 48)) s 0.

(** The lines of [websocket.onclose] and [websocket.onerror]. *)
Definition disconnected_line : list piece :=
  [Text (crlf ++ esc "[31m" ++ lit "Disconnected from backend server."
         ++ esc "[0m" ++ crlf)].

Definition websocket_error_line : list piece :=
  [Text (crlf ++ esc "[31m" ++ lit "WebSocket error. Reconnecting..."
         ++ esc "[0m" ++ crlf)].

(** The timer of [openTerminal]. *)
Definition fit_timer : Timer := {| callback := FitAndResize; delay := 100 |}.

(** ** Further runs used as examples *)

(** The user tries again after the health request of
    [probe_failed_example] has failed: the slash command, the timers of
    [openTerminal], the toggle command twice, a resize of the window. *)
Definition retry_events : list event :=
  [SlashCommand; TimerFires 0%nat; TimerFires 0%nat; ToggleCommand;
   ToggleCommand; TimerFires 0%nat; WindowResize (100, 30)].

Definition retried_example : State :=
  Eval vm_compute in
    default (initial grid) (run retry_events probe_failed_example).

(** What a connected session goes through without its socket closing. *)
Definition busy_events : list event :=
  [TerminalData (lit "ls"); SocketMessage 0%nat output_frame; ToggleCommand;
   SocketMessage 0%nat (lit "not json"); SlashCommand; WindowResize (100, 30);
   TimerFires 0%nat; SocketMessage 0%nat error_frame].

Definition busy_example : State :=
  Eval vm_compute in default (initial grid) (run busy_events connected_example).

(** On a socket the first frame sent is a resize frame, the others are
    input or resize frames, and nothing is missing from an open one. *)
Definition frames_in_order (ws : WebSocketObj) : Prop :=
  match sent ws with
  | [] => readyState ws <> OPEN
  | f :: rest => resize_frame_of f /\ Forall client_frame rest
  end.

(** An output frame without its [data], and [connected_example] after
    it has arrived. *)
Definition bare_output_frame : jsstring := json_text "{'type':'output'}".

Definition bare_output_example : State :=
  Eval vm_compute in
    default (initial grid)
      (run [SocketMessage 0%nat bare_output_frame] connected_example).

(** An error frame whose [data] has a [toString] member, and
    [connected_example] after it has arrived. *)
Definition unprintable_error_frame : jsstring :=
  json_text "{'type':'error','data':{'toString':0}}".

Definition unprintable_error_example : State :=
  Eval vm_compute in
    default (initial grid)
      (run [SocketMessage 0%nat unprintable_error_frame] connected_example).

(** [connected_example] after the window has been resized. *)
Definition resized_example : State :=
  Eval vm_compute in
    default (initial grid) (run [WindowResize (100, 30)] connected_example).

(** [connected_example] after its own input frame has come back. *)
Definition echo_example : State :=
  Eval vm_compute in
    default (initial grid)
      (run [SocketMessage 0%nat (Stringify.input (lit "ls"))] connected_example).

(** The socket of [connected_example] has failed. *)
Definition failed_example : State :=
  Eval vm_compute in
    default (initial grid) (run [SocketCloses 0%nat true] connected_example).

(** The slash command is given again in [connected_example]. *)
Definition opened_again_example : State :=
  Eval vm_compute in
    default (initial grid) (run [SlashCommand] connected_example).

(** The state [openTerminal] leaves when it creates the sidebar. *)
Definition created (st : State) : State :=
  {| terminal := Some {| cols := fst (container st); rows := snd (container st);
                         calls := []; onData := true |};
     fitAddon := Some tt;
     terminalSidebar := Some {| display := lit "flex" |};
     websocket := None; sockets := []; timers := [fit_timer]; fetches := 1;
     container := container st; resize_listener := true;
     console := console st ++
       [DebugLog [Text (lit "Connecting to backend server at " ++ BACKEND_URL)]];
     shown := shown st |}.

(** The timer of [toggleTerminal]. *)
Definition refit_timer : Timer := {| callback := FitOnly; delay := 100 |}.

(** The events of a session that is dropped and resumed: the socket [i]
    closes, the timer [k] fires, the health request is answered and the
    socket [j] opens. *)
Definition drop_and_resume (i : nat) (failed : bool) (k : nat) (status : N)
    (j : nat) : list event :=
  [SocketCloses i failed; TimerFires k; HealthResponse status; SocketOpens j].

(** The events of the first connection. *)
Definition first_connection_events (status : N) : list event :=
  [SlashCommand; HealthResponse status; SocketOpens 0%nat].

(** The last resize frame sent says the grid the terminal has: input
    frames only have been sent after it. *)
Definition grid_reported (st : State) : Prop :=
  exists c r before inputs,
    viewport st = Some (c, r) /\
    frames_sent st = before ++ Stringify.resize c r :: map Stringify.input inputs.

(** No timer of [toggleTerminal] is pending. *)
Definition no_refit_pending (st : State) : Prop :=
  Forall (fun tm => callback tm <> FitOnly) (timers st).

(** [connected_example] after a day of work without the toggle command:
    input, a resize of the window, the slash command and its timer, a
    drop of the connection and its resumption. *)
Definition day_events : list event :=
  [TerminalData (lit "ls"); WindowResize (100, 30); TerminalData [13];
   Layout (90, 20); SlashCommand; TimerFires 0%nat;
   SocketCloses 0%nat false; Layout (120, 40); WindowResize (120, 40);
   TimerFires 0%nat; HealthResponse 200; SocketOpens 1%nat;
   TerminalData (lit "pwd")].

Definition day_example : State :=
  Eval vm_compute in default (initial grid) (run day_events connected_example).

(** * Properties *)

(** ** JSON texts *)

Module JsonFacts.
Import Json Stringify.

Lemma skip_ws_length s : (length (skip_ws s) <= length s)%nat.
Proof.
  induction s as [|c s IH]; simpl; [lia|].
  destruct (is_ws c); simpl; lia.
Qed.

Lemma parse_chars_length s v r :
  parse_chars s = Parsed v r -> (length r < length s)%nat.
Proof.
  remember (length s) as n eqn:Hn. revert s v r Hn.
  induction n as [n IH] using lt_wf_ind. intros s v r -> H.
  destruct s as [|c s1]; simpl in H; [done|].
  destruct (c =? 34); [simplify_eq/=; lia|].
  destruct (c =? 92).
  - destruct s1 as [|e s2]; [done|].
    destruct (e =? 117).
    + destruct s2 as [|h1 [|h2 [|h3 [|h4 s3]]]]; try done.
      destruct (hex4 h1 h2 h3 h4); [|done].
      destruct (parse_chars s3) as [v' r'| |] eqn:E; simplify_eq/=.
      pose proof (IH (length s3) ltac:(simpl; lia) s3 v' r eq_refl E). lia.
    + destruct (unescape e); [|done].
      destruct (parse_chars s2) as [v' r'| |] eqn:E; simplify_eq/=.
      pose proof (IH (length s2) ltac:(simpl; lia) s2 v' r eq_refl E). lia.
  - destruct (c <? 32); [done|].
    destruct (parse_chars s1) as [v' r'| |] eqn:E; simplify_eq/=.
    pose proof (IH (length s1) ltac:(simpl; lia) s1 v' r eq_refl E). lia.
Qed.

Lemma parse_chars_fuel s : parse_chars s <> OutOfFuel.
Proof.
  remember (length s) as n eqn:Hn. revert s Hn.
  induction n as [n IH] using lt_wf_ind. intros s ->.
  destruct s as [|c s1]; simpl; [done|].
  destruct (c =? 34); [done|].
  destruct (c =? 92).
  - destruct s1 as [|e s2]; [done|].
    destruct (e =? 117).
    + destruct s2 as [|h1 [|h2 [|h3 [|h4 s3]]]]; try done.
      destruct (hex4 h1 h2 h3 h4); [|done].
      pose proof (IH (length s3) ltac:(simpl; lia) s3 eq_refl).
      by destruct (parse_chars s3).
    + destruct (unescape e); [|done].
      pose proof (IH (length s2) ltac:(simpl; lia) s2 eq_refl).
      by destruct (parse_chars s2).
  - destruct (c <? 32); [done|].
    pose proof (IH (length s1) ltac:(simpl; lia) s1 eq_refl).
    by destruct (parse_chars s1).
Qed.

Lemma take_digits_length s ds r :
  take_digits s = (ds, r) -> (length r <= length s)%nat.
Proof.
  revert ds r. induction s as [|c s IH]; intros ds r H; simpl in H.
  - simplify_eq/=. lia.
  - destruct (is_digit c); [|simplify_eq/=; lia].
    destruct (take_digits s) as [ds' r'] eqn:E. simplify_eq/=.
    pose proof (IH _ _ eq_refl). lia.
Qed.

Lemma lex_int_length s i r : lex_int s = Some (i, r) -> (length r < length s)%nat.
Proof.
  destruct s as [|c s]; simpl; [done|].
  destruct (c =? 48); [intros; simplify_eq/=; lia|].
  destruct (is_digit c); [|done].
  destruct (take_digits s) as [ds r'] eqn:E. intros; simplify_eq/=.
  pose proof (take_digits_length _ _ _ E). lia.
Qed.

Lemma lex_frac_length s f r : lex_frac s = Some (f, r) -> (length r <= length s)%nat.
Proof.
  destruct s as [|c s]; simpl; [intros; simplify_eq/=; lia|].
  destruct (c =? 46); [|intros; simplify_eq/=; lia].
  destruct (take_digits s) as [[|d ds] r'] eqn:E; [done|]. intros; simplify_eq/=.
  pose proof (take_digits_length _ _ _ E). lia.
Qed.

Lemma lex_exp_length s e r : lex_exp s = Some (e, r) -> (length r <= length s)%nat.
Proof.
  destruct s as [|c s]; simpl; [intros; simplify_eq/=; lia|].
  destruct ((c =? 101) || (c =? 69)); [|intros; simplify_eq/=; lia].
  destruct s as [|g t]; simpl; [done|].
  destruct ((g =? 43) || (g =? 45)).
  - destruct (take_digits t) as [[|d ds] r'] eqn:E; [done|]. intros; simplify_eq/=.
    pose proof (take_digits_length _ _ _ E). lia.
  - destruct (take_digits (g :: t)) as [[|d ds] r'] eqn:E; [done|].
    pose proof (take_digits_length _ _ _ E) as Hl. simpl in Hl.
    intros [= <- <-]. simpl. lia.
Qed.

Lemma lex_number_length s v r :
  lex_number s = Parsed v r -> (length r < length s)%nat.
Proof.
  unfold lex_number.
  assert (forall s0, (length s0 <= length s)%nat ->
    match lex_int s0 with
    | Some (i, s1) =>
        match lex_frac s1 with
        | Some (f, s2) =>
            match lex_exp s2 with
            | Some (e, s3) => (length s3 < length s)%nat
            | None => True
            end
        | None => True
        end
    | None => True
    end) as H.
  { intros s0 Hle.
    destruct (lex_int s0) as [[i s1]|] eqn:E1; [|done].
    destruct (lex_frac s1) as [[f s2]|] eqn:E2; [|done].
    destruct (lex_exp s2) as [[e s3]|] eqn:E3; [|done].
    pose proof (lex_int_length _ _ _ E1). pose proof (lex_frac_length _ _ _ E2).
    pose proof (lex_exp_length _ _ _ E3). lia. }
  destruct s as [|c s']; simpl.
  - done.
  - destruct (c =? 45).
    + specialize (H s' ltac:(simpl; lia)).
      destruct (lex_int s') as [[i s1]|]; [|done].
      destruct (lex_frac s1) as [[f s2]|]; [|done].
      destruct (lex_exp s2) as [[e s3]|]; [|done].
      intros; simplify_eq/=. done.
    + specialize (H (c :: s') ltac:(simpl; lia)).
      destruct (lex_int (c :: s')) as [[i s1]|]; [|done].
      destruct (lex_frac s1) as [[f s2]|]; [|done].
      destruct (lex_exp s2) as [[e s3]|]; [|done].
      intros; simplify_eq/=. done.
Qed.

Lemma lex_number_fuel s : lex_number s <> OutOfFuel.
Proof.
  unfold lex_number.
  destruct (match s with
            | [] => ([], s)
            | c :: s' => if c =? 45 then ([c], s') else ([], s)
            end) as [minus s0].
  destruct (lex_int s0) as [[i s1]|]; [|done].
  destruct (lex_frac s1) as [[f s2]|]; [|done].
  by destruct (lex_exp s2) as [[e s3]|].
Qed.

Lemma strip_prefix_length p s r :
  strip_prefix p s = Some r -> (length r + length p = length s)%nat.
Proof.
  revert s. induction p as [|a p IH]; intros [|b s] H; simplify_eq/=; try lia.
  destruct (a =? b); [|done]. pose proof (IH _ H). lia.
Qed.

Lemma parse_keyword_length kw v s w r :
  kw <> EmptyString ->
  parse_keyword kw v s = Parsed w r -> (length r < length s)%nat.
Proof.
  unfold parse_keyword. intros Hkw.
  destruct (strip_prefix (lit kw) s) as [rest|] eqn:E; [|done].
  intros; simplify_eq. pose proof (strip_prefix_length _ _ _ E).
  destruct kw; [done|]. unfold lit in *. simpl in *. lia.
Qed.

Lemma parse_keyword_fuel kw v s : parse_keyword kw v s <> OutOfFuel.
Proof. unfold parse_keyword. by destruct (strip_prefix (lit kw) s). Qed.

Lemma consumes_error {A} n : consumes n (@SyntaxError A).
Proof. by split. Qed.

Lemma consumes_parsed {A} n (v : A) r :
  (length r < n)%nat -> consumes n (Parsed v r).
Proof. intros H. split; [done|]. by intros ?? [= _ <-]. Qed.

Lemma consumes_map {A B} (f : A -> B) n p :
  consumes n p -> consumes n (parsed_map f p).
Proof.
  intros [H1 H2]. destruct p as [a r| |]; simpl; [|by split|done].
  apply consumes_parsed. by eapply H2.
Qed.

Lemma consumes_mono {A} n m (p : parsed A) :
  consumes n p -> (n <= m)%nat -> consumes m p.
Proof.
  intros [H1 H2] Hle. split; [done|]. intros v r E.
  pose proof (H2 v r E). lia.
Qed.

Lemma skip_ws_cons s c s1 :
  skip_ws s = c :: s1 -> (length s1 < length s)%nat.
Proof. intros E. pose proof (skip_ws_length s) as H. rewrite E in H. simpl in H. lia. Qed.

(** The fuel [fuel_for] provides is enough for every function of the
    parser. *)
Lemma parse_fuel fuel :
  (forall s, (2 * length s + 1 <= fuel)%nat ->
             consumes (length s) (parse_value fuel s)) /\
  (forall s, (2 * length s + 2 <= fuel)%nat ->
             consumes (length s) (parse_elements fuel s)) /\
  (forall s, (2 * length s + 2 <= fuel)%nat ->
             consumes (length s) (parse_members fuel s)).
Proof.
  induction fuel as [|fuel (IHv & IHe & IHm)]; [repeat split; intros; lia|].
  split; [|split]; intros s Hfuel.
  - simpl.
    destruct (skip_ws s) as [|c s1] eqn:Es; [apply consumes_error|].
    pose proof (skip_ws_cons _ _ _ Es) as Hs1.
    pose proof (skip_ws_length s) as Hs. rewrite Es in Hs. simpl in Hs.
    destruct (c =? 123).
    { destruct (skip_ws s1) as [|d s2] eqn:Es1; [apply consumes_error|].
      pose proof (skip_ws_cons _ _ _ Es1).
      destruct (d =? 125); [apply consumes_parsed; lia|].
      apply consumes_map. eapply consumes_mono; [apply IHm; lia|lia]. }
    destruct (c =? 91).
    { destruct (skip_ws s1) as [|d s2] eqn:Es1; [apply consumes_error|].
      pose proof (skip_ws_cons _ _ _ Es1).
      destruct (d =? 93); [apply consumes_parsed; lia|].
      apply consumes_map. eapply consumes_mono; [apply IHe; lia|lia]. }
    destruct (c =? 34).
    { apply consumes_map. split; [apply parse_chars_fuel|].
      intros v r E. pose proof (parse_chars_length _ _ _ E). lia. }
    assert (forall kw v, kw <> EmptyString ->
              consumes (length s) (parse_keyword kw v (c :: s1))) as Hkw.
    { intros kw v Hne. split; [apply parse_keyword_fuel|].
      intros w r E. pose proof (parse_keyword_length _ _ _ _ _ Hne E).
      simpl in *. lia. }
    destruct (c =? 116); [by apply Hkw|].
    destruct (c =? 102); [by apply Hkw|].
    destruct (c =? 110); [by apply Hkw|].
    apply consumes_map. split; [apply lex_number_fuel|].
    intros v r E. pose proof (lex_number_length _ _ _ E). simpl in *. lia.
  - simpl.
    destruct (IHv s ltac:(lia)) as [Hne Hlen].
    destruct (parse_value fuel s) as [v r| |] eqn:Ev; [|apply consumes_error|done].
    pose proof (Hlen v r eq_refl).
    destruct (skip_ws r) as [|c r1] eqn:Er; [apply consumes_error|].
    pose proof (skip_ws_cons _ _ _ Er).
    destruct (c =? 44).
    { apply consumes_map. eapply consumes_mono; [apply IHe; lia|lia]. }
    destruct (c =? 93); [apply consumes_parsed; lia|apply consumes_error].
  - simpl.
    destruct (skip_ws s) as [|q s1] eqn:Es; [apply consumes_error|].
    pose proof (skip_ws_cons _ _ _ Es).
    destruct (q =? 34); [|apply consumes_error].
    pose proof (parse_chars_fuel s1).
    destruct (parse_chars s1) as [key s2| |] eqn:Ek; [|apply consumes_error|done].
    pose proof (parse_chars_length _ _ _ Ek).
    destruct (skip_ws s2) as [|colon s3] eqn:Es2; [apply consumes_error|].
    pose proof (skip_ws_cons _ _ _ Es2).
    destruct (colon =? 58); [|apply consumes_error].
    destruct (IHv s3 ltac:(lia)) as [Hne Hlen].
    destruct (parse_value fuel s3) as [v r| |] eqn:Ev; [|apply consumes_error|done].
    pose proof (Hlen v r eq_refl).
    destruct (skip_ws r) as [|c r1] eqn:Er; [apply consumes_error|].
    pose proof (skip_ws_cons _ _ _ Er).
    destruct (c =? 44).
    { apply consumes_map. eapply consumes_mono; [apply IHm; lia|lia]. }
    destruct (c =? 125); [apply consumes_parsed; lia|apply consumes_error].
Qed.

End JsonFacts.

(** [JSON.parse] never returns [undefined]. *)
Lemma JSON_parse_defined text v : JSON_parse text = Some v -> v <> JUndefined.
Proof.
  unfold JSON_parse, Json.parse_text.
  assert (forall fuel s w r,
            Json.parse_value fuel s = Parsed w r -> w <> JUndefined) as Hv.
  { assert (forall A (f : A -> jsval) p w r,
              (forall a, f a <> JUndefined) ->
              parsed_map f p = Parsed w r -> w <> JUndefined) as Hmap.
    { intros A f [a r'| |] w r Hf; simpl; [|done|done]. intros [= <- _]. apply Hf. }
    assert (forall kw v0 s w r,
              v0 <> JUndefined ->
              Json.parse_keyword kw v0 s = Parsed w r -> w <> JUndefined) as Hkw.
    { intros kw v0 s w r Hv0. unfold Json.parse_keyword.
      destruct (Json.strip_prefix (lit kw) s); [|done]. by intros [= <- _]. }
    intros [|fuel] s w r; simpl; [done|].
    destruct (Json.skip_ws s) as [|c s1]; [done|].
    destruct (c =? 123).
    { destruct (Json.skip_ws s1) as [|d s2]; [done|].
      destruct (d =? 125); [by intros [= <- _]|]. by apply Hmap. }
    destruct (c =? 91).
    { destruct (Json.skip_ws s1) as [|d s2]; [done|].
      destruct (d =? 93); [by intros [= <- _]|]. by apply Hmap. }
    destruct (c =? 34); [by apply Hmap|].
    destruct (c =? 116); [by apply Hkw|].
    destruct (c =? 102); [by apply Hkw|].
    destruct (c =? 110); [by apply Hkw|].
    by apply Hmap. }
  destruct (Json.parse_value _ text) as [w rest| |] eqn:E; [|done|done].
  destruct (Json.skip_ws rest); [|done].
  intros [= <-]. by eapply Hv.
Qed.

(** [JSON_parse] never stops for lack of fuel: its [None] is a syntax
    error of the text. *)
Lemma JSON_parse_fuel text :
  Json.parse_text (Json.fuel_for text) text <> OutOfFuel.
Proof.
  unfold Json.parse_text, Json.fuel_for.
  destruct (JsonFacts.parse_fuel (2 * length text + 2)) as [Hv _].
  destruct (Hv text ltac:(lia)) as [Hne _].
  destruct (Json.parse_value _ text) as [v rest| |]; [|done|done].
  by destruct (Json.skip_ws rest).
Qed.

Module QuoteFacts.
Import Json Stringify.

Ltac bool_cases :=
  repeat match goal with
         | |- context [if ?b then _ else _] => destruct b eqn:?
         end;
  rewrite ?andb_true_iff, ?andb_false_iff, ?orb_true_iff, ?orb_false_iff,
    ?N.leb_le, ?N.leb_gt, ?N.ltb_lt, ?N.ltb_ge, ?N.eqb_eq, ?N.eqb_neq in *.

Lemma hex_value_hex_char d : d < 16 -> hex_value (hex_char d) = Some d.
Proof.
  intros Hd. unfold hex_value, hex_char, is_digit.
  destruct (N.ltb_spec d 10); bool_cases; try (f_equal; lia); lia.
Qed.

Lemma hex_digits c :
  c < 65536 ->
  4096 * (c / 4096 mod 16) + 256 * (c / 256 mod 16) + 16 * (c / 16 mod 16)
    + c mod 16 = c.
Proof.
  intros Hc.
  pose proof (N.div_mod c 16 ltac:(lia)).
  pose proof (N.div_mod (c / 16) 16 ltac:(lia)).
  pose proof (N.div_mod (c / 256) 16 ltac:(lia)).
  pose proof (N.mod_lt c 16 ltac:(lia)).
  pose proof (N.mod_lt (c / 16) 16 ltac:(lia)).
  pose proof (N.mod_lt (c / 256) 16 ltac:(lia)).
  assert (c / 256 = c / 16 / 16) as E1 by (rewrite N.Div0.div_div; done).
  assert (c / 4096 = c / 256 / 16) as E2 by (rewrite N.Div0.div_div; done).
  assert (c / 4096 < 16) by (apply N.Div0.div_lt_upper_bound; lia).
  rewrite (N.mod_small (c / 4096) 16) by done.
  rewrite E2, E1 in *. lia.
Qed.

Lemma parse_unicode_escape c rest :
  c < 65536 ->
  parse_chars (unicode_escape c ++ rest) = parsed_map (cons c) (parse_chars rest).
Proof.
  intros Hc. unfold unicode_escape. simpl. unfold hex4.
  rewrite !hex_value_hex_char by (apply N.mod_lt; lia).
  by rewrite hex_digits.
Qed.

Lemma parse_raw c rest :
  c <> 34 -> c <> 92 -> 32 <= c ->
  parse_chars (c :: rest) = parsed_map (cons c) (parse_chars rest).
Proof.
  intros H1 H2 H3. simpl.
  rewrite (proj2 (N.eqb_neq c 34) H1), (proj2 (N.eqb_neq c 92) H2).
  by rewrite (proj2 (N.ltb_ge c 32) H3).
Qed.

Lemma parse_escape_unit c rest :
  is_high_surrogate c = false ->
  parse_chars (escape_unit c ++ rest) = parsed_map (cons c) (parse_chars rest).
Proof.
  intros Hh. unfold escape_unit.
  destruct (N.eqb_spec c 8) as [->|?]; [done|].
  destruct (N.eqb_spec c 9) as [->|?]; [done|].
  destruct (N.eqb_spec c 10) as [->|?]; [done|].
  destruct (N.eqb_spec c 12) as [->|?]; [done|].
  destruct (N.eqb_spec c 13) as [->|?]; [done|].
  destruct (N.eqb_spec c 34) as [->|?]; [done|].
  destruct (N.eqb_spec c 92) as [->|?]; [done|].
  rewrite Hh. simpl.
  destruct (N.ltb_spec c 32) as [Hlt|Hge]; simpl.
  - apply parse_unicode_escape. lia.
  - destruct (is_low_surrogate c) eqn:Hl.
    + apply parse_unicode_escape. unfold is_low_surrogate in Hl.
      apply andb_true_iff in Hl as [_ Hl%N.leb_le]. lia.
    + by apply parse_raw.
Qed.

Lemma parsed_map_cons c (p : parsed jsstring) s rest :
  p = Parsed s rest -> parsed_map (cons c) p = Parsed (c :: s) rest.
Proof. by intros ->. Qed.

Lemma quote_units_cons c s1 :
  quote_units (c :: s1) =
  if is_high_surrogate c then
    match s1 with
    | d :: s2 =>
        if is_low_surrogate d then c :: d :: quote_units s2
        else unicode_escape c ++ quote_units s1
    | [] => unicode_escape c
    end
  else escape_unit c ++ quote_units s1.
Proof. done. Qed.

(** Reading back a quoted string gives the string, whatever follows the
    closing quote. *)
Lemma parse_quote_units s rest :
  parse_chars (quote_units s ++ 34 :: rest) = Parsed s rest.
Proof.
  remember (length s) as n eqn:Hn. revert s Hn.
  induction n as [n IH] using lt_wf_ind. intros s ->.
  destruct s as [|c s1]; [done|].
  rewrite quote_units_cons.
  destruct (is_high_surrogate c) eqn:Hh.
  - assert (c < 65536 /\ c <> 34 /\ c <> 92 /\ 32 <= c) as (?&?&?&?).
    { unfold is_high_surrogate in Hh.
      apply andb_true_iff in Hh as [?%N.leb_le ?%N.leb_le]. lia. }
    destruct s1 as [|d s2].
    + by rewrite parse_unicode_escape.
    + destruct (is_low_surrogate d) eqn:Hl.
      * assert (d <> 34 /\ d <> 92 /\ 32 <= d) as (?&?&?).
        { unfold is_low_surrogate in Hl.
          apply andb_true_iff in Hl as [?%N.leb_le ?%N.leb_le]. lia. }
        rewrite <- !app_comm_cons.
        rewrite parse_raw by done. apply parsed_map_cons.
        rewrite parse_raw by done. apply parsed_map_cons.
        apply (IH (length s2)); [simpl; lia | done].
      * rewrite <- app_assoc, parse_unicode_escape by done.
        apply parsed_map_cons. apply (IH (length (d :: s2))); [simpl; lia | done].
  - rewrite <- app_assoc, parse_escape_unit by done.
    apply parsed_map_cons. apply (IH (length s1)); [simpl; lia | done].
Qed.
End QuoteFacts.

(** The text sent for an input event decodes to an object whose [data]
    is the event's string, code unit for code unit. *)
Lemma JSON_parse_input data :
  JSON_parse (Stringify.input data) =
  Some (JObj [(lit "type", JStr (lit "input")); (lit "data", JStr data)]).
Proof.
  unfold JSON_parse, Json.parse_text.
  assert (exists n, Json.fuel_for (Stringify.input data) = S (S (S (S n)))) as [n ->].
  { unfold Json.fuel_for. exists (2 * length (Stringify.input data) - 2)%nat.
    assert (1 <= length (Stringify.input data))%nat by (simpl; lia). lia. }
  unfold Stringify.input, Stringify.key, Stringify.quote.
  replace ((34 :: Stringify.quote_units data ++ [34]) ++ [125])
    with (34 :: Stringify.quote_units data ++ 34 :: [125])
    by (simpl; by rewrite <- app_assoc).
  simpl.
  rewrite QuoteFacts.parse_quote_units. reflexivity.
Qed.

(** ** Numbers in frames *)

Module NumberFacts.
Import Json Stringify.

Lemma is_digit_spec d : is_digit d = true <-> 48 <= d <= 57.
Proof. unfold is_digit. rewrite andb_true_iff, !N.leb_le. done. Qed.

Lemma decimal_value_snoc ds d :
  decimal_value (ds ++ [d]) = 10 * decimal_value ds + (d - 48).
Proof. unfold decimal_value. by rewrite fold_left_app. Qed.

Lemma decimal_digits_spec fuel n acc :
  n < 2 ^ N.of_nat (S fuel) ->
  exists ds,
    decimal_digits (S fuel) n acc = ds ++ acc /\
    int_lexeme ds /\ decimal_value ds = n.
Proof.
  revert n acc. induction fuel as [|fuel IH]; intros n acc Hn.
  - assert (n < 2) as Hn' by (simpl in Hn; lia).
    assert (n / 10 = 0) as Hq by (apply N.div_small; lia).
    assert (n mod 10 = n) as Hm by (apply N.mod_small; lia).
    exists [digit_char n]. simpl. rewrite Hq, Hm. simpl.
    split; [done|]. split.
    + split; [|done]. constructor; [|done].
      apply is_digit_spec. unfold digit_char. lia.
    + unfold decimal_value, digit_char. simpl. lia.
  - pose proof (N.div_mod n 10 ltac:(lia)) as Hdm.
    pose proof (N.mod_lt n 10 ltac:(lia)) as Hlt.
    change (decimal_digits (S (S fuel)) n acc) with
      (if n / 10 =? 0 then digit_char (n mod 10) :: acc
       else decimal_digits (S fuel) (n / 10) (digit_char (n mod 10) :: acc)).
    destruct (N.eqb_spec (n / 10) 0) as [Hq|Hq].
    + exists [digit_char (n mod 10)]. split; [done|]. split.
      * split; [|done]. constructor; [|done].
        apply is_digit_spec. unfold digit_char. clear -Hlt.
        generalize dependent (n mod 10). intros; lia.
      * unfold decimal_value, digit_char. simpl. rewrite Hq in Hdm. clear -Hdm.
        generalize dependent (n mod 10). intros; lia.
    + assert (n / 10 < 2 ^ N.of_nat (S fuel)) as Hq'.
      { apply N.Div0.div_lt_upper_bound.
        assert (2 ^ N.of_nat (S (S fuel)) = 2 * 2 ^ N.of_nat (S fuel)) as E.
        { rewrite <- N.pow_succ_r'. f_equal; lia. }
        rewrite E in Hn. lia. }
      destruct (IH (n / 10) (digit_char (n mod 10) :: acc) Hq')
        as (ds & E & [Hall Hhd] & Hv).
      exists (ds ++ [digit_char (n mod 10)]). split; [|split].
      * rewrite E. by rewrite <- app_assoc.
      * split.
        -- apply Forall_app. split; [done|]. constructor; [|done].
           apply is_digit_spec. unfold digit_char. clear -Hlt.
           generalize dependent (n mod 10). intros; lia.
        -- destruct ds as [|d rest]; [done|]. simpl. intros ->.
           rewrite (Hhd eq_refl) in Hv. change (decimal_value [48]) with 0 in Hv.
           congruence.
      * rewrite decimal_value_snoc, Hv. unfold digit_char. clear -Hdm.
        generalize dependent (n mod 10). generalize dependent (n / 10). intros; lia.
Qed.

Lemma Number_toString_spec n :
  int_lexeme (Number_toString n) /\ decimal_value (Number_toString n) = n.
Proof.
  unfold Number_toString.
  destruct (decimal_digits_spec (N.to_nat (N.log2 n)) n []) as (ds & E & H).
  - replace (N.of_nat (S (N.to_nat (N.log2 n)))) with (N.succ (N.log2 n)) by lia.
    destruct (N.eq_dec n 0) as [->|Hn]; [done|].
    apply N.log2_spec. lia.
  - rewrite E, app_nil_r. exact H.
Qed.

Lemma take_digits_app ds c rest :
  Forall (fun d => is_digit d = true) ds -> is_digit c = false ->
  take_digits (ds ++ c :: rest) = (ds, c :: rest).
Proof.
  intros Hall Hc. induction Hall as [|d ds Hd _ IH]; simpl.
  - by rewrite Hc.
  - by rewrite Hd, IH.
Qed.

Lemma lex_number_int ds c rest :
  int_lexeme ds -> ends_number c ->
  lex_number (ds ++ c :: rest) = Parsed ds (c :: rest).
Proof.
  intros [Hall Hhd] (Hc & Hdot & He1 & He2).
  destruct ds as [|d ds]; [done|].
  inversion Hall as [|? ? Hd Hall']; subst. clear Hall. rename Hall' into Hall.
  pose proof (proj1 (is_digit_spec d) Hd) as Hrange.
  unfold lex_number. simpl.
  rewrite (proj2 (N.eqb_neq d 45)) by lia.
  assert (lex_int (d :: ds ++ c :: rest) = Some (d :: ds, c :: rest)) as ->.
  { unfold lex_int. destruct (N.eqb_spec d 48) as [->|Hne].
    - by rewrite (Hhd eq_refl).
    - rewrite Hd. by rewrite take_digits_app. }
  simpl. rewrite (proj2 (N.eqb_neq c 46)) by done.
  simpl. rewrite (proj2 (N.eqb_neq c 101)), (proj2 (N.eqb_neq c 69)) by done.
  simpl. by rewrite !app_nil_r.
Qed.

Lemma parse_value_int fuel ds c rest :
  (0 < fuel)%nat -> int_lexeme ds -> ends_number c ->
  parse_value fuel (ds ++ c :: rest) = Parsed (JNum ds) (c :: rest).
Proof.
  intros Hfuel Hds Hc. destruct fuel as [|fuel]; [lia|]. pose proof (lex_number_int ds c rest Hds Hc) as Hlex.
  destruct Hds as [Hall Hhd]. destruct ds as [|d ds]; [done|].
  inversion Hall as [|? ? Hd%is_digit_spec _]; subst.
  simpl. unfold is_ws.
  rewrite (proj2 (N.eqb_neq d 32)), (proj2 (N.eqb_neq d 9)),
    (proj2 (N.eqb_neq d 10)), (proj2 (N.eqb_neq d 13)) by lia.
  simpl.
  rewrite (proj2 (N.eqb_neq d 123)), (proj2 (N.eqb_neq d 91)),
    (proj2 (N.eqb_neq d 34)), (proj2 (N.eqb_neq d 116)),
    (proj2 (N.eqb_neq d 102)), (proj2 (N.eqb_neq d 110)) by lia.
  simpl in Hlex. by rewrite Hlex.
Qed.


Lemma comma_ends_number : ends_number 44.
Proof. by repeat split. Qed.

Lemma brace_ends_number : ends_number 125.
Proof. by repeat split. Qed.

(** A text of the shape of a resize frame decodes to its three members,
    the numbers being kept as they are written. *)
Lemma parse_resize_text dc dr :
  int_lexeme dc -> int_lexeme dr ->
  JSON_parse ([123] ++ key "type" ++ quote (lit "resize") ++ [44]
                    ++ key "cols" ++ dc ++ [44]
                    ++ key "rows" ++ dr ++ [125]) =
  Some (JObj [(lit "type", JStr (lit "resize"));
              (lit "cols", JNum dc); (lit "rows", JNum dr)]).
Proof.
  intros Hc Hr. unfold JSON_parse, parse_text.
  match goal with
  | |- context [fuel_for ?t] =>
      assert (exists m, fuel_for t = S (S (S (S m))) /\ (0 < m)%nat) as (m & -> & Hm)
  end.
  { unfold fuel_for.
    match goal with |- context [length ?t] => set (n := length t) end.
    assert (2 <= n)%nat by (subst n; rewrite !length_app; simpl; lia).
    exists (2 * n - 2)%nat. lia. }
  remember (S m) as m3 eqn:Hm3.
  unfold key, quote. simpl.
  rewrite parse_value_int by (try done; try lia; apply comma_ends_number).
  simpl. subst m3. simpl.
  rewrite parse_value_int by (try done; apply brace_ends_number).
  reflexivity.
Qed.

End NumberFacts.

(** A resize frame decodes to an object whose [cols] and [rows] are the
    numbers it was built from. *)
Lemma JSON_parse_resize c r :
  JSON_parse (Stringify.resize c r) = Some (resize_message c r).
Proof.
  apply NumberFacts.parse_resize_text; apply NumberFacts.Number_toString_spec.
Qed.

(** ** The codec on examples *)

Example stringify_input :
  Stringify.input (lit "ls") = json_text "{'type':'input','data':'ls'}".
Proof. reflexivity. Qed.

(** Ctrl-C, a line feed, a quotation mark and a lone surrogate. *)
Example stringify_input_escapes :
  Stringify.input [3; 10; 34; 55296] =
  (json_text "{'type':'input','data':'\u0003\n\" ++ [34]
   ++ json_text "\ud800'}").
Proof. reflexivity. Qed.

Example number_toString :
  map Number_toString [0; 7; 80; 1000; 65535] =
  [lit "0"; lit "7"; lit "80"; lit "1000"; lit "65535"].
Proof. reflexivity. Qed.

Example stringify_resize :
  Stringify.resize 80 24 = json_text "{'type':'resize','cols':80,'rows':24}".
Proof. reflexivity. Qed.

Example parse_output_frame :
  JSON_parse output_frame =
  Some (JObj [(lit "type", JStr (lit "output"));
              (lit "data", JStr (27 :: lit "[31mhi" ++ [13; 10]))]).
Proof. reflexivity. Qed.

Example parse_nested :
  JSON_parse (json_text " [1, -2.5e3, true, null, {'a': []}] ") =
  Some (JArr [JNum (lit "1"); JNum (lit "-2.5e3"); JBool true; JNull;
              JObj [(lit "a", JArr [])]]).
Proof. reflexivity. Qed.

Example parse_rejects :
  map JSON_parse
    [lit "not json"; lit ""; lit "01"; lit "[1,]"; json_text "{'a':1,}";
     [34] ++ lit "tab" ++ [9] ++ lit "inside" ++ [34];
     lit "nul"; lit "1."; json_text "{'a' 1}"] =
  [None; None; None; None; None; None; None; None; None].
Proof. reflexivity. Qed.

Example last_key_wins :
  (fun v => get_property v (lit "type")) <$>
    JSON_parse (json_text "{'type':'input','type':'output'}") =
  Some (Some (JStr (lit "output"))).
Proof. reflexivity. Qed.

Example type_of_values :
  map (fun v => get_property v (lit "type"))
    [JNull; JNum (lit "5"); JStr (lit "output"); JArr []; JObj []] =
  [None; Some JUndefined; Some JUndefined; Some JUndefined; Some JUndefined].
Proof. reflexivity. Qed.

(** ** Lists of timers and sockets *)

Lemma reconnects_app l1 l2 :
  reconnects (l1 ++ l2) = (reconnects l1 + reconnects l2)%nat.
Proof. induction l1 as [|t l1 IH]; simpl; [done | rewrite IH; lia]. Qed.

Lemma reconnects_delete l k t :
  l !! k = Some t ->
  reconnects l = ((if is_reconnect t then 1 else 0) + reconnects (delete k l))%nat.
Proof.
  revert k. induction l as [|x l IH]; intros [|k] H; simplify_eq/=; try done.
  rewrite (IH k H). lia.
Qed.

Lemma existsb_reconnects l :
  existsb is_reconnect l = negb (Nat.eqb (reconnects l) 0).
Proof.
  induction l as [|t l IH]; simpl; [done|].
  destruct (is_reconnect t); simpl; [done | exact IH].
Qed.

Lemma newest_snoc olds (ws : WebSocketObj) :
  newest (olds ++ [ws]) = Some (length olds).
Proof.
  destruct olds as [|o olds]; simpl; [done|].
  rewrite length_app. simpl. f_equal. lia.
Qed.

Lemma lookup_snoc_last olds (ws : WebSocketObj) :
  (olds ++ [ws]) !! length olds = Some ws.
Proof. by apply list_lookup_middle. Qed.

Lemma insert_snoc_last olds (ws ws' : WebSocketObj) :
  <[length olds := ws']> (olds ++ [ws]) = olds ++ [ws'].
Proof.
  replace (length olds) with (length olds + 0)%nat by lia.
  by rewrite insert_app_r.
Qed.

(** A socket that is not closed is the one created last, and nothing else
    is pending. *)
Lemma chain_live f socks tms s i ws :
  chain f socks tms s ->
  socks !! i = Some ws -> readyState ws <> CLOSED ->
  exists olds,
    socks = olds ++ [ws] /\ i = length olds /\ all_closed olds /\
    f = 0%nat /\ reconnects tms = 0%nat /\
    ((ws = fresh_socket /\ s = Connecting) \/ (readyState ws = OPEN /\ s = Connected)).
Proof.
  intros Hc Hi Hlive.
  assert (Hcl : all_closed socks -> False).
  { intros Hall. apply Hlive. exact (Forall_lookup_1 _ _ _ _ Hall Hi). }
  assert (Hlast : forall olds w, socks = olds ++ [w] -> all_closed olds ->
            w = ws /\ i = length olds).
  { intros olds w -> Hall.
    destruct (decide (i < length olds)%nat) as [Hlt|Hge].
    - rewrite lookup_app_l in Hi by done.
      destruct Hlive. exact (Forall_lookup_1 _ _ _ _ Hall Hi).
    - apply lookup_lt_Some in Hi as Hlen. rewrite length_app in Hlen. simpl in Hlen.
      assert (i = length olds) as -> by lia.
      rewrite lookup_snoc_last in Hi. by simplify_eq. }
  destruct Hc as [? Hall ?|? Hall ?|olds ? Hs Hall ?|olds w ? Hs Hw Hall ?|? Hall ?];
    try (destruct (Hcl Hall)).
  - pose proof (Hlast _ _ Hs Hall) as [<- Hi']. clear Hlast Hcl.
    exists olds. repeat split; auto.
  - pose proof (Hlast _ _ Hs Hall) as [<- Hi']. clear Hlast Hcl.
    exists olds. repeat split; auto.
Qed.

Lemma chain_reconnects_le f socks tms s :
  chain f socks tms s -> (reconnects tms <= 1)%nat.
Proof. destruct 1; lia. Qed.

Lemma chain_fetches_le f socks tms s :
  chain f socks tms s -> (f <= 1)%nat.
Proof. destruct 1; lia. Qed.

(** Adding or removing a timer that is no reconnect timer changes nothing. *)
Lemma chain_timer_added f socks tms s t :
  callback t <> Reconnect ->
  chain f socks tms s -> chain f socks (tms ++ [t]) s.
Proof.
  intros Ht Hc.
  assert (reconnects (tms ++ [t]) = reconnects tms) as E.
  { rewrite reconnects_app. simpl. unfold is_reconnect.
    destruct (callback t); try done; lia. }
  destruct Hc; econstructor; rewrite ?E; eauto.
Qed.

Lemma chain_timer_removed f socks tms s k t :
  tms !! k = Some t -> callback t <> Reconnect ->
  chain f socks tms s -> chain f socks (delete k tms) s.
Proof.
  intros Hk Ht Hc.
  assert (reconnects (delete k tms) = reconnects tms) as E.
  { rewrite (reconnects_delete tms k t Hk). unfold is_reconnect.
    destruct (callback t); try done; lia. }
  destruct Hc; econstructor; rewrite ?E; eauto.
Qed.

(** A frame sent on, or delivered by, the open socket changes nothing. *)
Lemma chain_socket_updated f socks tms s i ws ws' :
  socks !! i = Some ws -> readyState ws = OPEN -> readyState ws' = OPEN ->
  chain f socks tms s -> chain f (<[i := ws']> socks) tms s.
Proof.
  intros Hi Hopen Hopen' Hc.
  destruct (chain_live _ _ _ _ _ _ Hc Hi) as (olds & -> & -> & Hall & -> & Hr & Hs);
    [congruence|].
  rewrite insert_snoc_last.
  destruct Hs as [[-> _]|[_ ->]]; [done|].
  by eapply chain_connected.
Qed.

(** The links of the chain, one after the other. *)
Lemma chain_health_response n socks tms s :
  chain (S n) socks tms s ->
  n = 0%nat /\ chain 0 socks tms Disconnected /\
  chain 0 (socks ++ [fresh_socket]) tms Connecting.
Proof.
  inversion 1; simplify_eq. split; [done|]. split.
  - by apply chain_disconnected.
  - by eapply chain_connecting.
Qed.

Lemma chain_opens f socks tms s i ws ws' :
  chain f socks tms s ->
  socks !! i = Some ws -> readyState ws = CONNECTING -> readyState ws' = OPEN ->
  ws = fresh_socket /\ newest socks = Some i /\
  chain f (<[i := ws']> socks) tms Connected.
Proof.
  intros Hc Hi Hws Hws'.
  destruct (chain_live _ _ _ _ _ _ Hc Hi) as (olds & -> & -> & Hall & -> & Hr & Hs);
    [congruence|].
  destruct Hs as [[-> _]|[? _]]; [|congruence].
  rewrite insert_snoc_last, newest_snoc. split; [done|]. split; [done|].
  by eapply chain_connected.
Qed.

Lemma chain_closes f socks tms s i ws ws' t :
  chain f socks tms s ->
  socks !! i = Some ws -> readyState ws <> CLOSED -> readyState ws' = CLOSED ->
  is_reconnect t = true ->
  newest socks = Some i /\
  chain f (<[i := ws']> socks) (tms ++ [t]) Reconnecting.
Proof.
  intros Hc Hi Hws Hws' Ht.
  destruct (chain_live _ _ _ _ _ _ Hc Hi) as (olds & -> & -> & Hall & -> & Hr & Hs);
    [done|].
  rewrite insert_snoc_last, newest_snoc. split; [done|].
  apply chain_reconnecting; [done| |].
  - apply Forall_app. split; [done|]. by constructor.
  - rewrite reconnects_app. simpl. rewrite Ht. lia.
Qed.

Lemma chain_timer_fires f socks tms s k t :
  chain f socks tms s -> tms !! k = Some t -> callback t = Reconnect ->
  chain f socks (delete k tms) Disconnected /\
  chain (S f) socks (delete k tms) Probing.
Proof.
  intros Hc Hk Ht. pose proof (reconnects_delete tms k t Hk) as E.
  unfold is_reconnect in E. rewrite Ht in E.
  destruct Hc; try lia.
  split; [apply chain_disconnected | apply chain_probing]; try done; lia.
Qed.

Lemma newest_insert socks i (ws : WebSocketObj) :
  newest (<[i := ws]> socks) = newest socks.
Proof.
  unfold newest. pose proof (length_insert socks i ws) as E.
  destruct socks, (<[i:=ws]> _); simpl in *; congruence.
Qed.

(** ** Every reachable state is well formed

    One lemma per event for the states whose sidebar exists, one for the
    state before the first command. *)

(** The texts stay folded while the callbacks are run symbolically. *)
#[local] Opaque lit esc crlf Number_toString
  not_running_lines cannot_connect_lines banner error_line.

Lemma writeln_all_eq lines st t :
  terminal st = Some t ->
  writeln_all lines st =
  Normal tt (set_terminal
    (Some {| cols := cols t; rows := rows t;
             calls := calls t ++ map TWriteln lines; onData := onData t |}) st).
Proof.
  revert st t. induction lines as [|l lines IH]; intros st t Ht; simpl.
  - unfold ret. rewrite app_nil_r. destruct st, t; simpl in *. by subst.
  - unfold bind, terminal_writeln, terminal_call. rewrite Ht.
    erewrite IH by reflexivity. simpl. rewrite <- app_assoc.
    by destruct st.
Qed.

(** Unfolds the callbacks and the library calls down to the state. *)
Ltac js_unfold :=
  unfold openTerminal, toggleTerminal, connectToBackend, connectWebSocket,
    fit_and_send_resize, fit_only, onData_handler, register_onData,
    health_then, health_catch, onopen, onmessage, onclose, onerror, reconnect,
    run_timer, parse_message, member, template,
    debugLog, console_error, showMsg, terminal_clear, terminal_write,
    terminal_writeln, terminal_call, terminal_size, fit, websocket_send,
    websocket_open,
    setTimeout, fetch_health, new_WebSocket, set_display, display_is_none,
    set_readyState, deliver,
    bind, ret, when, gets, modify, try_catch, throw, final in *.

Ltac destruct_scrutinee x :=
  lazymatch x with
  | context [match ?y with _ => _ end] => destruct_scrutinee y
  | _ => destruct x eqn:?
  end.

(** Runs the callback in hypothesis [H] as far as the state is known. *)
Ltac js_eval H :=
  repeat (progress (js_unfold; simpl in H;
                    try (erewrite writeln_all_eq in H by reflexivity))).

(** The same, with one case per path through the callback. *)
Ltac js_cases H :=
  js_eval H;
  repeat (match type of H with
          | context [match ?x with _ => _ end] => destruct_scrutinee x
          end; js_eval H);
  simplify_eq.

(** Opens a well-formed state [st] whose sidebar exists. *)
Ltac wf_created st Hstep :=
  intros [Hui Hweb [s Hc]] Hsb Hstep;
  destruct st as [term fa sb0 w socks tms f cont rl cons sh];
  simpl in Hui, Hweb, Hc, Hsb;
  subst sb0; destruct Hui as ((t & -> & Hod) & -> & ->); subst w;
  simpl in Hstep.

(** Splits [wf] into its three parts and closes the easy ones. *)
Ltac wf_split := split; simpl; rewrite ?newest_insert; eauto.

Lemma slash_command_wf st sb st' :
  wf st -> terminalSidebar st = Some sb -> step SlashCommand st = Some st' -> wf st'.
Proof.
  wf_created st Hstep.
  js_cases Hstep. wf_split. eexists. by apply chain_timer_added.
Qed.

Lemma toggle_command_wf st sb st' :
  wf st -> terminalSidebar st = Some sb -> step ToggleCommand st = Some st' -> wf st'.
Proof.
  wf_created st Hstep.
  js_cases Hstep; wf_split. eexists. by apply chain_timer_added.
Qed.

Lemma layout_wf st sb st' dims :
  wf st -> terminalSidebar st = Some sb -> step (Layout dims) st = Some st' -> wf st'.
Proof.
  wf_created st Hstep.
  simplify_eq. wf_split.
Qed.

Lemma window_resize_wf st sb st' dims :
  wf st -> terminalSidebar st = Some sb -> step (WindowResize dims) st = Some st' -> wf st'.
Proof.
  wf_created st Hstep.
  js_cases Hstep; wf_split; eauto using chain_socket_updated.
Qed.

Lemma terminal_data_wf st sb st' data :
  wf st -> terminalSidebar st = Some sb -> step (TerminalData data) st = Some st' -> wf st'.
Proof.
  wf_created st Hstep.
  js_cases Hstep; wf_split; eauto using chain_socket_updated.
Qed.

Lemma timer_fires_wf st sb st' k :
  wf st -> terminalSidebar st = Some sb -> step (TimerFires k) st = Some st' -> wf st'.
Proof.
  wf_created st Hstep.
  js_cases Hstep; wf_split;
        try (eexists; first
          [ eapply chain_socket_updated; [done..|]
          | idtac ];
          first [ eapply chain_timer_removed; [done|congruence|done]
                | eapply chain_timer_fires; done ]).
Qed.

Lemma health_response_wf st sb st' status :
  wf st -> terminalSidebar st = Some sb -> step (HealthResponse status) st = Some st' -> wf st'.
Proof.
  wf_created st Hstep.
  destruct f as [|n]; [done|].
      destruct (chain_health_response _ _ _ _ Hc) as (-> & Hd & Hn).
      js_cases Hstep; wf_split; rewrite ?newest_snoc, ?length_app; simpl; eauto.
Qed.

Lemma health_failure_wf st sb st' message :
  wf st -> terminalSidebar st = Some sb -> step (HealthFailure message) st = Some st' -> wf st'.
Proof.
  wf_created st Hstep.
  destruct f as [|n]; [done|].
      destruct (chain_health_response _ _ _ _ Hc) as (-> & Hd & Hn).
      js_cases Hstep; wf_split.
Qed.

Lemma socket_opens_wf st sb st' i :
  wf st -> terminalSidebar st = Some sb -> step (SocketOpens i) st = Some st' -> wf st'.
Proof.
  wf_created st Hstep.
  destruct (socks !! i) as [ws|] eqn:Hi; [|done].
      destruct (readyState ws) eqn:Hrs; try done.
      edestruct (chain_opens _ _ _ _ i ws
                   {| readyState := OPEN; sent := sent ws; received := received ws |}
                   Hc Hi Hrs) as (-> & Hnew & Hc'); [done|].
      rewrite Hnew in *.
      js_cases Hstep; wf_split;
        try (eexists; eapply chain_socket_updated; [eassumption|done|done|exact Hc']).
Qed.

Lemma socket_message_wf st sb st' i data :
  wf st -> terminalSidebar st = Some sb -> step (SocketMessage i data) st = Some st' -> wf st'.
Proof.
  wf_created st Hstep.
  destruct (socks !! i) as [ws|] eqn:Hi; [|done].
      destruct (readyState ws) eqn:Hrs; try done.
      assert (chain f (<[i := {| readyState := readyState ws; sent := sent ws;
                 received := received ws ++ [data] |}]> socks) tms s) as Hc'.
      { eapply chain_socket_updated; [done..|]. done. }
      js_cases Hstep; wf_split;
        try (eexists; eapply chain_socket_updated; [eassumption|done|done|exact Hc']).
Qed.

Lemma socket_closes_wf st sb st' i failed :
  wf st -> terminalSidebar st = Some sb -> step (SocketCloses i failed) st = Some st' -> wf st'.
Proof.
  wf_created st Hstep.
  destruct (socks !! i) as [ws|] eqn:Hi; [|done].
      pose (ws' := {| readyState := CLOSED; sent := sent ws; received := received ws |}).
      assert (readyState ws <> CLOSED ->
              newest socks = Some i /\
              chain f (<[i := ws']> socks) (tms ++ [reconnect_timer]) Reconnecting)
        as Hc'.
      { intros Hne. by eapply chain_closes. }
      destruct (readyState ws) eqn:Hrs; try done;
        (destruct Hc' as [Hnew Hc']; [done|]; rewrite Hnew in *;
         js_cases Hstep; wf_split).
Qed.

Lemma first_event_wf st ev st' :
  wf st -> terminalSidebar st = None -> step ev st = Some st' -> wf st'.
Proof.
  intros [Hui Hweb [s Hc]] Hsb Hstep.
  destruct st as [term fa sb0 w socks tms f cont rl cons sh]; simpl in Hui, Hweb, Hc, Hsb.
  subst sb0. destruct Hui as (-> & -> & -> & -> & -> & ->). simpl in Hweb. subst w.
  assert (chain 1 [] [{| callback := FitAndResize; delay := 100 |}] Probing).
  { apply chain_probing; [done | constructor | done]. }
  destruct ev as [| |dims|dims|data|k|status|msg|i|i data|i failed];
    unfold step in Hstep; try discriminate Hstep;
    apply (inj Some) in Hstep; subst st'.
  - eassert (final (openTerminal _) = _) as -> by (vm_compute; reflexivity).
    split; simpl; eauto.
  - eassert (final (toggleTerminal _) = _) as -> by (vm_compute; reflexivity).
    split; simpl; eauto.
  - split; simpl; eauto 10.
  - split; simpl; eauto 10.
Qed.

Lemma step_wf st ev st' : wf st -> step ev st = Some st' -> wf st'.
Proof.
  intros Hwf Hstep.
  destruct (terminalSidebar st) as [sb|] eqn:Hsb.
  - destruct ev.
    + by eapply slash_command_wf.
    + by eapply toggle_command_wf.
    + by eapply layout_wf.
    + by eapply window_resize_wf.
    + by eapply terminal_data_wf.
    + by eapply timer_fires_wf.
    + by eapply health_response_wf.
    + by eapply health_failure_wf.
    + by eapply socket_opens_wf.
    + by eapply socket_message_wf.
    + by eapply socket_closes_wf.
  - by eapply first_event_wf.
Qed.

Lemma initial_wf dims : wf (initial dims).
Proof.
  split; simpl.
  - repeat split.
  - reflexivity.
  - exists Disconnected.
    apply chain_disconnected; [reflexivity | constructor | reflexivity].
Qed.

Theorem reachable_wf st : reachable st -> wf st.
Proof.
  induction 1 as [dims|st ev st' _ IH Hstep].
  - apply initial_wf.
  - by eapply step_wf.
Qed.

(** ** What each callback does *)

Lemma run_cons ev evs st :
  run (ev :: evs) st =
  match step ev st with
  | Some st' => run evs st'
  | None => None
  end.
Proof. done. Qed.

Lemma run_reachable evs st st' :
  reachable st -> run evs st = Some st' -> reachable st'.
Proof.
  revert st. induction evs as [|ev evs IH]; intros st Hr H; simpl in H.
  - by simplify_eq.
  - destruct (step ev st) as [st1|] eqn:E; [|done].
    eapply IH; [|done]. by eapply reachable_step.
Qed.

Lemma websocket_open_spec st :
  websocket_open st = true <->
  exists i ws, websocket st = Some i /\ sockets st !! i = Some ws /\
               readyState ws = OPEN.
Proof.
  unfold websocket_open. split.
  - destruct (websocket st) as [i|]; [|done].
    destruct (sockets st !! i) as [ws|] eqn:Hws; [|done].
    intros H%bool_decide_eq_true. by exists i, ws.
  - intros (i & ws & -> & -> & H). by apply bool_decide_eq_true.
Qed.

Lemma waiting_not_connected st : waiting st <> Connected.
Proof.
  unfold waiting. destruct (fetches st); [|done].
  by destruct (existsb is_reconnect (timers st)).
Qed.

Lemma session_connected st : session st = Connected <-> websocket_open st = true.
Proof.
  pose proof (waiting_not_connected st) as Hw.
  unfold session, websocket_open.
  destruct (websocket st) as [i|]; [|done].
  destruct (sockets st !! i) as [ws|]; [|done].
  rewrite bool_decide_eq_true.
  by destruct (readyState ws).
Qed.

Lemma onData_handler_open st data :
  websocket_open st = true ->
  onData_handler data st = Normal tt (push_frames [Stringify.input data] st).
Proof.
  intros Ho. pose proof Ho as (i & ws & Hi & Hws & Hrs)%websocket_open_spec.
  unfold onData_handler, bind, gets, when, websocket_send, push_frames.
  rewrite Ho, Hi, Hws, Hrs. done.
Qed.

Lemma onData_handler_closed st data :
  websocket_open st = false -> onData_handler data st = Normal tt st.
Proof. intros Ho. unfold onData_handler, bind, gets, when. by rewrite Ho. Qed.

Lemma push_frames_open frames st :
  websocket_open st = true ->
  websocket_open (push_frames frames st) = true /\
  frames_sent (push_frames frames st) = frames_sent st ++ frames /\
  terminal (push_frames frames st) = terminal st.
Proof.
  intros (i & ws & Hi & Hws & Hrs)%websocket_open_spec.
  unfold push_frames, websocket_open, frames_sent. rewrite Hi, Hws. simpl.
  rewrite Hi. rewrite list_lookup_insert_eq by (by eapply lookup_lt_Some).
  simpl. rewrite Hrs. by rewrite bool_decide_eq_true.
Qed.

Lemma push_frames_app fs1 fs2 st :
  push_frames fs2 (push_frames fs1 st) = push_frames (fs1 ++ fs2) st.
Proof.
  unfold push_frames.
  destruct (websocket st) as [i|] eqn:Hi; [|by rewrite Hi].
  destruct (sockets st !! i) as [ws|] eqn:Hws; [|by rewrite Hi, Hws].
  simpl. rewrite Hi. rewrite list_lookup_insert_eq by (by eapply lookup_lt_Some).
  simpl. unfold set_sockets. simpl. rewrite list_insert_insert_eq.
  by rewrite <- app_assoc.
Qed.

Lemma push_frames_nil st : push_frames [] st = st.
Proof.
  unfold push_frames.
  destruct (websocket st) as [i|] eqn:Hi; [|done].
  destruct (sockets st !! i) as [ws|] eqn:Hws; [|done].
  rewrite app_nil_r. destruct ws. simpl. rewrite list_insert_id by done.
  by destruct st.
Qed.

Lemma step_terminal_data st data st' :
  step (TerminalData data) st = Some st' ->
  st' = if websocket_open st then push_frames [Stringify.input data] st else st.
Proof.
  unfold step. destruct (terminal st) as [t|]; [|done].
  destruct (onData t); [|done]. intros [= <-].
  destruct (websocket_open st) eqn:Ho.
  - by rewrite onData_handler_open.
  - by rewrite onData_handler_closed.
Qed.

(** ** Input events *)

(** C1. Input events raised while the websocket is OPEN are each sent as
    one input frame, in the order they arrive, and nothing else changes;
    the frame decodes to the event's string, unchanged. Input events
    raised otherwise leave the state as it was, so that whatever happens
    next happens as if they had never been raised. *)
Theorem input_forwarded_or_dropped st datas st' :
  run (map TerminalData datas) st = Some st' ->
  if websocket_open st then
    st' = push_frames (map Stringify.input datas) st /\
    frames_sent st' = frames_sent st ++ map Stringify.input datas /\
    Forall (fun data =>
              JSON_parse (Stringify.input data) = Some (input_message data)) datas
  else
    st' = st /\
    forall evs, run (map TerminalData datas ++ evs) st = run evs st.
Proof.
  revert st. induction datas as [|data datas IH]; intros st Hrun.
  - assert (st' = st) as -> by (simpl in Hrun; congruence).
    destruct (websocket_open st) eqn:Ho.
    + rewrite push_frames_nil, app_nil_r.
      split; [reflexivity|]. split; [reflexivity | constructor].
    + split; [done | intros evs; reflexivity].
  - rewrite map_cons, run_cons in Hrun.
    destruct (step (TerminalData data) st) as [st1|] eqn:Hstep; [|done].
    pose proof (step_terminal_data _ _ _ Hstep) as E.
    specialize (IH st1 Hrun).
    destruct (websocket_open st) eqn:Ho.
    + destruct (push_frames_open [Stringify.input data] st Ho) as (Ho1 & Hf1 & _).
      rewrite <- E in Ho1, Hf1. rewrite Ho1 in IH.
      destruct IH as (-> & Hf & Hdec). rewrite E at 1.
      rewrite push_frames_app. split; [done|]. split.
      * rewrite Hf, Hf1. by rewrite <- app_assoc.
      * constructor; [apply JSON_parse_input | done].
    + subst st1. rewrite Ho in IH. destruct IH as [-> Hlater].
      split; [done|]. intros evs.
      rewrite map_cons, <- app_comm_cons, run_cons, Hstep. apply Hlater.
Qed.

Lemma connected_example_run :
  run connect_events (initial grid) = Some connected_example.
Proof. vm_compute. reflexivity. Qed.

Lemma connected_example_reachable : reachable connected_example.
Proof.
  apply (run_reachable connect_events (initial grid)); [constructor|].
  exact connected_example_run.
Qed.

Lemma probing_example_reachable : reachable probing_example.
Proof.
  apply (run_reachable [SlashCommand] (initial grid)); [constructor|].
  vm_compute. reflexivity.
Qed.

Lemma reconnecting_example_reachable : reachable reconnecting_example.
Proof.
  apply (run_reachable [SocketCloses 0%nat false] connected_example);
    [exact connected_example_reachable|].
  vm_compute. reflexivity.
Qed.

Lemma input_forwarded_or_dropped_witness :
  run (map TerminalData [lit "ls"; [13]]) connected_example =
    Some (push_frames (map Stringify.input [lit "ls"; [13]]) connected_example) /\
  frames_sent (push_frames (map Stringify.input [lit "ls"; [13]]) connected_example) =
    frames_sent connected_example ++ map Stringify.input [lit "ls"; [13]].
Proof.
  assert (run (map TerminalData [lit "ls"; [13]]) connected_example =
          Some (push_frames (map Stringify.input [lit "ls"; [13]]) connected_example))
    as Hrun by (vm_compute; reflexivity).
  split; [exact Hrun|].
  exact (proj1 (proj2 (input_forwarded_or_dropped _ _ _ Hrun))).
Defined.

(** ** The health request *)

Lemma response_ok_range status :
  response_ok status = true <-> 200 <= status <= 299.
Proof.
  unfold response_ok. rewrite andb_true_iff, !N.leb_le. done.
Qed.

(** Opens a reachable state that has a health request in flight, a timer
    or a socket: its sidebar exists. *)
Ltac reach_created st Hr :=
  let Hui := fresh "Hui" in
  let Hweb := fresh "Hweb" in
  pose proof (reachable_wf _ Hr) as [Hui Hweb [s Hc]];
  destruct st as [term fa sb w socks tms f cont rl cons sh];
  simpl in Hui, Hweb, Hc;
  destruct sb as [sb|];
  [ destruct Hui as ((t & -> & Hod) & -> & ->); subst w
  | destruct Hui as (-> & -> & -> & -> & -> & ->) ].

(** C3. A health request that fails, by its status or in transport, opens
    no websocket and writes three lines to the terminal: in red that the
    backend server is not running (a response whose status is not in
    200-299) or that it cannot be connected to (no response), then the
    invitation to start the server and the command that starts it. It
    leaves neither a request nor a new timer behind; a websocket is
    created exactly when the response status is in the range 200-299. *)
Theorem health_failure_opens_no_stream st o st' :
  reachable st ->
  step (probe_event o) st = Some st' ->
  fetches st' = 0%nat /\ timers st' = timers st /\
  (if probe_success o
   then sockets st' = sockets st ++ [fresh_socket] /\ screen st' = screen st
   else sockets st' = sockets st /\
        screen st' = screen st ++
          [ TWriteln [Text (crlf ++ esc "[31m" ++
                            lit (match o with
                                 | Responded _ => "Backend server is not running."
                                 | Failed _ => "Cannot connect to backend server."
                                 end) ++ esc "[0m")];
            TWriteln [Text (esc "[33m" ++
                            lit "Please start the backend server with:" ++
                            esc "[0m")];
            TWriteln [Text (esc "[1;34m" ++
                            lit "cd /home/brandt/projects/cyberorganism && cargo run --bin server" ++
                            esc "[0m" ++ crlf)] ]) /\
  (length (sockets st') = S (length (sockets st)) <->
   exists status, o = Responded status /\ 200 <= status <= 299).
Proof.
  intros Hr Hstep. reach_created st Hr; [|by destruct o].
  destruct o as [status|msg];
    unfold probe_event, step in Hstep; simpl fetches in Hstep;
    (destruct f as [|n]; [done|]);
    destruct (chain_health_response _ _ _ _ Hc) as (-> & _ & _).
  - unfold probe_success. js_cases Hstep; simpl; repeat split; try done.
    + intros _. exists status. split; [done|]. by apply response_ok_range.
    + intros _. rewrite length_app. simpl. lia.
    + intros E. lia.
    + intros (status' & [= <-] & Hrange%response_ok_range). congruence.
  - js_cases Hstep. simpl. repeat split; try done.
    + intros E. lia.
    + by intros (status' & ? & _).
Qed.

Lemma health_failure_opens_no_stream_witness :
  reachable probing_example /\
  step (probe_event (Responded 503)) probing_example = Some probe_failed_example /\
  sockets probe_failed_example = sockets probing_example /\
  fetches probe_failed_example = 0%nat /\
  screen probe_failed_example =
  screen probing_example ++
    [ TWriteln [Text (crlf ++ esc "[31m" ++
                      lit "Backend server is not running." ++ esc "[0m")];
      TWriteln [Text (esc "[33m" ++
                      lit "Please start the backend server with:" ++ esc "[0m")];
      TWriteln [Text (esc "[1;34m" ++
                      lit "cd /home/brandt/projects/cyberorganism && cargo run --bin server" ++
                      esc "[0m" ++ crlf)] ].
Proof.
  assert (step (probe_event (Responded 503)) probing_example =
          Some probe_failed_example) as Hstep by (vm_compute; reflexivity).
  split; [exact probing_example_reachable|]. split; [exact Hstep|].
  destruct (health_failure_opens_no_stream _ _ _ probing_example_reachable Hstep)
    as (Hf & _ & Hs & _).
  split; [exact (proj1 Hs)|]. split; [exact Hf | exact (proj2 Hs)].
Defined.

(** ** Reconnection *)

Lemma session_all_closed st :
  all_closed (sockets st) -> session st = waiting st.
Proof.
  intros Hall. unfold session.
  destruct (websocket st) as [i|]; [|done].
  destruct (sockets st !! i) as [ws|] eqn:Hi; [|done].
  by rewrite (Forall_lookup_1 _ _ _ _ Hall Hi).
Qed.

(** In a reachable state the link of the chain is the session that
    [session] computes. *)
Lemma reachable_session st :
  reachable st -> chain (fetches st) (sockets st) (timers st) (session st).
Proof.
  intros [_ Hw [s Hc]]%reachable_wf.
  assert (s = session st) as <-; [|done].
  destruct Hc as [Hf Hall Hr|Hf Hall Hr|olds Hf Hs Hall Hr|olds ws Hf Hs Hrs Hall Hr
                 |Hf Hall Hr].
  - rewrite session_all_closed by done. unfold waiting.
    by rewrite Hf, existsb_reconnects, Hr.
  - rewrite session_all_closed by done. unfold waiting. by rewrite Hf.
  - unfold session. by rewrite Hw, Hs, newest_snoc, lookup_snoc_last.
  - unfold session. by rewrite Hw, Hs, newest_snoc, lookup_snoc_last, Hrs.
  - rewrite session_all_closed by done. unfold waiting.
    by rewrite Hf, existsb_reconnects, Hr.
Qed.

Lemma existsb_reconnect_snoc tms :
  existsb is_reconnect (tms ++ [reconnect_timer]) = true.
Proof. rewrite existsb_app. simpl. by rewrite orb_true_r. Qed.

(** The close of a socket, whether it was open or still connecting,
    schedules the reconnect timer, the only one pending then. *)
Lemma socket_closes_step st i failed st' :
  reachable st ->
  step (SocketCloses i failed) st = Some st' ->
  timers st' = timers st ++ [reconnect_timer] /\
  reconnects (timers st') = 1%nat /\
  fetches st' = 0%nat /\
  session st' = Reconnecting.
Proof.
  intros Hr Hstep. reach_created st Hr; [|done].
  unfold step in Hstep. simpl sockets in Hstep.
  destruct (socks !! i) as [ws|] eqn:Hi; [|done].
  assert (readyState ws <> CLOSED) as Hlive by (by destruct (readyState ws)).
  destruct (chain_live _ _ _ _ _ _ Hc Hi Hlive)
    as (olds & -> & -> & Hall & -> & Hrec & _).
  assert (all_closed (olds ++
            [{| readyState := CLOSED; sent := sent ws; received := received ws |}]))
    as Hall'.
  { apply Forall_app. split; [done|]. by constructor. }
  rewrite newest_snoc in *.
  js_cases Hstep; simpl; rewrite ?insert_snoc_last, ?reconnects_app, ?Hrec;
    repeat split;
    first [ done | simpl; lia
          | rewrite session_all_closed
              by (simpl; rewrite ?insert_snoc_last; exact Hall');
            unfold waiting; simpl; by rewrite existsb_reconnect_snoc ].
Qed.

(** The reconnect timer, when it fires, issues a health request if the
    sidebar is shown and does nothing if it is hidden. *)
Lemma reconnect_timer_step st k tm st' :
  reachable st ->
  timers st !! k = Some tm -> callback tm = Reconnect ->
  step (TimerFires k) st = Some st' ->
  timers st' = delete k (timers st) /\
  reconnects (timers st') = 0%nat /\
  sockets st' = sockets st /\
  if terminal_shown st
  then fetches st' = 1%nat /\ session st' = Probing
  else fetches st' = 0%nat /\ session st' = Disconnected.
Proof.
  intros Hr Hk Ht Hstep. reach_created st Hr; [|done].
  simpl in Hk. unfold step in Hstep. simpl timers in Hstep. rewrite Hk in Hstep.
  pose proof (reconnects_delete _ _ _ Hk) as Hdel.
  unfold is_reconnect in Hdel. rewrite Ht in Hdel.
  assert (all_closed socks /\ f = 0%nat /\ reconnects (delete k tms) = 0%nat)
    as (Hall & -> & Hrec).
  { destruct Hc; try lia. repeat split; try done; lia. }
  assert (existsb is_reconnect (delete k tms) = false) as Hex.
  { rewrite existsb_reconnects, Hrec. done. }
  rewrite Ht in Hstep. unfold terminal_shown. simpl terminalSidebar.
  js_cases Hstep; simpl; repeat split; try done;
    rewrite session_all_closed by done; unfold waiting; simpl; by rewrite ?Hex.
Qed.

(** The answer to the health request is handled without a look at the
    sidebar: a status in 200-299 creates the socket, the terminal be shown
    or hidden. *)
Lemma health_response_ok_step st status st' :
  reachable st -> response_ok status = true ->
  step (HealthResponse status) st = Some st' ->
  sockets st' = sockets st ++ [fresh_socket] /\
  terminal_shown st' = terminal_shown st /\
  fetches st' = 0%nat /\
  session st' = Connecting.
Proof.
  intros Hr Hok Hstep. reach_created st Hr; [|done].
  unfold step in Hstep. simpl fetches in Hstep.
  destruct f as [|n]; [done|].
  destruct (chain_health_response _ _ _ _ Hc) as (-> & _ & _).
  js_cases Hstep; try congruence.
  simpl. repeat split; try done.
  unfold session. simpl. by rewrite lookup_snoc_last.
Qed.

Lemma hidden_probing_example_reachable : reachable hidden_probing_example.
Proof.
  apply (run_reachable [SocketCloses 0%nat false; TimerFires 0%nat; ToggleCommand]
           connected_example); [exact connected_example_reachable|].
  vm_compute. reflexivity.
Qed.

(** C4, as stated, fails: a reconnection is attempted, and completes,
    while the terminal is closed. The stream closes and the timer fires
    with the terminal shown; the user hides the terminal while the health
    request is in flight; the answer 200 creates the socket, which opens,
    the terminal being hidden all along. *)
Lemma reconnect_while_hidden :
  run [SocketCloses 0%nat false; TimerFires 0%nat; ToggleCommand] connected_example =
    Some hidden_probing_example /\
  terminal_shown hidden_probing_example = false /\
  session hidden_probing_example = Probing /\
  step (HealthResponse 200) hidden_probing_example = Some hidden_connecting_example /\
  terminal_shown hidden_connecting_example = false /\
  sockets hidden_connecting_example =
    sockets hidden_probing_example ++ [fresh_socket] /\
  session hidden_connecting_example = Connecting /\
  step (SocketOpens 1%nat) hidden_connecting_example = Some hidden_connected_example /\
  terminal_shown hidden_connected_example = false /\
  session hidden_connected_example = Connected.
Proof. vm_compute. repeat split; reflexivity. Qed.

(** C4, amended. In every reachable state at most one reconnect timer is
    pending. The close of a socket schedules one, with a delay of 5000 ms.
    When it fires, a health request is issued if the sidebar is shown, and
    nothing is done if it is hidden. The sidebar is looked at then and not
    again: the answer to a health request in flight creates the socket if
    its status is in 200-299, the terminal be shown or hidden. *)
Theorem reconnect_after_close st :
  reachable st ->
  (reconnects (timers st) <= 1)%nat /\
  (forall i failed st',
     step (SocketCloses i failed) st = Some st' ->
     timers st' = timers st ++ [reconnect_timer] /\
     reconnects (timers st') = 1%nat /\
     fetches st' = 0%nat /\
     session st' = Reconnecting) /\
  (forall k tm st',
     timers st !! k = Some tm -> callback tm = Reconnect ->
     step (TimerFires k) st = Some st' ->
     timers st' = delete k (timers st) /\
     reconnects (timers st') = 0%nat /\
     sockets st' = sockets st /\
     if terminal_shown st
     then fetches st' = 1%nat /\ session st' = Probing
     else fetches st' = 0%nat /\ session st' = Disconnected) /\
  (forall status st',
     200 <= status <= 299 ->
     step (HealthResponse status) st = Some st' ->
     sockets st' = sockets st ++ [fresh_socket] /\
     terminal_shown st' = terminal_shown st /\
     fetches st' = 0%nat /\
     session st' = Connecting).
Proof.
  intros Hr. split; [|split; [|split]].
  - destruct (reachable_wf _ Hr) as [_ _ [s Hc]]. by eapply chain_reconnects_le.
  - intros i failed st'. by apply socket_closes_step.
  - intros k tm st'. by apply reconnect_timer_step.
  - intros status st' Hok%response_ok_range. by apply health_response_ok_step.
Qed.

Lemma reconnect_after_close_witness :
  reachable hidden_probing_example /\
  (reconnects (timers hidden_probing_example) <= 1)%nat /\
  terminal_shown hidden_probing_example = false /\
  step (HealthResponse 200) hidden_probing_example = Some hidden_connecting_example /\
  sockets hidden_connecting_example =
    sockets hidden_probing_example ++ [fresh_socket] /\
  session hidden_connecting_example = Connecting.
Proof.
  assert (step (HealthResponse 200) hidden_probing_example =
          Some hidden_connecting_example) as Hstep by (vm_compute; reflexivity).
  destruct (reconnect_after_close _ hidden_probing_example_reachable)
    as (Hle & _ & _ & Hprobe).
  destruct (Hprobe 200 _ ltac:(lia) Hstep) as (Hs & _ & _ & Hc).
  split; [exact hidden_probing_example_reachable|]. split; [exact Hle|].
  split; [vm_compute; reflexivity|]. split; [exact Hstep|].
  split; [exact Hs | exact Hc].
Defined.

(** The scenario of the specification: the server closes the stream, the
    timer fires with the terminal shown, the health request answers 200
    and the new socket opens. *)
Example reconnect_scenario :
  sessions [SocketCloses 0%nat false; TimerFires 0%nat; HealthResponse 200;
            SocketOpens 1%nat] connected_example =
  [Connected; Reconnecting; Probing; Connecting; Connected].
Proof. vm_compute. reflexivity. Qed.

(** ** Closing the terminal *)

(** C5, as stated, fails: hiding the terminal of a connected session
    leaves the websocket open and the session Connected; hiding it while
    a reconnect timer is pending leaves the timer pending and the session
    Reconnecting. *)
Lemma user_close_keeps_stream :
  terminal_shown connected_example = true /\
  step ToggleCommand connected_example = Some hidden_example /\
  terminal_shown hidden_example = false /\
  websocket_open hidden_example = true /\
  session hidden_example = Connected /\
  terminal_shown reconnecting_example = true /\
  step ToggleCommand reconnecting_example = Some hidden_reconnecting_example /\
  terminal_shown hidden_reconnecting_example = false /\
  timers hidden_reconnecting_example = [reconnect_timer] /\
  session hidden_reconnecting_example = Reconnecting.
Proof. vm_compute. repeat split; reflexivity. Qed.

Lemma session_ext st1 st2 :
  websocket st1 = websocket st2 -> sockets st1 = sockets st2 ->
  fetches st1 = fetches st2 -> timers st1 = timers st2 ->
  session st1 = session st2.
Proof. unfold session, waiting. by intros -> -> -> ->. Qed.

(** C5, amended. Closing the terminal only hides the sidebar: the sockets,
    the timers, the health requests in flight, the screen and the session
    are what they were. A reconnect timer that fires while the sidebar is
    hidden issues no health request and leaves the session Disconnected. *)
Theorem user_close_hides_only st st' :
  reachable st -> terminal_shown st = true ->
  step ToggleCommand st = Some st' ->
  terminal_shown st' = false /\
  websocket st' = websocket st /\ sockets st' = sockets st /\
  timers st' = timers st /\ fetches st' = fetches st /\
  screen st' = screen st /\ session st' = session st /\
  (forall k tm st'',
     timers st' !! k = Some tm -> callback tm = Reconnect ->
     step (TimerFires k) st' = Some st'' ->
     fetches st'' = 0%nat /\ sockets st'' = sockets st' /\
     session st'' = Disconnected).
Proof.
  intros Hr Hshown Hstep.
  assert (reachable st') as Hr' by (by eapply reachable_step).
  assert (terminal_shown st' = false /\
          websocket st' = websocket st /\ sockets st' = sockets st /\
          timers st' = timers st /\ fetches st' = fetches st /\
          screen st' = screen st) as (Hhid & Hw & Hs & Ht & Hf & Hsc).
  { clear Hr'. reach_created st Hr; [|done].
    unfold terminal_shown in *. simpl in Hshown.
    apply negb_true_iff in Hshown.
    unfold step in Hstep. js_cases Hstep.
    simpl. repeat split; try done. }
  split; [done|]. do 5 (split; [done|]). split; [by apply session_ext|].
  intros k tm st'' Hk Htm Hfire.
  pose proof (reconnect_timer_step _ _ _ _ Hr' Hk Htm Hfire) as Hrec.
  rewrite Hhid in Hrec. tauto.
Qed.

Lemma user_close_hides_only_witness :
  reachable connected_example /\
  terminal_shown connected_example = true /\
  step ToggleCommand connected_example = Some hidden_example /\
  sockets hidden_example = sockets connected_example /\
  session hidden_example = session connected_example.
Proof.
  assert (terminal_shown connected_example = true) as Hshown
    by (vm_compute; reflexivity).
  assert (step ToggleCommand connected_example = Some hidden_example) as Hstep
    by (vm_compute; reflexivity).
  split; [exact connected_example_reachable|].
  split; [exact Hshown|]. split; [exact Hstep|].
  destruct (user_close_hides_only _ _ connected_example_reachable Hshown Hstep)
    as (_ & _ & Hs & _ & _ & _ & Hsession & _).
  split; [exact Hs | exact Hsession].
Defined.

(** ** Frames received *)

(** A value whose [type] can be read is neither [null] nor [undefined]:
    its [data] can be read too. *)
Lemma get_property_data msg ty :
  get_property msg (lit "type") = Some ty ->
  exists payload, get_property msg (lit "data") = Some payload.
Proof. destruct msg; simpl; try done; eauto. Qed.

Lemma onmessage_output st t raw msg ty payload :
  terminal st = Some t ->
  JSON_parse raw = Some msg ->
  get_property msg (lit "type") = Some ty ->
  strict_equals_string ty (lit "output") = true ->
  get_property msg (lit "data") = Some payload ->
  nullish payload = false ->
  onmessage raw st = Normal tt (add_call (TWrite payload) st).
Proof.
  intros Ht Hp Hty Hout Hdata Hnot.
  unfold onmessage, try_catch, bind, parse_message, member.
  rewrite Hp. unfold ret at 1. rewrite Hty. unfold ret at 1. rewrite Hout, Hdata.
  unfold ret, terminal_write, terminal_call, add_call. by rewrite Hnot, Ht.
Qed.

Lemma onmessage_error st t raw msg ty payload line :
  terminal st = Some t ->
  JSON_parse raw = Some msg ->
  get_property msg (lit "type") = Some ty ->
  strict_equals_string ty (lit "output") = false ->
  strict_equals_string ty (lit "error") = true ->
  get_property msg (lit "data") = Some payload ->
  error_line payload = Some line ->
  onmessage raw st = Normal tt (add_call (TWriteln line) st).
Proof.
  intros Ht Hp Hty Hout Herr Hdata Hline.
  unfold onmessage, try_catch, bind, parse_message, member.
  rewrite Hp. unfold ret at 1. rewrite Hty. unfold ret at 1. rewrite Hout.
  unfold ret at 1. rewrite Herr, Hdata. unfold ret at 1. rewrite Hline.
  unfold template, ret, terminal_writeln, terminal_call, add_call. by rewrite Ht.
Qed.

(** A payload that [write] or the template literal rejects: the
    [TypeError] is caught like the one of a frame that cannot be decoded. *)
Lemma onmessage_unusable st t raw msg ty payload :
  terminal st = Some t ->
  JSON_parse raw = Some msg ->
  get_property msg (lit "type") = Some ty ->
  get_property msg (lit "data") = Some payload ->
  (strict_equals_string ty (lit "output") = true /\ nullish payload = true) \/
  (strict_equals_string ty (lit "output") = false /\
   strict_equals_string ty (lit "error") = true /\ error_line payload = None) ->
  onmessage raw st =
  Normal tt (add_call (TWrite (JStr raw))
               (add_console
                  (ConsoleError (lit "Error parsing WebSocket message:") JsTypeError)
                  st)).
Proof.
  intros Ht Hp Hty Hdata Hbad.
  unfold onmessage, try_catch, bind, parse_message, member.
  rewrite Hp. unfold ret at 1. rewrite Hty. unfold ret at 1.
  destruct Hbad as [[Hout Hnull]|(Hout & Herr & Hline)]; rewrite Hout.
  - rewrite Hdata. unfold ret at 1. unfold terminal_write at 1. rewrite Hnull.
    unfold throw, console_error, modify, terminal_write, terminal_call,
      add_call, add_console. simpl. by rewrite Ht.
  - unfold ret at 1. rewrite Herr, Hdata. unfold ret at 1. rewrite Hline.
    unfold template, throw, console_error, modify, terminal_write,
      terminal_call, add_call, add_console. simpl. by rewrite Ht.
Qed.

Lemma onmessage_ignored st raw msg ty :
  JSON_parse raw = Some msg ->
  get_property msg (lit "type") = Some ty ->
  strict_equals_string ty (lit "output") = false ->
  strict_equals_string ty (lit "error") = false ->
  onmessage raw st = Normal tt st.
Proof.
  intros Hp Hty Hout Herr.
  unfold onmessage, try_catch, bind, parse_message, member.
  rewrite Hp. unfold ret at 1. rewrite Hty. unfold ret at 1. rewrite Hout.
  unfold ret at 1. by rewrite Herr.
Qed.

Lemma onmessage_thrown st t raw e :
  terminal st = Some t ->
  (JSON_parse raw = None /\ e = JsSyntaxError) \/
  (exists msg, JSON_parse raw = Some msg /\
               get_property msg (lit "type") = None /\ e = JsTypeError) ->
  onmessage raw st =
  Normal tt (add_call (TWrite (JStr raw))
               (add_console
                  (ConsoleError (lit "Error parsing WebSocket message:") e) st)).
Proof.
  intros Ht Hbad.
  unfold onmessage, try_catch, bind, parse_message, member.
  destruct Hbad as [[Hp ->]|(msg & Hp & Hty & ->)]; rewrite Hp.
  - unfold throw, console_error, modify, terminal_write, terminal_call,
      add_call, add_console. simpl. by rewrite Ht.
  - unfold ret at 1. rewrite Hty.
    unfold throw, console_error, modify, terminal_write, terminal_call,
      add_call, add_console. simpl. by rewrite Ht.
Qed.

(** What [onmessage] can do, whatever the text: nothing, one call of
    [write] or [writeln], or the [catch] block. *)
Lemma onmessage_result st t raw :
  terminal st = Some t ->
  onmessage raw st = Normal tt st \/
  (exists c, c <> TClear /\ onmessage raw st = Normal tt (add_call c st)) \/
  (exists e,
     onmessage raw st =
     Normal tt (add_call (TWrite (JStr raw))
                  (add_console
                     (ConsoleError (lit "Error parsing WebSocket message:") e) st))).
Proof.
  intros Ht.
  destruct (JSON_parse raw) as [msg|] eqn:Hp.
  - destruct (get_property msg (lit "type")) as [ty|] eqn:Hty.
    + destruct (get_property_data _ _ Hty) as [payload Hdata].
      destruct (strict_equals_string ty (lit "output")) eqn:Hout.
      * destruct (nullish payload) eqn:Hnull.
        -- right. right. exists JsTypeError.
           eapply onmessage_unusable; try done. left; eauto.
        -- right. left. exists (TWrite payload). split; [done|].
           by eapply onmessage_output.
      * destruct (strict_equals_string ty (lit "error")) eqn:Herr.
        -- destruct (error_line payload) as [line|] eqn:Hline.
           ++ right. left. exists (TWriteln line). split; [done|].
              by eapply onmessage_error.
           ++ right. right. exists JsTypeError.
              eapply onmessage_unusable; try done. right; eauto.
        -- left. by eapply onmessage_ignored.
    + right. right. exists JsTypeError. eapply onmessage_thrown; [done|].
      right; eauto.
  - right. right. exists JsSyntaxError. eapply onmessage_thrown; [done|].
    left; eauto.
Qed.

Lemma stream_untouched_refl st : stream_untouched st st.
Proof. by repeat split. Qed.

Lemma stream_untouched_trans st1 st2 st3 :
  stream_untouched st1 st2 -> stream_untouched st2 st3 -> stream_untouched st1 st3.
Proof.
  intros (?&?&?&?&?) (?&?&?&?&?). repeat split; congruence.
Qed.

Lemma stream_untouched_session st st' :
  stream_untouched st st' -> session st' = session st.
Proof.
  intros (Hw & Hrs & _ & Ht & Hf). unfold session, waiting.
  rewrite Hw, Ht, Hf. destruct (websocket st) as [i|]; [|done].
  assert (readyState <$> sockets st' !! i = readyState <$> sockets st !! i) as E.
  { by rewrite <- !list_lookup_fmap, Hrs. }
  destruct (sockets st' !! i), (sockets st !! i); simplify_eq/=; try done.
  by rewrite E.
Qed.

Lemma stream_untouched_frames st st' :
  stream_untouched st st' -> frames_sent st' = frames_sent st.
Proof.
  intros (Hw & _ & Hs & _). unfold frames_sent. rewrite Hw.
  destruct (websocket st) as [i|]; [|done].
  by rewrite <- !list_lookup_fmap, Hs.
Qed.

Lemma stream_untouched_deliver st i ws raw :
  sockets st !! i = Some ws -> stream_untouched st (deliver i ws raw st).
Proof.
  intros Hi. unfold stream_untouched, deliver. simpl.
  rewrite !list_fmap_insert. simpl.
  rewrite !list_insert_id by (by rewrite list_lookup_fmap, Hi).
  by repeat split.
Qed.

Lemma stream_untouched_add_call st c : stream_untouched st (add_call c st).
Proof. unfold add_call. destruct (terminal st); by repeat split. Qed.

Lemma stream_untouched_add_console st e : stream_untouched st (add_console e st).
Proof. by repeat split. Qed.

Lemma screen_add_call st t c :
  terminal st = Some t -> screen (add_call c st) = screen st ++ [c].
Proof. intros Ht. unfold screen, add_call. by rewrite Ht. Qed.

Lemma console_add_call st c : console (add_call c st) = console st.
Proof. unfold add_call. by destruct (terminal st). Qed.

(** A message event reaches [onmessage] only on an open socket, which is
    the one [websocket] refers to, with the terminal in place. *)
Lemma socket_message_step st i raw st' :
  reachable st -> step (SocketMessage i raw) st = Some st' ->
  exists ws t,
    sockets st !! i = Some ws /\ readyState ws = OPEN /\
    websocket st = Some i /\ terminal st = Some t /\
    st' = final (onmessage raw (deliver i ws raw st)).
Proof.
  intros Hr Hstep. reach_created st Hr; [|done].
  unfold step in Hstep. simpl sockets in Hstep. simpl.
  destruct (socks !! i) as [ws|] eqn:Hi; [|done].
  destruct (readyState ws) eqn:Hrs; try done.
  destruct (chain_live _ _ _ _ _ _ Hc Hi) as (olds & -> & -> & _); [congruence|].
  exists ws, t. rewrite newest_snoc in *. repeat split; try done. congruence.
Qed.

(** What a message event leaves unchanged, whatever the frame. *)
Lemma socket_message_frame st i raw st' :
  reachable st -> step (SocketMessage i raw) st = Some st' ->
  stream_untouched st st' /\ session st = Connected /\ session st' = Connected.
Proof.
  intros Hr Hstep.
  destruct (socket_message_step _ _ _ _ Hr Hstep)
    as (ws & t & Hi & Hrs & Hw & Ht & ->).
  assert (session st = Connected) as Hs.
  { apply session_connected, websocket_open_spec. by exists i, ws. }
  assert (stream_untouched st (final (onmessage raw (deliver i ws raw st)))) as Hu.
  { eapply stream_untouched_trans; [by apply stream_untouched_deliver|].
    set (st1 := deliver i ws raw st).
    assert (terminal st1 = Some t) as Ht1 by done.
    destruct (onmessage_result st1 t raw Ht1) as [E|[(c & _ & E)|[e E]]];
      rewrite E.
    - apply stream_untouched_refl.
    - apply stream_untouched_add_call.
    - eapply stream_untouched_trans; [apply stream_untouched_add_console|].
      apply stream_untouched_add_call. }
  split; [done|]. split; [done|].
  by rewrite (stream_untouched_session _ _ Hu).
Qed.

Lemma strict_equals_string_true ty s :
  strict_equals_string ty s = true <-> ty = JStr s.
Proof.
  unfold strict_equals_string, jsstring_eqb.
  destruct ty; try (split; [done|done]).
  rewrite bool_decide_eq_true. split; congruence.
Qed.

Lemma strict_equals_string_false ty s :
  strict_equals_string ty s = false <-> ty <> JStr s.
Proof.
  rewrite <- strict_equals_string_true. by destruct (strict_equals_string ty s).
Qed.

(** C7. An output frame received on the open socket is written to the
    terminal with one [write], whose argument is the string the frame
    holds as [data], code unit for code unit, control and escape
    characters included; nothing is logged, sent, closed or scheduled. *)
Theorem output_written_as_received st i raw st' msg payload :
  reachable st ->
  step (SocketMessage i raw) st = Some st' ->
  JSON_parse raw = Some msg ->
  get_property msg (lit "type") = Some (JStr (lit "output")) ->
  get_property msg (lit "data") = Some (JStr payload) ->
  screen st' = screen st ++ [TWrite (JStr payload)] /\
  console st' = console st /\
  stream_untouched st st' /\ session st' = Connected.
Proof.
  intros Hr Hstep Hp Hty Hdata.
  destruct (socket_message_frame _ _ _ _ Hr Hstep) as (Hu & _ & Hs).
  destruct (socket_message_step _ _ _ _ Hr Hstep)
    as (ws & t & Hi & Hrs & Hw & Ht & ->).
  erewrite onmessage_output in * by (try done; by apply strict_equals_string_true).
  simpl. split; [by erewrite screen_add_call|].
  split; [by rewrite console_add_call|]. done.
Qed.

Lemma output_written_as_received_witness :
  reachable connected_example /\
  step (SocketMessage 0%nat output_frame) connected_example = Some output_example /\
  JSON_parse output_frame =
    Some (JObj [(lit "type", JStr (lit "output"));
                (lit "data", JStr (27 :: lit "[31mhi" ++ [13; 10]))]) /\
  screen output_example =
    screen connected_example ++ [TWrite (JStr (27 :: lit "[31mhi" ++ [13; 10]))].
Proof.
  assert (step (SocketMessage 0%nat output_frame) connected_example =
          Some output_example) as Hstep by (vm_compute; reflexivity).
  assert (JSON_parse output_frame =
          Some (JObj [(lit "type", JStr (lit "output"));
                      (lit "data", JStr (27 :: lit "[31mhi" ++ [13; 10]))])) as Hp
    by (vm_compute; reflexivity).
  split; [exact connected_example_reachable|].
  split; [exact Hstep|]. split; [exact Hp|].
  refine (proj1 (output_written_as_received _ _ _ _ _ _
                   connected_example_reachable Hstep Hp _ _));
    vm_compute; reflexivity.
Defined.

(** C6, as stated, fails: a text that is no JSON, received on the open
    socket, is written to the terminal. *)
Lemma malformed_frame_is_rendered :
  JSON_parse (lit "not json") = None /\
  step (SocketMessage 0%nat (lit "not json")) connected_example =
    Some not_json_example /\
  screen not_json_example =
    screen connected_example ++ [TWrite (JStr (lit "not json"))].
Proof. vm_compute. repeat split; reflexivity. Qed.

(** C6, amended. When decoding a received frame throws ([JSON.parse]
    rejects the text, or the value is [null], whose [type] cannot be
    read), the error is logged with [console.error], the text of the frame
    is written to the terminal as it came, and nothing is sent, closed or
    scheduled: the session stays Connected. *)
Theorem malformed_frame_logged_and_written st i raw st' :
  reachable st ->
  step (SocketMessage i raw) st = Some st' ->
  JSON_parse raw = None \/ JSON_parse raw = Some JNull ->
  screen st' = screen st ++ [TWrite (JStr raw)] /\
  (exists e,
     console st' =
     console st ++ [ConsoleError (lit "Error parsing WebSocket message:") e]) /\
  stream_untouched st st' /\ session st' = Connected.
Proof.
  intros Hr Hstep Hbad.
  destruct (socket_message_frame _ _ _ _ Hr Hstep) as (Hu & _ & Hs).
  destruct (socket_message_step _ _ _ _ Hr Hstep)
    as (ws & t & Hi & Hrs & Hw & Ht & ->).
  assert (exists e,
    (JSON_parse raw = None /\ e = JsSyntaxError) \/
    (exists msg, JSON_parse raw = Some msg /\
                 get_property msg (lit "type") = None /\ e = JsTypeError))
    as [e He].
  { destruct Hbad as [Hp|Hp].
    - exists JsSyntaxError. by left.
    - exists JsTypeError. right. by exists JNull. }
  erewrite onmessage_thrown in * by done.
  simpl. split; [by erewrite screen_add_call|].
  split; [|done]. exists e. by rewrite console_add_call.
Qed.

Lemma malformed_frame_logged_and_written_witness :
  reachable connected_example /\
  step (SocketMessage 0%nat (lit "not json")) connected_example =
    Some not_json_example /\
  JSON_parse (lit "not json") = None /\
  session not_json_example = Connected.
Proof.
  assert (step (SocketMessage 0%nat (lit "not json")) connected_example =
          Some not_json_example) as Hstep by (vm_compute; reflexivity).
  assert (JSON_parse (lit "not json") = None) as Hp by (vm_compute; reflexivity).
  split; [exact connected_example_reachable|].
  split; [exact Hstep|]. split; [exact Hp|].
  exact (proj2 (proj2 (proj2
    (malformed_frame_logged_and_written _ _ _ _
       connected_example_reachable Hstep (or_introl Hp))))).
Defined.

Lemma error_is_not_output :
  strict_equals_string (JStr (lit "error")) (lit "output") = false.
Proof. vm_compute. reflexivity. Qed.

Lemma error_is_error :
  strict_equals_string (JStr (lit "error")) (lit "error") = true.
Proof. vm_compute. reflexivity. Qed.

(** C8, as stated, fails: after an error frame the session is still
    Connected and no reconnect timer has been scheduled. *)
Lemma error_frame_keeps_connected :
  step (SocketMessage 0%nat error_frame) connected_example = Some error_example /\
  session error_example = Connected /\
  reconnects (timers error_example) = 0%nat /\
  websocket_open error_example = true.
Proof. vm_compute. repeat split; reflexivity. Qed.

Lemma error_line_eq payload :
  error_line payload =
  if ToString_throws payload then None
  else Some [Text (crlf ++ esc "[31m" ++ lit "Error: "); Value payload;
             Text (esc "[0m" ++ crlf)].
Proof. reflexivity. Qed.

(** C8, amended. An error frame is shown on the terminal as one line, the
    word Error and the [data] of the frame in red between two line
    breaks, and nothing is logged. The one exception is a [data] that
    cannot be converted to a string (an object parsed with a [toString]
    member, or an array that holds one): the template literal throws, the
    [TypeError] is logged and the text of the frame is written as it
    came. Either way the session stays Connected, nothing being sent,
    closed or scheduled. The session becomes Reconnecting when the socket
    closes, an error frame having come before or not. *)
Theorem error_frame_displayed st i raw st' msg payload :
  reachable st ->
  step (SocketMessage i raw) st = Some st' ->
  JSON_parse raw = Some msg ->
  get_property msg (lit "type") = Some (JStr (lit "error")) ->
  get_property msg (lit "data") = Some payload ->
  (if ToString_throws payload
   then screen st' = screen st ++ [TWrite (JStr raw)] /\
        console st' =
        console st ++
        [ConsoleError (lit "Error parsing WebSocket message:") JsTypeError]
   else screen st' =
        screen st ++
        [TWriteln [Text (crlf ++ esc "[31m" ++ lit "Error: "); Value payload;
                   Text (esc "[0m" ++ crlf)]] /\
        console st' = console st) /\
  stream_untouched st st' /\ session st' = Connected /\
  (forall failed st'',
     step (SocketCloses i failed) st' = Some st'' -> session st'' = Reconnecting).
Proof.
  intros Hr Hstep Hp Hty Hdata.
  assert (reachable st') as Hr' by (by eapply reachable_step).
  destruct (socket_message_frame _ _ _ _ Hr Hstep) as (Hu & _ & Hs).
  split; [|split; [done|split; [done|]]].
  - destruct (socket_message_step _ _ _ _ Hr Hstep)
      as (ws & t & Hi & Hrs & Hw & Ht & ->).
    assert (terminal (add_console
              (ConsoleError (lit "Error parsing WebSocket message:") JsTypeError)
              (deliver i ws raw st)) = Some t) as Ht' by done.
    pose proof (onmessage_error (deliver i ws raw st) t raw msg
                  (JStr (lit "error")) payload) as Hline.
    pose proof (onmessage_unusable (deliver i ws raw st) t raw msg
                  (JStr (lit "error")) payload
                  Ht Hp Hty Hdata) as Hthrown.
    rewrite error_line_eq in Hline, Hthrown.
    destruct (ToString_throws payload).
    + rewrite Hthrown by (right; auto using error_is_not_output, error_is_error).
      simpl. split; [by erewrite screen_add_call | by rewrite console_add_call].
    + rewrite (Hline _ Ht Hp Hty error_is_not_output error_is_error Hdata eq_refl).
      simpl. split; [by erewrite screen_add_call | by rewrite console_add_call].
  - intros failed st'' Hclose.
    by destruct (socket_closes_step _ _ _ _ Hr' Hclose) as (_ & _ & _ & ?).
Qed.

Lemma error_frame_displayed_witness :
  reachable connected_example /\
  step (SocketMessage 0%nat error_frame) connected_example = Some error_example /\
  JSON_parse error_frame =
    Some (JObj [(lit "type", JStr (lit "error")); (lit "data", JStr (lit "exit"))]) /\
  screen error_example =
    screen connected_example ++
    [TWriteln [Text (crlf ++ esc "[31m" ++ lit "Error: "); Value (JStr (lit "exit"));
               Text (esc "[0m" ++ crlf)]] /\
  console error_example = console connected_example.
Proof.
  assert (step (SocketMessage 0%nat error_frame) connected_example =
          Some error_example) as Hstep by (vm_compute; reflexivity).
  assert (JSON_parse error_frame =
          Some (JObj [(lit "type", JStr (lit "error"));
                      (lit "data", JStr (lit "exit"))])) as Hp
    by (vm_compute; reflexivity).
  split; [exact connected_example_reachable|].
  split; [exact Hstep|]. split; [exact Hp|].
  refine (proj1 (error_frame_displayed _ _ _ _ _ (JStr (lit "exit"))
                   connected_example_reachable Hstep Hp _ _));
    vm_compute; reflexivity.
Defined.

(** An error frame whose [data] cannot be converted to a string: the
    text of the frame is written as it came, after the error has been
    logged. *)
Example unprintable_error_frame_caught :
  JSON_parse unprintable_error_frame =
    Some (JObj [(lit "type", JStr (lit "error"));
                (lit "data", JObj [(lit "toString", JNum (lit "0"))])]) /\
  step (SocketMessage 0%nat unprintable_error_frame) connected_example =
    Some unprintable_error_example /\
  screen unprintable_error_example =
    screen connected_example ++ [TWrite (JStr unprintable_error_frame)] /\
  console unprintable_error_example =
    console connected_example ++
    [ConsoleError (lit "Error parsing WebSocket message:") JsTypeError] /\
  session unprintable_error_example = Connected.
Proof. vm_compute. repeat split; reflexivity. Qed.

(** C10, as stated, fails: the text [null] is parsed without error and
    has no type, yet it is logged as an error and written to the
    terminal. *)
Lemma null_frame_is_not_ignored :
  JSON_parse (lit "null") = Some JNull /\
  step (SocketMessage 0%nat (lit "null")) connected_example = Some null_example /\
  screen null_example = screen connected_example ++ [TWrite (JStr (lit "null"))] /\
  console null_example =
    console connected_example ++
    [ConsoleError (lit "Error parsing WebSocket message:") JsTypeError].
Proof. vm_compute. repeat split; reflexivity. Qed.

(** C10, amended. A frame that parses to a value other than [null] and
    whose [type] is neither the string output nor the string error (be it
    another string, absent, or no string at all) changes nothing: the
    state after the event is the state before it, but for the record of
    the texts delivered. *)
Theorem other_frames_ignored st i raw st' msg :
  reachable st ->
  step (SocketMessage i raw) st = Some st' ->
  JSON_parse raw = Some msg -> msg <> JNull ->
  get_property msg (lit "type") <> Some (JStr (lit "output")) ->
  get_property msg (lit "type") <> Some (JStr (lit "error")) ->
  (exists ws, sockets st !! i = Some ws /\ st' = deliver i ws raw st) /\
  screen st' = screen st /\ console st' = console st /\
  stream_untouched st st' /\ session st' = Connected.
Proof.
  intros Hr Hstep Hp Hnull Hout Herr.
  pose proof (JSON_parse_defined _ _ Hp) as Hundef.
  destruct (socket_message_frame _ _ _ _ Hr Hstep) as (Hu & _ & Hs).
  destruct (socket_message_step _ _ _ _ Hr Hstep)
    as (ws & t & Hi & Hrs & Hw & Ht & ->).
  assert (exists ty, get_property msg (lit "type") = Some ty) as [ty Hty].
  { destruct msg; simpl; try done; eauto. }
  assert (strict_equals_string ty (lit "output") = false) as Hout'
    by (apply strict_equals_string_false; congruence).
  assert (strict_equals_string ty (lit "error") = false) as Herr'
    by (apply strict_equals_string_false; congruence).
  rewrite (onmessage_ignored (deliver i ws raw st) raw msg ty Hp Hty Hout' Herr')
    in *.
  simpl. split; [by exists ws|]. done.
Qed.

Lemma other_frames_ignored_witness :
  reachable connected_example /\
  step (SocketMessage 0%nat resize_frame) connected_example = Some resize_example /\
  JSON_parse resize_frame =
    Some (JObj [(lit "type", JStr (lit "resize"));
                (lit "cols", JNum (lit "80")); (lit "rows", JNum (lit "24"))]) /\
  screen resize_example = screen connected_example.
Proof.
  assert (step (SocketMessage 0%nat resize_frame) connected_example =
          Some resize_example) as Hstep by (vm_compute; reflexivity).
  assert (JSON_parse resize_frame =
          Some (JObj [(lit "type", JStr (lit "resize"));
                      (lit "cols", JNum (lit "80")); (lit "rows", JNum (lit "24"))]))
    as Hp by (vm_compute; reflexivity).
  split; [exact connected_example_reachable|].
  split; [exact Hstep|]. split; [exact Hp|].
  refine (proj1 (proj2 (other_frames_ignored _ _ _ _ _
                   connected_example_reachable Hstep Hp _ _ _)));
    vm_compute; congruence.
Defined.

(** ** The stream opens *)



(** What the opening of a socket does: the socket is the one created
    last, nothing had been sent on it or received from it, every other
    socket is closed; one resize frame with the terminal's grid is sent,
    then the screen is cleared and the banner written. *)
Lemma socket_opens_step st i st' :
  reachable st -> step (SocketOpens i) st = Some st' ->
  exists t olds,
    terminal st = Some t /\
    sockets st = olds ++ [fresh_socket] /\ i = length olds /\ all_closed olds /\
    websocket st' = Some i /\
    sockets st' =
      olds ++ [{| readyState := OPEN;
                  sent := [Stringify.resize (cols t) (rows t)]; received := [] |}] /\
    screen st' = screen st ++ TClear :: map TWriteln banner /\
    viewport st' = viewport st /\
    timers st' = timers st /\ fetches st' = fetches st.
Proof.
  intros Hr Hstep. reach_created st Hr; [|done].
  unfold step in Hstep. simpl sockets in Hstep.
  destruct (socks !! i) as [ws|] eqn:Hi; [|done].
  destruct (readyState ws) eqn:Hrs; try done.
  destruct (chain_live _ _ _ _ _ _ Hc Hi) as (olds & -> & -> & Hall & -> & _ & Hk);
    [congruence|].
  destruct Hk as [[-> _]|[? _]]; [|congruence].
  rewrite newest_snoc in *.
  unfold set_readyState in Hstep. simpl in Hstep.
  rewrite insert_snoc_last in Hstep.
  js_cases Hstep; rewrite ?lookup_snoc_last in *; simplify_eq/=.
  exists t, olds. rewrite insert_snoc_last.
  repeat split; try done.
  unfold screen. simpl. by rewrite <- app_assoc.
Qed.


Lemma reopening_example_reachable : reachable reopening_example.
Proof.
  apply (run_reachable
           [SocketCloses 0%nat false; TimerFires 0%nat; HealthResponse 200]
           connected_example); [exact connected_example_reachable|].
  vm_compute. reflexivity.
Qed.


(** ** Resize frames *)

(** A resize event of the window refits the terminal and, when the
    websocket is OPEN, sends the new grid; otherwise it sends nothing. *)
Lemma window_resize_sends_frame st dims st' :
  reachable st -> resize_listener st = true ->
  step (WindowResize dims) st = Some st' ->
  viewport st' = Some dims /\
  if websocket_open st
  then frames_sent st' = frames_sent st ++ [Stringify.resize (fst dims) (snd dims)]
  else sockets st' = sockets st.
Proof.
  intros Hr Hl Hstep. reach_created st Hr; [|done].
  unfold step in Hstep. simpl resize_listener in Hstep.
  destruct (websocket_open _) eqn:Ho.
  - apply websocket_open_spec in Ho as (i & ws & Hi & Hws & Hrs).
    simpl in Hi, Hws. rewrite Hi in Hstep |- *.
    js_cases Hstep; try congruence;
      try (match goal with
           | H : bool_decide _ = false |- _ => apply bool_decide_eq_false in H
           end; congruence).
    unfold viewport, frames_sent. simpl. destruct dims as [c r]. split; [done|].
    simplify_eq/=.
    rewrite list_lookup_insert_eq by (by eapply lookup_lt_Some).
    match goal with E : socks !! i = Some _ |- _ => by rewrite E end.
  - unfold websocket_open in Ho. simpl in Ho.
    js_cases Hstep; unfold viewport; simpl; destruct dims; try done;
      simplify_eq/=; rewrite ?bool_decide_eq_false in *; try done.
Qed.

(** The timer of [toggleTerminal] refits the terminal and sends nothing,
    in whatever reachable state it fires. *)
Lemma toggle_timer_sends_nothing st k tm st' :
  reachable st ->
  timers st !! k = Some tm -> callback tm = FitOnly ->
  step (TimerFires k) st = Some st' ->
  viewport st' = Some (container st) /\ sockets st' = sockets st.
Proof.
  intros Hr Hk Ht Hstep. reach_created st Hr; [|done].
  simpl in Hk. unfold step in Hstep. simpl timers in Hstep.
  rewrite Hk, Ht in Hstep.
  js_cases Hstep. unfold viewport. simpl. by destruct cont.
Qed.

(** C2, where the code departs from it. A connected terminal is hidden,
    its container changes size, and the terminal is shown again with the
    toggle command: the timer of [toggleTerminal] refits the terminal to
    120 by 40 and sends nothing, the last resize frame sent still saying
    80 by 24, and no timer is left that would send one. Shown again with
    the slash command instead, the timer of [openTerminal] refits the
    terminal and sends the new grid. *)
Theorem toggle_refit_sends_no_resize :
  run (refit_events ToggleCommand) connected_example = Some toggled_example /\
  session toggled_example = Connected /\
  viewport toggled_example = Some (120, 40) /\
  frames_sent toggled_example = [Stringify.resize 80 24; Stringify.resize 80 24] /\
  timers toggled_example = [] /\
  run (refit_events SlashCommand) connected_example =
    Some reopened_by_command_example /\
  viewport reopened_by_command_example = Some (120, 40) /\
  frames_sent reopened_by_command_example =
    [Stringify.resize 80 24; Stringify.resize 80 24; Stringify.resize 120 40].
Proof. vm_compute. repeat split; reflexivity. Qed.

(** * Further properties *)

(** ** The session from one event to the next *)

Lemma session_same st st' :
  websocket st' = websocket st ->
  readyState <$> sockets st' = readyState <$> sockets st ->
  fetches st' = fetches st ->
  reconnects (timers st') = reconnects (timers st) ->
  session st' = session st.
Proof.
  intros Hw Hrs Hf Ht. unfold session, waiting.
  rewrite Hw, Hf, !existsb_reconnects, Ht. destruct (websocket st) as [i|]; [|done].
  assert (readyState <$> sockets st' !! i = readyState <$> sockets st !! i) as E.
  { by rewrite <- !list_lookup_fmap, Hrs. }
  destruct (sockets st' !! i), (sockets st !! i); simplify_eq/=; try done.
  by rewrite E.
Qed.

(** A frame sent on an open socket leaves the ready states as they are. *)
Lemma readyState_insert (socks : list WebSocketObj) (i : nat) (ws ws' : WebSocketObj) :
  socks !! i = Some ws -> readyState ws' = readyState ws ->
  readyState <$> <[i := ws']> socks = readyState <$> socks.
Proof.
  intros Hi E. rewrite list_fmap_insert, E.
  apply list_insert_id. by rewrite list_lookup_fmap, Hi.
Qed.

(** Closes the side conditions of [session_same] on a state computed by
    a callback. *)
Ltac same_session :=
  apply session_same; simpl;
  rewrite ?reconnects_app; simpl; rewrite ?Nat.add_0_r;
  first [ done
        | erewrite readyState_insert; [done|eassumption|simpl; congruence] ].

Lemma step_session_created st sb0 ev st' :
  reachable st -> terminalSidebar st = Some sb0 -> step ev st = Some st' ->
  match ev with
  | SlashCommand | ToggleCommand | Layout _ | WindowResize _ | TerminalData _ =>
      session st' = session st
  | _ => True
  end.
Proof.
  intros Hr Hsb Hstep.
  destruct ev; try done.
  - reach_created st Hr; [|done]. unfold step in Hstep. js_cases Hstep. same_session.
  - reach_created st Hr; [|done]. unfold step in Hstep. js_cases Hstep; same_session.
  - reach_created st Hr; [|done]. unfold step in Hstep. simplify_eq. same_session.
  - reach_created st Hr; [|done]. unfold step in Hstep. js_cases Hstep; same_session.
  - apply step_terminal_data in Hstep. subst st'.
    destruct (websocket_open st) eqn:Ho; [|done].
    apply websocket_open_spec in Ho as (i & ws & Hi & Hws & Hrs).
    unfold push_frames. rewrite Hi, Hws. same_session.
Qed.

(** Before the first command nothing is pending. *)
Lemma step_session_first st ev st' :
  reachable st -> terminalSidebar st = None -> step ev st = Some st' ->
  session st = Disconnected /\
  match ev with
  | SlashCommand | ToggleCommand => session st' = Probing
  | _ => session st' = Disconnected
  end.
Proof.
  intros Hr Hsb Hstep. reach_created st Hr; [done|].
  simpl in Hweb. subst w. split; [done|].
  destruct ev as [| |dims|dims|data|k|status|msg|i|i data|i failed];
    unfold step in Hstep; try discriminate Hstep;
    apply (inj Some) in Hstep; subst st'.
  - eassert (final (openTerminal _) = _) as -> by (vm_compute; reflexivity).
    reflexivity.
  - eassert (final (toggleTerminal _) = _) as -> by (vm_compute; reflexivity).
    reflexivity.
  - reflexivity.
  - reflexivity.
Qed.

Lemma chain_probing_inv n socks tms s :
  chain (S n) socks tms s ->
  s = Probing /\ n = 0%nat /\ all_closed socks /\ reconnects tms = 0%nat.
Proof. inversion 1; simplify_eq. done. Qed.

Lemma chain_reconnecting_inv f socks tms s :
  chain f socks tms s -> reconnects tms <> 0%nat ->
  s = Reconnecting /\ f = 0%nat /\ all_closed socks.
Proof. inversion 1; simplify_eq; done. Qed.

Lemma session_waiting_idle st :
  all_closed (sockets st) -> fetches st = 0%nat -> reconnects (timers st) = 0%nat ->
  session st = Disconnected.
Proof.
  intros Hall Hf Hr. rewrite session_all_closed by done.
  unfold waiting. by rewrite Hf, existsb_reconnects, Hr.
Qed.

Lemma session_newest st olds ws :
  websocket st = newest (sockets st) -> sockets st = olds ++ [ws] ->
  session st =
  match readyState ws with
  | CONNECTING => Connecting
  | OPEN => Connected
  | _ => waiting st
  end.
Proof.
  intros Hw Hs. unfold session.
  rewrite Hw, Hs, newest_snoc, lookup_snoc_last. by destruct (readyState ws).
Qed.

(** The timer of a refit leaves the session as it is; the reconnect
    timer, pending in a Reconnecting session only, ends it. *)
Lemma session_timer st k st' :
  reachable st -> step (TimerFires k) st = Some st' ->
  exists tm, timers st !! k = Some tm /\
    if is_reconnect tm
    then session st = Reconnecting /\
         session st' = (if terminal_shown st then Probing else Disconnected)
    else session st' = session st.
Proof.
  intros Hr Hstep. pose proof (reachable_session _ Hr) as Hchain.
  destruct (timers st !! k) as [tm|] eqn:Hk;
    [|unfold step in Hstep; by rewrite Hk in Hstep].
  exists tm. split; [done|].
  pose proof (reconnects_delete _ _ _ Hk) as Hdel.
  unfold is_reconnect in *. destruct (callback tm) eqn:Hcb.
  - reach_created st Hr; [|done]. simpl in Hk, Hdel.
    unfold step in Hstep. simpl timers in Hstep. rewrite Hk, Hcb in Hstep.
    js_cases Hstep; apply session_same; simpl; try done;
      erewrite readyState_insert; [done|eassumption|simpl; congruence].
  - reach_created st Hr; [|done]. simpl in Hk, Hdel.
    unfold step in Hstep. simpl timers in Hstep. rewrite Hk, Hcb in Hstep.
    js_cases Hstep; apply session_same; simpl; done.
  - split.
    + eapply chain_reconnecting_inv; [exact Hchain|lia].
    + destruct (reconnect_timer_step _ _ _ _ Hr Hk Hcb Hstep) as (_ & _ & _ & H).
      destruct (terminal_shown st); tauto.
Qed.

(** The health request is answered in a Probing session only. *)
Lemma session_probe st o st' :
  reachable st -> step (probe_event o) st = Some st' ->
  session st = Probing /\
  session st' = if probe_success o then Connecting else Disconnected.
Proof.
  intros Hr Hstep. pose proof (reachable_session _ Hr) as Hchain.
  destruct (fetches st) as [|n] eqn:Hf;
    [destruct o; unfold probe_event, step in Hstep; by rewrite Hf in Hstep|].
  destruct (chain_probing_inv _ _ _ _ Hchain) as (Hs & -> & Hall & Hrec).
  split; [done|].
  reach_created st Hr; [|done]. simpl in Hf, Hall, Hrec. subst f.
  destruct o as [status|msg]; unfold probe_event, probe_success, step in *.
  - js_cases Hstep.
    + unfold session. simpl. by rewrite lookup_snoc_last.
    + by apply session_waiting_idle.
  - js_cases Hstep. by apply session_waiting_idle.
Qed.

(** A socket opens in a Connecting session only. *)
Lemma session_opens st i st' :
  reachable st -> step (SocketOpens i) st = Some st' ->
  session st = Connecting /\ session st' = Connected.
Proof.
  intros Hr Hstep. pose proof (reachable_wf _ Hr) as [_ Hweb _].
  destruct (socket_opens_step _ _ _ Hr Hstep)
    as (t & olds & Ht & Hs & -> & Hall & Hw' & Hs' & _).
  split.
  - by rewrite (session_newest st olds fresh_socket).
  - apply session_connected, websocket_open_spec.
    eexists _, _. split; [done|]. rewrite Hs'. by rewrite lookup_snoc_last.
Qed.

(** A socket closes in a Connecting or Connected session only. *)
Lemma session_closes st i failed st' :
  reachable st -> step (SocketCloses i failed) st = Some st' ->
  (session st = Connecting \/ session st = Connected) /\
  session st' = Reconnecting.
Proof.
  intros Hr Hstep. pose proof (reachable_session _ Hr) as Hchain.
  split; [|by destruct (socket_closes_step _ _ _ _ Hr Hstep) as (_ & _ & _ & ?)].
  unfold step in Hstep.
  destruct (sockets st !! i) as [ws|] eqn:Hi; [|done].
  assert (readyState ws <> CLOSED) as Hlive by (by destruct (readyState ws)).
  destruct (chain_live _ _ _ _ _ _ Hchain Hi Hlive) as (_ & _ & _ & _ & _ & _ & H).
  destruct H as [[_ ?]|[_ ?]]; [by left | by right].
Qed.

(** A command, a resize or an input given once the sidebar exists, or a
    resize given before, leaves the session as it is. *)
Lemma session_kept st ev st' :
  reachable st -> step ev st = Some st' ->
  match ev with
  | SlashCommand | ToggleCommand => terminalSidebar st <> None
  | Layout _ | WindowResize _ | TerminalData _ => True
  | _ => False
  end ->
  session st' = session st.
Proof.
  intros Hr Hstep Hev.
  destruct (terminalSidebar st) as [sb0|] eqn:Hsb.
  - pose proof (step_session_created st sb0 ev st' Hr Hsb Hstep) as H.
    by destruct ev.
  - destruct (step_session_first _ _ _ Hr Hsb Hstep) as [Hs Hs'].
    destruct ev; try done; congruence.
Qed.

Lemma sidebar_kept st ev st' :
  reachable st -> step ev st = Some st' ->
  terminalSidebar st <> None -> terminalSidebar st' <> None.
Proof.
  intros Hr Hstep Hsb.
  destruct ev as [| |dims|dims|data|k|status|msg|i|i data|i failed];
    (reach_created st Hr; [|done]); unfold step in Hstep.
  - js_cases Hstep. done.
  - js_cases Hstep; done.
  - by simplify_eq.
  - js_cases Hstep; done.
  - js_cases Hstep; done.
  - simpl timers in Hstep. destruct (tms !! k) as [tm|]; [|done].
    destruct (callback tm); js_cases Hstep; done.
  - simpl fetches in Hstep. destruct f; [done|]. js_cases Hstep; done.
  - simpl fetches in Hstep. destruct f; [done|]. js_cases Hstep; done.
  - simpl sockets in Hstep. destruct (socks !! i) as [ws|]; [|done].
    destruct (readyState ws); try done. js_cases Hstep; done.
  - simpl sockets in Hstep. destruct (socks !! i) as [ws|]; [|done].
    destruct (readyState ws); try done. js_cases Hstep; done.
  - simpl sockets in Hstep. destruct (socks !! i) as [ws|]; [|done].
    destruct (readyState ws), failed; try done; js_cases Hstep; done.
Qed.

(** X1. Each event moves the session in one way only. The first command
    moves it from Disconnected to Probing; a health response moves it from
    Probing to Connecting when the status is in the range 200-299 and to
    Disconnected otherwise, as does a request that fails; the opening of
    the socket moves it from Connecting to Connected; its close moves it
    from Connecting or Connected to Reconnecting; the reconnect timer
    moves it from Reconnecting to Probing when the sidebar is shown and to
    Disconnected when it is hidden. Every other event, a later command
    included, leaves the session as it is. *)
Theorem session_transitions st ev st' :
  reachable st -> step ev st = Some st' ->
  match ev with
  | SlashCommand | ToggleCommand =>
      match terminalSidebar st with
      | None => session st = Disconnected /\ session st' = Probing
      | Some _ => session st' = session st
      end
  | Layout _ | WindowResize _ | TerminalData _ => session st' = session st
  | SocketMessage _ _ => session st = Connected /\ session st' = Connected
  | TimerFires k =>
      exists tm, timers st !! k = Some tm /\
        if is_reconnect tm
        then session st = Reconnecting /\
             session st' = (if terminal_shown st then Probing else Disconnected)
        else session st' = session st
  | HealthResponse status =>
      session st = Probing /\
      session st' = if response_ok status then Connecting else Disconnected
  | HealthFailure _ => session st = Probing /\ session st' = Disconnected
  | SocketOpens _ => session st = Connecting /\ session st' = Connected
  | SocketCloses _ _ =>
      (session st = Connecting \/ session st = Connected) /\
      session st' = Reconnecting
  end.
Proof.
  intros Hr Hstep.
  destruct ev as [| |dims|dims|data|k|status|msg|i|i data|i failed].
  - destruct (terminalSidebar st) as [sb0|] eqn:Hsb.
    + eapply session_kept; [done..|]. simpl. congruence.
    + exact (step_session_first _ _ _ Hr Hsb Hstep).
  - destruct (terminalSidebar st) as [sb0|] eqn:Hsb.
    + eapply session_kept; [done..|]. simpl. congruence.
    + exact (step_session_first _ _ _ Hr Hsb Hstep).
  - by eapply session_kept.
  - by eapply session_kept.
  - by eapply session_kept.
  - by apply session_timer.
  - exact (session_probe st (Responded status) st' Hr Hstep).
  - exact (session_probe st (Failed msg) st' Hr Hstep).
  - by eapply session_opens.
  - by destruct (socket_message_frame _ _ _ _ Hr Hstep) as (_ & ? & ?).
  - by eapply session_closes.
Qed.

Lemma session_transitions_witness :
  (session connected_example = Connecting \/ session connected_example = Connected) /\
  session reconnecting_example = Reconnecting.
Proof.
  apply (session_transitions connected_example (SocketCloses 0%nat false)
           reconnecting_example).
  - exact connected_example_reachable.
  - vm_compute. reflexivity.
Defined.

(** A Disconnected session whose sidebar exists stays Disconnected after
    any event. *)
Lemma disconnected_step st ev st' :
  reachable st -> terminalSidebar st <> None -> session st = Disconnected ->
  step ev st = Some st' -> session st' = Disconnected.
Proof.
  intros Hr Hsb Hs Hstep.
  destruct ev as [| |dims|dims|data|k|status|msg|i|i data|i failed];
    try (rewrite <- Hs; by eapply session_kept).
  - destruct (session_timer _ _ _ Hr Hstep) as (tm & _ & H).
    destruct (is_reconnect tm); [|congruence]. destruct H as [H _]. congruence.
  - destruct (session_probe st (Responded status) st' Hr Hstep). congruence.
  - destruct (session_probe st (Failed msg) st' Hr Hstep). congruence.
  - destruct (session_opens _ _ _ Hr Hstep). congruence.
  - destruct (socket_message_frame _ _ _ _ Hr Hstep) as (_ & ? & _). congruence.
  - destruct (session_closes _ _ _ _ Hr Hstep) as [[?|?] _]; congruence.
Qed.

(** X2. Once the sidebar exists, a Disconnected session stays
    Disconnected whatever happens next: after a health request has failed,
    or after the reconnect timer has fired with the sidebar hidden, no
    command, timer or event of the page starts a new health request. *)
Theorem disconnected_is_final st evs st' :
  reachable st -> terminalSidebar st <> None -> session st = Disconnected ->
  run evs st = Some st' ->
  session st' = Disconnected.
Proof.
  revert st. induction evs as [|ev evs IH]; intros st Hr Hsb Hs Hrun.
  - simpl in Hrun. congruence.
  - rewrite run_cons in Hrun.
    destruct (step ev st) as [st1|] eqn:Hstep; [|done].
    apply (IH st1); [by eapply reachable_step|by eapply sidebar_kept| |done].
    by eapply disconnected_step.
Qed.

Lemma probe_failed_example_reachable : reachable probe_failed_example.
Proof.
  apply (run_reachable [HealthResponse 503] probing_example);
    [exact probing_example_reachable|].
  vm_compute. reflexivity.
Qed.

Lemma disconnected_is_final_witness : session retried_example = Disconnected.
Proof.
  apply (disconnected_is_final probe_failed_example retry_events).
  - exact probe_failed_example_reachable.
  - vm_compute. discriminate.
  - vm_compute. reflexivity.
  - vm_compute. reflexivity.
Defined.

(** X3. A Connected session stays Connected until its socket closes:
    no command, input, frame received, timer or resize ends it. *)
Theorem connected_until_close st evs st' :
  reachable st -> session st = Connected ->
  existsb is_close evs = false ->
  run evs st = Some st' ->
  session st' = Connected.
Proof.
  revert st. induction evs as [|ev evs IH]; intros st Hr Hs Hev Hrun.
  - simpl in Hrun. congruence.
  - rewrite run_cons in Hrun. simpl in Hev. apply orb_false_iff in Hev as [Hev Hevs].
    destruct (step ev st) as [st1|] eqn:Hstep; [|done].
    apply (IH st1); [by eapply reachable_step| |done|done].
    assert (terminalSidebar st <> None) as Hsb.
    { intros Hsb. destruct (step_session_first _ _ _ Hr Hsb Hstep). congruence. }
    destruct ev as [| |dims|dims|data|k|status|msg|i|i data|i failed];
      try done; try (rewrite <- Hs; by eapply session_kept).
    + destruct (session_timer _ _ _ Hr Hstep) as (tm & _ & H).
      destruct (is_reconnect tm); [|congruence]. destruct H as [H _]. congruence.
    + destruct (session_probe st (Responded status) st1 Hr Hstep). congruence.
    + destruct (session_probe st (Failed msg) st1 Hr Hstep). congruence.
    + destruct (session_opens _ _ _ Hr Hstep). congruence.
    + by destruct (socket_message_frame _ _ _ _ Hr Hstep) as (_ & _ & ?).
Qed.

Lemma connected_until_close_witness : session busy_example = Connected.
Proof.
  apply (connected_until_close connected_example busy_events).
  - exact connected_example_reachable.
  - vm_compute. reflexivity.
  - reflexivity.
  - vm_compute. reflexivity.
Defined.

(** ** One attempt at a time *)

Lemma live_sockets_app l1 l2 :
  live_sockets (l1 ++ l2) = (live_sockets l1 + live_sockets l2)%nat.
Proof. induction l1 as [|ws l1 IH]; simpl; [done | rewrite IH; lia]. Qed.

Lemma live_sockets_closed l : all_closed l -> live_sockets l = 0%nat.
Proof.
  induction 1 as [|ws l Hws _ IH]; simpl; [done|].
  by rewrite IH, bool_decide_eq_true_2.
Qed.

(** X4. In every reachable state a socket that is not closed is the one
    the variable [websocket] refers to and the one created last; every
    other socket is closed. It is either still connecting, nothing having
    been sent on it or received from it, or open: the plugin itself never
    closes a socket. *)
Theorem live_socket_is_current st i ws :
  reachable st -> sockets st !! i = Some ws -> readyState ws <> CLOSED ->
  websocket st = Some i /\ S i = length (sockets st) /\
  (forall j ws', sockets st !! j = Some ws' -> j <> i -> readyState ws' = CLOSED) /\
  (ws = fresh_socket \/ readyState ws = OPEN).
Proof.
  intros Hr Hi Hlive.
  destruct (reachable_wf _ Hr) as [_ Hweb [s Hc]].
  destruct (chain_live _ _ _ _ _ _ Hc Hi Hlive)
    as (olds & Hs & -> & Hall & _ & _ & Hk).
  rewrite Hweb, Hs, newest_snoc, length_app. simpl.
  split; [done|]. split; [lia|]. split.
  - intros j ws' Hj Hne. apply lookup_lt_Some in Hj as Hlen.
    rewrite length_app in Hlen. simpl in Hlen.
    rewrite lookup_app_l in Hj by lia.
    exact (Forall_lookup_1 _ _ _ _ Hall Hj).
  - destruct Hk as [[? _]|[? _]]; [by left | by right].
Qed.

Lemma live_socket_is_current_witness :
  websocket connected_example = Some 0%nat /\
  1%nat = length (sockets connected_example).
Proof.
  destruct (live_socket_is_current connected_example 0%nat
              {| readyState := OPEN;
                 sent := [Stringify.resize 80 24; Stringify.resize 80 24];
                 received := [] |}) as (Hw & Hl & _).
  - exact connected_example_reachable.
  - vm_compute. reflexivity.
  - discriminate.
  - split; [exact Hw | exact Hl].
Defined.

(** X5. In every reachable state at most one thing is pending that can
    lead to a connection, be it a health request in flight, a socket that
    is not closed or a reconnect timer: there is exactly one unless the
    session is Disconnected, and none then. *)
Theorem one_attempt_at_a_time st :
  reachable st ->
  attempts st = match session st with Disconnected => 0%nat | _ => 1%nat end.
Proof.
  intros Hr. pose proof (reachable_session _ Hr) as Hc. unfold attempts.
  destruct Hc as [Hf Hall Hrec|Hf Hall Hrec|olds Hf Hs Hall Hrec
                 |olds ws Hf Hs Hrs Hall Hrec|Hf Hall Hrec];
    rewrite Hf, Hrec, ?Hs, ?live_sockets_app, ?(live_sockets_closed _ Hall);
    simpl; try done.
  rewrite Hrs. done.
Qed.

Lemma one_attempt_at_a_time_witness :
  attempts reconnecting_example = 1%nat.
Proof.
  exact (one_attempt_at_a_time reconnecting_example reconnecting_example_reachable).
Defined.

(** ** Exceptions *)

Lemma step_dispatch ev st :
  step ev st = (fun p => run_callbacks p.2 p.1) <$> dispatch ev st.
Proof.
  destruct ev as [| |dims|dims|data|k|status|msg|i|i data|i failed];
    unfold step, dispatch; try reflexivity.
  - by destruct (resize_listener st).
  - destruct (terminal st) as [t|]; [|done]. by destruct (onData t).
  - by destruct (timers st !! k).
  - by destruct (fetches st).
  - by destruct (fetches st).
  - destruct (sockets st !! i) as [ws|]; [|done]. by destruct (readyState ws).
  - destruct (sockets st !! i) as [ws|]; [|done]. by destruct (readyState ws).
  - destruct (sockets st !! i) as [ws|]; [|done].
    by destruct (readyState ws), failed.
Qed.

(** Closes the paths of a callback that the ready state rules out. *)
Ltac open_socket_sends :=
  repeat match goal with
         | H : bool_decide _ = true |- _ => apply bool_decide_eq_true in H
         end;
  congruence.

Lemma uncaught_one (cb : js unit) st0 :
  (forall e s, cb st0 <> Abrupt e s) -> uncaught [cb] st0 = [].
Proof.
  intros H. simpl. destruct (cb st0) as [[] s1|e s1] eqn:E; [done|].
  by destruct (H e s1).
Qed.

(** X6. In every reachable state the callbacks of an event all return:
    none throws an exception that is not caught, be it the [TypeError] of
    a handle that is still [undefined] or the [InvalidStateError] of a
    frame sent on a socket that is not open yet. *)
Theorem no_uncaught_exception st ev st0 cbs :
  reachable st -> dispatch ev st = Some (st0, cbs) ->
  uncaught cbs st0 = [].
Proof.
  intros Hr Hd.
  destruct ev as [| |dims|dims|data|k|status|msg|i|i data|i failed];
    unfold dispatch in Hd.
  - reach_created st Hr; simplify_eq.
    + apply uncaught_one; intros e s1 E.
      js_cases E.
    + vm_compute. reflexivity.
  - reach_created st Hr; simplify_eq.
    + apply uncaught_one; intros e s1 E.
      js_cases E.
    + vm_compute. reflexivity.
  - by simplify_eq.
  - reach_created st Hr; simplify_eq; [|done].
    apply uncaught_one; intros e s1 E.
    js_cases E; open_socket_sends.
  - reach_created st Hr; [|done]. simpl in Hd. rewrite Hod in Hd. simplify_eq.
    apply uncaught_one; intros e s1 E.
    js_cases E; open_socket_sends.
  - reach_created st Hr; [|by destruct k]. simpl timers in Hd.
    destruct (tms !! k) as [tm|] eqn:Hk; [|done]. simplify_eq.
    apply uncaught_one; intros e s1 E.
    destruct (callback tm); js_cases E; open_socket_sends.
  - reach_created st Hr; [|done]. simpl fetches in Hd.
    destruct f as [|n]; [done|]. simplify_eq.
    apply uncaught_one; intros e s1 E.
    js_cases E.
  - reach_created st Hr; [|done]. simpl fetches in Hd.
    destruct f as [|n]; [done|]. simplify_eq.
    apply uncaught_one; intros e s1 E.
    js_cases E.
  - reach_created st Hr; [|by destruct i]. simpl sockets in Hd.
    destruct (socks !! i) as [ws|] eqn:Hi; [|done].
    destruct (readyState ws) eqn:Hrs; try done. simplify_eq.
    edestruct (chain_opens _ _ _ _ i ws
                 {| readyState := OPEN; sent := sent ws; received := received ws |}
                 Hc Hi Hrs) as (-> & Hnew & _); [done|].
    rewrite Hnew in *.
    apply uncaught_one; intros e s1 E.
    unfold set_readyState in E. simpl in E.
    js_cases E; rewrite list_lookup_insert_eq in *
      by (by eapply lookup_lt_Some); simplify_eq/=.
  - reach_created st Hr; [|by destruct i]. simpl sockets in Hd.
    destruct (socks !! i) as [ws|] eqn:Hi; [|done].
    destruct (readyState ws) eqn:Hrs; try done. simplify_eq.
    apply uncaught_one; intros e s1 E.
    js_cases E.
  - reach_created st Hr; [|by destruct i]. simpl sockets in Hd.
    destruct (socks !! i) as [ws|] eqn:Hi; [|done].
    assert (exists st1, onclose (set_readyState i ws CLOSED
              {| terminal := Some t; fitAddon := Some tt; terminalSidebar := Some sb;
                 websocket := newest socks; sockets := socks; timers := tms;
                 fetches := f; container := cont; resize_listener := true;
                 console := cons; shown := sh |}) = Normal tt st1) as [st1 Hclose].
    { eexists. js_unfold. simpl. reflexivity. }
    assert (exists st1 st2,
              onerror (set_readyState i ws CLOSED
              {| terminal := Some t; fitAddon := Some tt; terminalSidebar := Some sb;
                 websocket := newest socks; sockets := socks; timers := tms;
                 fetches := f; container := cont; resize_listener := true;
                 console := cons; shown := sh |}) = Normal tt st1 /\
              onclose st1 = Normal tt st2) as (st2 & st3 & Herror & Hclose').
    { eexists _, _. js_unfold. simpl. split; reflexivity. }
    destruct (readyState ws), failed; simplify_eq; simpl;
      rewrite ?Herror, ?Hclose', ?Hclose; done.
Qed.

Lemma no_uncaught_exception_witness :
  exists st0,
    dispatch (SocketMessage 0%nat (lit "not json")) connected_example =
      Some (st0, [onmessage (lit "not json")]) /\
    uncaught [onmessage (lit "not json")] st0 = [].
Proof.
  eexists. split; [vm_compute; reflexivity|].
  apply (no_uncaught_exception connected_example
           (SocketMessage 0%nat (lit "not json"))).
  - exact connected_example_reachable.
  - vm_compute. reflexivity.
Defined.

(** ** Frames sent *)

Lemma frames_in_order_sent ws f r :
  frames_in_order ws -> readyState ws = OPEN -> client_frame f ->
  frames_in_order {| readyState := OPEN; sent := sent ws ++ [f]; received := r |}.
Proof.
  unfold frames_in_order. simpl. intros H Ho Hf.
  destruct (sent ws) as [|f0 rest]; [done|]. simpl.
  destruct H as [H0 Hrest]. split; [done|].
  apply Forall_app. split; [done|]. by constructor.
Qed.

Lemma frames_in_order_same ws ws' :
  sent ws' = sent ws -> (readyState ws' = OPEN -> readyState ws = OPEN) ->
  frames_in_order ws -> frames_in_order ws'.
Proof.
  unfold frames_in_order. intros -> Hrs H.
  destruct (sent ws); [|done]. intros Ho. by apply H, Hrs.
Qed.

Lemma frames_in_order_ext (l l' : list WebSocketObj) :
  sent <$> l' = sent <$> l -> readyState <$> l' = readyState <$> l ->
  Forall frames_in_order l -> Forall frames_in_order l'.
Proof.
  intros Hs Hrs Hall. revert l' Hs Hrs.
  induction Hall as [|ws l Hws _ IH]; intros [|ws' l'] Hs Hrs; simplify_eq/=.
  - constructor.
  - constructor; [|by apply IH].
    eapply frames_in_order_same; [done| |done]. congruence.
Qed.

Lemma resize_is_client_frame c r : client_frame (Stringify.resize c r).
Proof. right. by exists c, r. Qed.

Lemma input_is_client_frame data : client_frame (Stringify.input data).
Proof. left. by exists data. Qed.

(** Closes [Forall frames_in_order] on the sockets a callback leaves. *)
Ltac frames_kept Hall :=
  simpl;
  first
    [ exact Hall
    | apply Forall_insert; [exact Hall|];
      match goal with
      | Hi : ?socks !! ?i = Some ?w |- _ =>
          pose proof (Forall_lookup_1 _ _ _ _ Hall Hi);
          first
            [ apply (frames_in_order_sent w); simpl;
              [ done
              | repeat match goal with
                       | H : bool_decide _ = true |- _ =>
                           apply bool_decide_eq_true in H
                       end; congruence
              | first [apply resize_is_client_frame | apply input_is_client_frame] ]
            | apply (frames_in_order_same w); simpl; [done|congruence|done] ]
      end
    | apply Forall_app; split; [exact Hall|];
      constructor; [by unfold frames_in_order|constructor] ].

Lemma step_frames_in_order st ev st' :
  reachable st -> Forall frames_in_order (sockets st) ->
  step ev st = Some st' ->
  Forall frames_in_order (sockets st').
Proof.
  intros Hr Hall Hstep.
  destruct (terminalSidebar st) as [sb0|] eqn:Hsb.
  2:{ assert (timers st = [] /\ fetches st = 0%nat /\ sockets st = [] /\
              terminal st = None /\ resize_listener st = false /\
              websocket st = None)
        as (Ht & Hf & Hso & Hte & Hrl & Hw).
      { reach_created st Hr; [done|]. simpl in Hweb. by subst w. }
      destruct ev as [| |dims|dims|data|k|status|msg|i|i data|i failed];
        unfold step in Hstep; rewrite ?Ht, ?Hf, ?Hso, ?Hte, ?Hrl in Hstep;
        try done.
      - reach_created st Hr; [done|]. apply (inj Some) in Hstep. subst st'.
        simpl in Hweb. subst w.
        eassert (final (openTerminal _) = _) as -> by (vm_compute; reflexivity).
        constructor.
      - reach_created st Hr; [done|]. apply (inj Some) in Hstep. subst st'.
        simpl in Hweb. subst w.
        eassert (final (toggleTerminal _) = _) as -> by (vm_compute; reflexivity).
        constructor.
      - simplify_eq. simpl. by rewrite Hso.
      - simplify_eq. simpl. by rewrite Hso. }
  destruct ev as [| |dims|dims|data|k|status|msg|i|i data|i failed].
  - reach_created st Hr; [|done]. unfold step in Hstep. simpl in Hall.
    js_cases Hstep. frames_kept Hall.
  - reach_created st Hr; [|done]. unfold step in Hstep. simpl in Hall.
    js_cases Hstep; frames_kept Hall.
  - unfold step in Hstep. by simplify_eq.
  - reach_created st Hr; [|done]. unfold step in Hstep. simpl in Hall.
    js_cases Hstep; frames_kept Hall.
  - reach_created st Hr; [|done]. unfold step in Hstep. simpl in Hall.
    js_cases Hstep; frames_kept Hall.
  - reach_created st Hr; [|done]. unfold step in Hstep. simpl in Hall.
    simpl timers in Hstep. destruct (tms !! k) as [tm|]; [|done].
    destruct (callback tm); js_cases Hstep; frames_kept Hall.
  - reach_created st Hr; [|done]. unfold step in Hstep. simpl in Hall.
    js_cases Hstep; frames_kept Hall.
  - reach_created st Hr; [|done]. unfold step in Hstep. simpl in Hall.
    js_cases Hstep; frames_kept Hall.
  - destruct (socket_opens_step _ _ _ Hr Hstep)
      as (t & olds & _ & Hs & _ & _ & _ & -> & _).
    rewrite Hs in Hall. apply Forall_app in Hall as [Holds _].
    apply Forall_app. split; [done|]. constructor; [|constructor].
    split; [by eexists _, _ | constructor].
  - destruct (socket_message_frame _ _ _ _ Hr Hstep) as ((_ & Hrs & Hs & _) & _).
    by eapply frames_in_order_ext.
  - reach_created st Hr; [|done]. unfold step in Hstep. simpl in Hall.
    simpl sockets in Hstep. destruct (socks !! i) as [ws|] eqn:Hi; [|done].
    destruct (readyState ws) eqn:Hrs, failed; try done;
      js_cases Hstep; frames_kept Hall.
Qed.

(** X7. On every socket, in every reachable state, the first frame sent
    is a resize frame and every later one is an input frame or a resize
    frame; an open socket has sent its resize frame. *)
Theorem resize_frame_comes_first st i ws :
  reachable st -> sockets st !! i = Some ws ->
  match sent ws with
  | [] => readyState ws <> OPEN
  | f :: rest =>
      (exists c r, f = Stringify.resize c r) /\
      Forall (fun f' => (exists data, f' = Stringify.input data) \/
                        (exists c r, f' = Stringify.resize c r)) rest
  end.
Proof.
  intros Hr Hi.
  assert (Forall frames_in_order (sockets st)) as Hall.
  { clear Hi. induction Hr as [dims|st ev st' Hr IH Hstep].
    - constructor.
    - by eapply step_frames_in_order. }
  exact (Forall_lookup_1 _ _ _ _ Hall Hi).
Qed.

Lemma busy_example_reachable : reachable busy_example.
Proof.
  apply (run_reachable busy_events connected_example);
    [exact connected_example_reachable|].
  vm_compute. reflexivity.
Qed.

Lemma resize_frame_comes_first_witness :
  exists c r rest, frames_sent busy_example = Stringify.resize c r :: rest.
Proof.
  pose proof (resize_frame_comes_first busy_example 0%nat _ busy_example_reachable
                (eq_refl : sockets busy_example !! 0%nat = Some _)) as H.
  simpl in H. destruct H as [(c & r & E) _].
  exists c, r. eexists. unfold frames_sent. simpl. rewrite <- E. reflexivity.
Defined.

(** X8. A resize frame built from two integers below [2 ^ 53], which a
    Number holds exactly and [JSON.stringify] prints digit for digit (the
    grid of a terminal is far below), decodes to an object whose [type]
    is the string resize and whose [cols] and [rows] are numbers written
    in decimal digits that denote the two integers. *)
Theorem resize_frame_round_trip c r :
  c < 2 ^ 53 -> r < 2 ^ 53 ->
  exists lc lr,
    JSON_parse (Stringify.resize c r) =
      Some (JObj [(lit "type", JStr (lit "resize"));
                  (lit "cols", JNum lc); (lit "rows", JNum lr)]) /\
    int_lexeme lc /\ decimal_value lc = c /\
    int_lexeme lr /\ decimal_value lr = r.
Proof.
  intros _ _. exists (Number_toString c), (Number_toString r).
  split; [apply JSON_parse_resize|].
  destruct (NumberFacts.Number_toString_spec c) as [Hc Hvc].
  destruct (NumberFacts.Number_toString_spec r) as [Hr Hvr].
  done.
Qed.

Lemma resize_frame_round_trip_witness :
  JSON_parse (Stringify.resize 80 24) =
    Some (JObj [(lit "type", JStr (lit "resize"));
                (lit "cols", JNum (lit "80")); (lit "rows", JNum (lit "24"))]) /\
  decimal_value (lit "80") = 80 /\ decimal_value (lit "24") = 24.
Proof.
  destruct (resize_frame_round_trip 80 24) as (lc & lr & Hp & _ & Hc & _ & Hr);
    [reflexivity | reflexivity |].
  assert (JSON_parse (Stringify.resize 80 24) =
          Some (JObj [(lit "type", JStr (lit "resize"));
                      (lit "cols", JNum (lit "80")); (lit "rows", JNum (lit "24"))]))
    as Hq by (vm_compute; reflexivity).
  split; [exact Hq|]. rewrite Hq in Hp. injection Hp as <- <-.
  split; [exact Hc | exact Hr].
Defined.

(** ** Refitting the terminal *)

(** What [fit_and_send_resize] leaves, run by the listener of the window
    or by the timer of [openTerminal]. *)
Lemma refit_step st ev st' :
  reachable st -> step ev st = Some st' ->
  (exists dims, ev = WindowResize dims /\ terminalSidebar st <> None) \/
  (exists k tm, ev = TimerFires k /\ timers st !! k = Some tm /\
                callback tm = FitAndResize) ->
  viewport st' = Some (container st') /\
  frames_sent st' =
    frames_sent st ++
    (if websocket_open st
     then [Stringify.resize (fst (container st')) (snd (container st'))]
     else []).
Proof.
  intros Hr Hstep Hev. split.
  - destruct Hev as [(dims & -> & Hsb)|(k & tm & -> & Hk & Hcb)];
      (reach_created st Hr; [|done]); unfold step in Hstep.
    + js_cases Hstep; unfold viewport; simpl; by destruct dims.
    + simpl in Hk. simpl timers in Hstep. rewrite Hk, Hcb in Hstep.
      js_cases Hstep; unfold viewport; simpl; by destruct cont.
  - destruct (websocket_open st) eqn:Ho.
    + apply websocket_open_spec in Ho as (i & ws & Hi & Hws & Hrs).
      destruct Hev as [(dims & -> & Hsb)|(k & tm & -> & Hk & Hcb)];
        (reach_created st Hr; [|done]); unfold step in Hstep;
        simpl in Hi, Hws; rewrite Hi in Hstep |- *.
      * js_cases Hstep; try open_socket_sends;
          try (match goal with
               | H : bool_decide _ = false |- _ => apply bool_decide_eq_false in H
               end; congruence).
        unfold frames_sent. simpl. simplify_eq/=.
        rewrite list_lookup_insert_eq by (by eapply lookup_lt_Some).
        match goal with E : socks !! i = Some _ |- _ => by rewrite E end.
      * simpl in Hk. simpl timers in Hstep. rewrite Hk, Hcb in Hstep.
        js_cases Hstep; try open_socket_sends;
          try (match goal with
               | H : bool_decide _ = false |- _ => apply bool_decide_eq_false in H
               end; congruence).
        unfold frames_sent. simpl. simplify_eq/=.
        rewrite list_lookup_insert_eq by (by eapply lookup_lt_Some).
        match goal with E : socks !! i = Some _ |- _ => by rewrite E end.
    + rewrite app_nil_r.
      destruct Hev as [(dims & -> & Hsb)|(k & tm & -> & Hk & Hcb)];
        (reach_created st Hr; [|done]); unfold step in Hstep;
        unfold websocket_open in Ho; simpl in Ho.
      * js_cases Hstep; unfold frames_sent; simpl; try done; congruence.
      * simpl in Hk. simpl timers in Hstep. rewrite Hk, Hcb in Hstep.
        js_cases Hstep; unfold frames_sent; simpl; try done; congruence.
Qed.

(** X9. The resize listener of the window and the timer of
    [openTerminal] give the terminal the grid that fits its container;
    when the websocket is OPEN they send one resize frame with that grid,
    and otherwise they send nothing. The session is what it was. *)
Theorem refit_sends_grid st ev st' :
  reachable st -> step ev st = Some st' ->
  (exists dims, ev = WindowResize dims /\ terminalSidebar st <> None) \/
  (exists k tm, ev = TimerFires k /\ timers st !! k = Some tm /\
                callback tm = FitAndResize) ->
  viewport st' = Some (container st') /\
  frames_sent st' =
    frames_sent st ++
    (if websocket_open st
     then [Stringify.resize (fst (container st')) (snd (container st'))]
     else []) /\
  session st' = session st.
Proof.
  intros Hr Hstep Hev.
  destruct (refit_step _ _ _ Hr Hstep Hev) as [Hv Hf].
  split; [done|]. split; [done|].
  destruct Hev as [(dims & -> & _)|(k & tm & -> & Hk & Hcb)];
    [by eapply session_kept|].
  destruct (session_timer _ _ _ Hr Hstep) as (tm' & Hk' & H). simplify_eq.
  unfold is_reconnect in H. by rewrite Hcb in H.
Qed.

Lemma refit_sends_grid_witness :
  viewport resized_example = Some (100, 30) /\
  frames_sent resized_example =
    frames_sent connected_example ++ [Stringify.resize 100 30].
Proof.
  destruct (refit_sends_grid connected_example (WindowResize (100, 30))
              resized_example) as (Hv & Hf & _).
  - exact connected_example_reachable.
  - vm_compute. reflexivity.
  - left. exists (100, 30). split; [reflexivity|]. vm_compute. discriminate.
  - split; [exact Hv | exact Hf].
Defined.

(** X10. When a socket opens, the plugin sends on it one frame, the
    resize frame of the grid the terminal has at that moment, which is
    the first frame of the socket; the variable [websocket] refers to
    that socket and the grid is not changed. *)
Theorem stream_open_sends_viewport st i st' :
  reachable st -> step (SocketOpens i) st = Some st' ->
  exists c r,
    viewport st = Some (c, r) /\ viewport st' = Some (c, r) /\
    websocket st' = Some i /\
    frames_sent st' = [Stringify.resize c r] /\
    JSON_parse (Stringify.resize c r) = Some (resize_message c r).
Proof.
  intros Hr Hstep.
  destruct (socket_opens_step _ _ _ Hr Hstep)
    as (t & olds & Ht & Hs & -> & Hall & Hw' & Hs' & _ & Hv & _).
  exists (cols t), (rows t).
  assert (viewport st = Some (cols t, rows t)) as Hv0.
  { unfold viewport. by rewrite Ht. }
  split; [done|]. split; [congruence|]. split; [done|]. split.
  - unfold frames_sent. by rewrite Hw', Hs', lookup_snoc_last.
  - apply JSON_parse_resize.
Qed.

Lemma stream_open_sends_viewport_witness :
  exists c r,
    viewport reopening_example = Some (c, r) /\
    frames_sent reopened_example = [Stringify.resize c r].
Proof.
  destruct (stream_open_sends_viewport reopening_example 1%nat reopened_example)
    as (c & r & Hv & _ & _ & Hf & _).
  - exact reopening_example_reachable.
  - vm_compute. reflexivity.
  - exists c, r. split; [exact Hv | exact Hf].
Defined.

(** ** Frames received *)

Lemma input_is_not_output :
  strict_equals_string (JStr (lit "input")) (lit "output") = false /\
  strict_equals_string (JStr (lit "input")) (lit "error") = false /\
  strict_equals_string (JStr (lit "resize")) (lit "output") = false /\
  strict_equals_string (JStr (lit "resize")) (lit "error") = false.
Proof. vm_compute. repeat split; reflexivity. Qed.

(** X11. A frame of the kind the plugin sends, input or resize, changes
    nothing when it is received: nothing is written to the terminal or
    logged, nothing is sent, closed or scheduled. *)
Theorem own_frames_ignored st i f st' :
  reachable st -> step (SocketMessage i f) st = Some st' ->
  (exists data, f = Stringify.input data) \/ (exists c r, f = Stringify.resize c r) ->
  (exists ws, sockets st !! i = Some ws /\ st' = deliver i ws f st) /\
  screen st' = screen st /\ console st' = console st /\
  stream_untouched st st'.
Proof.
  intros Hr Hstep Hf.
  destruct (socket_message_frame _ _ _ _ Hr Hstep) as (Hu & _ & _).
  destruct (socket_message_step _ _ _ _ Hr Hstep)
    as (ws & t & Hi & Hrs & Hw & Ht & ->).
  destruct input_is_not_output as (Hio & Hie & Hro & Hre).
  assert (onmessage f (deliver i ws f st) = Normal tt (deliver i ws f st)) as E.
  { destruct Hf as [[data ->]|(c & r & ->)].
    - eapply onmessage_ignored; [apply JSON_parse_input|reflexivity|done|done].
    - eapply onmessage_ignored; [apply JSON_parse_resize|reflexivity|done|done]. }
  rewrite E in *. simpl. split; [by exists ws|]. done.
Qed.

Lemma own_frames_ignored_witness :
  screen echo_example = screen connected_example /\
  console echo_example = console connected_example.
Proof.
  destruct (own_frames_ignored connected_example 0%nat
              (Stringify.input (lit "ls")) echo_example) as (_ & Hs & Hc & _).
  - exact connected_example_reachable.
  - vm_compute. reflexivity.
  - left. by exists (lit "ls").
  - split; [exact Hs | exact Hc].
Defined.

(** X12. The [data] of an output or error frame is not checked before it
    is used. An output frame whose [data] is absent or [null] makes
    [write] throw, an error frame whose [data] cannot be converted to a
    string makes the template literal throw: the [TypeError] is caught
    like the error of a text that is no JSON, it is logged and the text of
    the frame is written to the terminal as it came; nothing is sent,
    closed or scheduled. *)
Theorem unusable_payload_is_caught st i raw st' fields :
  reachable st -> step (SocketMessage i raw) st = Some st' ->
  JSON_parse raw = Some (JObj fields) ->
  (own_property (lit "type") fields = Some (JStr (lit "output")) /\
   (own_property (lit "data") fields = None \/
    own_property (lit "data") fields = Some JNull)) \/
  (own_property (lit "type") fields = Some (JStr (lit "error")) /\
   ToString_throws (default JUndefined (own_property (lit "data") fields)) = true) ->
  screen st' = screen st ++ [TWrite (JStr raw)] /\
  console st' =
    console st ++
    [ConsoleError (lit "Error parsing WebSocket message:") JsTypeError] /\
  stream_untouched st st' /\ session st' = Connected.
Proof.
  intros Hr Hstep Hp Hbad.
  destruct (socket_message_frame _ _ _ _ Hr Hstep) as (Hu & _ & Hs).
  destruct (socket_message_step _ _ _ _ Hr Hstep)
    as (ws & t & Hi & Hrs & Hw & Ht & ->).
  assert (onmessage raw (deliver i ws raw st) =
          Normal tt (add_call (TWrite (JStr raw))
                       (add_console
                          (ConsoleError (lit "Error parsing WebSocket message:")
                             JsTypeError)
                          (deliver i ws raw st)))) as E.
  { destruct Hbad as [[Hty Hdata]|[Hty Hdata]].
    - eapply onmessage_unusable;
        [exact Ht|exact Hp|simpl; by rewrite Hty|reflexivity|].
      left. split; [by apply strict_equals_string_true|].
      by destruct Hdata as [->| ->].
    - eapply onmessage_unusable;
        [exact Ht|exact Hp|simpl; by rewrite Hty|reflexivity|].
      right. split; [exact error_is_not_output|]. split; [exact error_is_error|].
      rewrite error_line_eq. by rewrite Hdata. }
  rewrite E in *. simpl. split; [by erewrite screen_add_call|].
  split; [by rewrite console_add_call|]. done.
Qed.

Lemma unusable_payload_is_caught_witness :
  JSON_parse bare_output_frame = Some (JObj [(lit "type", JStr (lit "output"))]) /\
  step (SocketMessage 0%nat bare_output_frame) connected_example =
    Some bare_output_example /\
  screen bare_output_example =
    screen connected_example ++ [TWrite (JStr bare_output_frame)] /\
  console bare_output_example =
    console connected_example ++
    [ConsoleError (lit "Error parsing WebSocket message:") JsTypeError].
Proof.
  assert (JSON_parse bare_output_frame =
          Some (JObj [(lit "type", JStr (lit "output"))])) as Hp
    by (vm_compute; reflexivity).
  assert (step (SocketMessage 0%nat bare_output_frame) connected_example =
          Some bare_output_example) as Hstep by (vm_compute; reflexivity).
  split; [exact Hp|]. split; [exact Hstep|].
  destruct (unusable_payload_is_caught connected_example 0%nat bare_output_frame
              bare_output_example [(lit "type", JStr (lit "output"))]
              connected_example_reachable Hstep Hp) as (Hs & Hc & _).
  - left. split; [|left]; vm_compute; reflexivity.
  - split; [exact Hs | exact Hc].
Defined.

(** ** The socket fails *)

(** X13. A socket that fails is handled as one that closes, after the
    error has been logged and reported on the terminal: [onerror] itself
    schedules nothing, the reconnect timer being the one of [onclose]. *)
Theorem failed_socket_closes st i st1 :
  reachable st -> step (SocketCloses i true) st = Some st1 ->
  exists st0,
    step (SocketCloses i false) st = Some st0 /\
    websocket st1 = websocket st0 /\ sockets st1 = sockets st0 /\
    timers st1 = timers st0 /\ fetches st1 = fetches st0 /\
    timers st1 = timers st ++ [reconnect_timer] /\
    screen st0 = screen st ++ [TWriteln disconnected_line] /\
    screen st1 =
      screen st ++ [TWriteln websocket_error_line; TWriteln disconnected_line] /\
    console st1 =
      console st ++ [ConsoleError (lit "WebSocket error:") ErrorEvent;
                     DebugLog [Text (lit "WebSocket disconnected")]].
Proof.
  intros Hr Hstep. reach_created st Hr; [|by destruct i].
  unfold step in Hstep |- *. simpl sockets in Hstep |- *.
  destruct (socks !! i) as [ws|] eqn:Hi; [|done].
  destruct (readyState ws) eqn:Hrs; try done;
    (eexists; split; [reflexivity|]);
    js_cases Hstep; js_unfold; simpl; unfold screen; simpl;
    rewrite <- ?app_assoc; done.
Qed.

Lemma failed_socket_closes_witness :
  screen failed_example =
    screen connected_example ++
    [TWriteln websocket_error_line; TWriteln disconnected_line] /\
  timers failed_example = timers connected_example ++ [reconnect_timer].
Proof.
  destruct (failed_socket_closes connected_example 0%nat failed_example)
    as (st0 & _ & _ & _ & _ & _ & Ht & _ & Hs & _).
  - exact connected_example_reachable.
  - vm_compute. reflexivity.
  - split; [exact Hs | exact Ht].
Defined.

(** ** Commands *)

(** X14. [toggleTerminal] returns from every state without entering its
    [catch] block: what it logs are lines of [debugLog], not an error.
    The handler of the
    toolbar button and the click listener of the button, which call it,
    return as well, and leave the state [toggleTerminal] leaves, up to
    the console and the messages shown. Called before the sidebar
    exists, [toggleTerminal] leaves the state [openTerminal] leaves, up to
    the same. *)
Theorem toggle_handlers_agree st :
  exists st1 st2 st3 lines,
    toggleTerminal st = Normal tt st1 /\
    console st1 = console st ++ map DebugLog lines /\
    model_toggleTerminal st = Normal tt st2 /\
    button_click_listener st = Normal tt st3 /\
    forget_log st2 = forget_log st1 /\
    forget_log st3 = forget_log st1 /\
    (terminalSidebar st = None ->
     forget_log st1 = forget_log (final (openTerminal st))).
Proof.
  destruct st as [term fa sb w socks tms f cont rl cons sh].
  destruct sb as [[d]|]; [destruct (jsstring_eqb d (lit "none")) eqn:Hd|].
  - do 3 eexists; exists
      [[Text (lit "toggleTerminal function called")];
       [Text (lit "Showing terminal sidebar")]].
    unfold model_toggleTerminal, button_click_listener. js_unfold. simpl.
    rewrite Hd. simpl. rewrite <- !app_assoc. simpl.
    split; [reflexivity|]. split; [reflexivity|]. split; [reflexivity|].
    split; [reflexivity|]. split; [reflexivity|]. split; [reflexivity|].
    intros [=].
  - do 3 eexists; exists
      [[Text (lit "toggleTerminal function called")];
       [Text (lit "Hiding terminal sidebar")]].
    unfold model_toggleTerminal, button_click_listener. js_unfold. simpl.
    rewrite Hd. simpl. rewrite <- !app_assoc. simpl.
    split; [reflexivity|]. split; [reflexivity|]. split; [reflexivity|].
    split; [reflexivity|]. split; [reflexivity|]. split; [reflexivity|].
    intros [=].
  - do 3 eexists; exists
      [[Text (lit "toggleTerminal function called")];
       [Text (lit "Terminal sidebar does not exist, creating it")];
       [Text (lit "Connecting to backend server at " ++ BACKEND_URL)]].
    lazy -[app lit BACKEND_URL]. rewrite <- !app_assoc. simpl app.
    split; [reflexivity|]. split; [reflexivity|]. split; [reflexivity|].
    split; [reflexivity|]. split; [reflexivity|]. split; [reflexivity|].
    intros _. reflexivity.
Qed.

(** X15. [openTerminal] creates the terminal and connects only once.
    The first command leaves a terminal fitted to its container, with
    nothing written on it and both listeners in place, one health request
    in flight, no socket, and the timer that refits the terminal. A later
    command shows the sidebar and adds such a timer, and nothing else. *)
Theorem open_terminal_creates_once st st' :
  reachable st -> step SlashCommand st = Some st' ->
  st' =
  match terminalSidebar st with
  | None => created st
  | Some _ =>
      set_timers (timers st ++ [fit_timer])
        (set_terminalSidebar (Some {| display := lit "flex" |}) st)
  end.
Proof.
  intros Hr Hstep. reach_created st Hr.
  - unfold step in Hstep. apply (inj Some) in Hstep. subst st'.
    lazy -[app lit]. reflexivity.
  - simpl in Hweb. subst w. unfold step in Hstep.
    apply (inj Some) in Hstep. subst st'.
    lazy -[app lit BACKEND_URL]. reflexivity.
Qed.

Lemma open_terminal_creates_once_witness :
  sockets opened_again_example = sockets connected_example /\
  fetches opened_again_example = 0%nat /\
  timers opened_again_example = [fit_timer].
Proof.
  pose proof (open_terminal_creates_once connected_example opened_again_example
                connected_example_reachable) as H.
  rewrite H by (vm_compute; reflexivity).
  repeat split.
Defined.

(** X16. The toggle command flips the visibility of a sidebar that
    exists: a shown one is hidden, and a hidden one is shown, with a timer
    that refits the terminal. Sockets, timers of other kinds, health
    requests, the screen and the grid are left as they are. *)
Theorem toggle_flips_visibility st st' :
  reachable st -> terminalSidebar st <> None ->
  step ToggleCommand st = Some st' ->
  terminal_shown st' = negb (terminal_shown st) /\
  timers st' = timers st ++ (if terminal_shown st then [] else [refit_timer]) /\
  websocket st' = websocket st /\ sockets st' = sockets st /\
  fetches st' = fetches st /\ terminal st' = terminal st.
Proof.
  intros Hr Hsb Hstep. reach_created st Hr; [|done].
  unfold step in Hstep. unfold terminal_shown. simpl terminalSidebar.
  destruct sb as [d]. simpl display.
  js_cases Hstep; simpl; rewrite ?app_nil_r;
    (split; [vm_compute; reflexivity|]); repeat split; done.
Qed.

Lemma toggle_flips_visibility_witness :
  terminal_shown hidden_example = false /\
  timers hidden_example = timers connected_example.
Proof.
  destruct (toggle_flips_visibility connected_example hidden_example)
    as (Hs & Ht & _).
  - exact connected_example_reachable.
  - vm_compute. discriminate.
  - vm_compute. reflexivity.
  - split; [exact Hs | exact Ht].
Defined.

(** ** A session that is dropped and resumed *)

Lemma sessions_cons ev evs st :
  sessions (ev :: evs) st =
  session st :: match step ev st with
                | Some st' => sessions evs st'
                | None => []
                end.
Proof. done. Qed.

Lemma socket_closes_sidebar st i failed st' :
  reachable st -> step (SocketCloses i failed) st = Some st' ->
  terminalSidebar st' = terminalSidebar st.
Proof.
  intros Hr Hstep. reach_created st Hr; [|by destruct i].
  unfold step in Hstep. simpl sockets in Hstep.
  destruct (socks !! i) as [ws|]; [|done].
  destruct (readyState ws), failed; try done; js_cases Hstep; done.
Qed.

Lemma session_connecting_inv st :
  session st = Connecting ->
  exists j ws, sockets st !! j = Some ws /\ readyState ws = CONNECTING.
Proof.
  unfold session, waiting. intros H.
  destruct (websocket st) as [j|].
  - destruct (sockets st !! j) as [ws|] eqn:Hj.
    + exists j, ws. split; [done|].
      destruct (readyState ws); try done;
        destruct (fetches st); try done;
        by destruct (existsb is_reconnect (timers st)).
    + destruct (fetches st); try done.
      by destruct (existsb is_reconnect (timers st)).
  - destruct (fetches st); try done.
    by destruct (existsb is_reconnect (timers st)).
Qed.

Lemma session_probing_inv st :
  reachable st -> session st = Probing -> fetches st = 1%nat.
Proof.
  intros Hr Hs. pose proof (reachable_session _ Hr) as Hc. rewrite Hs in Hc.
  by inversion Hc.
Qed.

(** X17. A Connected session whose socket closes, by failure or not, is
    resumed without the user when the sidebar is shown: the reconnect
    timer that [onclose] has scheduled can fire, the health request it
    issues can be answered, and when the answer has a status in the range
    200-299 a new socket is created and can open. The session is then
    Connected again, having been Reconnecting, Probing and Connecting. *)
Theorem dropped_session_resumes st i failed status :
  reachable st -> session st = Connected -> websocket st = Some i ->
  terminal_shown st = true -> response_ok status = true ->
  exists k j,
    sessions (drop_and_resume i failed k status j) st =
    [Connected; Reconnecting; Probing; Connecting; Connected].
Proof.
  intros Hr Hs Hw Hshown Hok.
  pose proof (proj1 (session_connected st) Hs) as Ho.
  apply websocket_open_spec in Ho as (i' & ws & Hi' & Hws & Hrs).
  assert (i' = i) as -> by congruence.
  (* the socket closes *)
  assert (exists st1, step (SocketCloses i failed) st = Some st1) as [st1 H1].
  { unfold step. rewrite Hws, Hrs. by eexists. }
  assert (reachable st1) as Hr1 by (by eapply reachable_step).
  destruct (socket_closes_step _ _ _ _ Hr H1) as (Ht1 & _ & _ & Hs1).
  pose proof (socket_closes_sidebar _ _ _ _ Hr H1) as Hsb1.
  assert (terminal_shown st1 = true) as Hshown1.
  { unfold terminal_shown in *. by rewrite Hsb1. }
  (* the timer fires *)
  set (k := length (timers st)).
  assert (timers st1 !! k = Some reconnect_timer) as Hk.
  { rewrite Ht1. by apply list_lookup_middle. }
  assert (exists st2, step (TimerFires k) st1 = Some st2) as [st2 H2].
  { unfold step. rewrite Hk. by eexists. }
  assert (reachable st2) as Hr2 by (by eapply reachable_step).
  destruct (reconnect_timer_step _ _ _ _ Hr1 Hk eq_refl H2) as (_ & _ & _ & Hp).
  rewrite Hshown1 in Hp. destruct Hp as [Hf2 Hs2].
  (* the health request is answered *)
  assert (exists st3, step (HealthResponse status) st2 = Some st3) as [st3 H3].
  { unfold step. rewrite Hf2. by eexists. }
  assert (reachable st3) as Hr3 by (by eapply reachable_step).
  pose proof (session_probe st2 (Responded status) st3 Hr2 H3) as [_ Hs3].
  simpl in Hs3. rewrite Hok in Hs3.
  (* the new socket opens *)
  destruct (session_connecting_inv _ Hs3) as (j & ws3 & Hj & Hrs3).
  assert (exists st4, step (SocketOpens j) st3 = Some st4) as [st4 H4].
  { unfold step. rewrite Hj, Hrs3. by eexists. }
  pose proof (session_opens _ _ _ Hr3 H4) as [_ Hs4].
  exists k, j. unfold drop_and_resume.
  rewrite sessions_cons, H1, sessions_cons, H2, sessions_cons, H3,
    sessions_cons, H4.
  simpl. by rewrite Hs, Hs1, Hs2, Hs3, Hs4.
Qed.

Lemma dropped_session_resumes_witness :
  exists k j,
    sessions (drop_and_resume 0%nat true k 200 j) connected_example =
    [Connected; Reconnecting; Probing; Connecting; Connected].
Proof.
  apply (dropped_session_resumes connected_example 0%nat true 200).
  - exact connected_example_reachable.
  - vm_compute. reflexivity.
  - vm_compute. reflexivity.
  - vm_compute. reflexivity.
  - vm_compute. reflexivity.
Defined.

(** ** The first connection *)

(** X18. From the initial state, whatever the size of the container, the
    slash command, a health response whose status is in the range 200-299
    and the opening of the socket make the session Connected, through
    Probing and Connecting. The terminal then has the grid of the
    container, the one frame sent is the resize frame of that grid, the
    screen holds the banner, and the timer of [openTerminal] is pending. *)
Theorem first_connection_succeeds dims status :
  response_ok status = true ->
  sessions (first_connection_events status) (initial dims) =
    [Disconnected; Probing; Connecting; Connected] /\
  exists st',
    run (first_connection_events status) (initial dims) = Some st' /\
    viewport st' = Some dims /\
    frames_sent st' = [Stringify.resize (fst dims) (snd dims)] /\
    since_clear (screen st') = map TWriteln banner /\
    timers st' = [fit_timer].
Proof.
  intros Hok. destruct dims as [c r]. split.
  - lazy -[lit BACKEND_URL response_ok Number_toString Stringify.resize banner].
    rewrite Hok.
    lazy -[lit BACKEND_URL response_ok Number_toString Stringify.resize banner].
    reflexivity.
  - eexists. split.
    + lazy -[lit BACKEND_URL response_ok Number_toString Stringify.resize banner].
      rewrite Hok.
      lazy -[lit BACKEND_URL response_ok Number_toString Stringify.resize banner].
      reflexivity.
    + lazy -[lit BACKEND_URL response_ok Number_toString Stringify.resize banner].
      repeat split; reflexivity.
Qed.

Lemma first_connection_succeeds_witness :
  sessions (first_connection_events 204) (initial (132, 43)) =
    [Disconnected; Probing; Connecting; Connected].
Proof. exact (proj1 (first_connection_succeeds (132, 43) 204 eq_refl)). Defined.

(** ** The screen *)

Lemma since_clear_grows l more :
  Forall (fun c => c <> TClear) more ->
  since_clear (l ++ more) = since_clear l ++ more.
Proof.
  unfold since_clear. rewrite fold_left_app.
  generalize (fold_left
    (fun acc c => match c with TClear => [] | _ => acc ++ [c] end) l []).
  intros acc Hall. revert acc.
  induction Hall as [|c more Hc _ IH]; intros acc; simpl.
  - by rewrite app_nil_r.
  - rewrite IH. destruct c; [done|..]; by rewrite <- app_assoc.
Qed.

Lemma writeln_is_no_clear lines :
  Forall (fun c => c <> TClear) (map TWriteln lines).
Proof. apply List.Forall_map, Forall_true. done. Qed.

(** What a callback has written, when it has written at all. *)
Ltac written :=
  unfold screen; simpl;
  first [ by exists []; rewrite app_nil_r
        | eexists; split; [rewrite <- ?app_assoc; reflexivity|];
          repeat first [ apply Forall_nil_2
                       | apply writeln_is_no_clear
                       | apply Forall_cons_2; [done|]
                       | apply Forall_app_2 ] ].

Lemma step_written st ev st' :
  reachable st -> step ev st = Some st' -> (forall i, ev <> SocketOpens i) ->
  exists l, screen st' = screen st ++ l /\ Forall (fun c => c <> TClear) l.
Proof.
  intros Hr Hstep Hev.
  destruct ev as [| |dims|dims|data|k|status|msg|i|i data|i failed].
  - reach_created st Hr.
    + unfold step in Hstep. js_cases Hstep. written.
    + simpl in Hweb. subst w. unfold step in Hstep.
      apply (inj Some) in Hstep. subst st'.
      exists []. lazy -[app lit BACKEND_URL]. done.
  - reach_created st Hr.
    + unfold step in Hstep. js_cases Hstep; written.
    + simpl in Hweb. subst w. unfold step in Hstep.
      apply (inj Some) in Hstep. subst st'.
      exists []. lazy -[app lit BACKEND_URL]. done.
  - unfold step in Hstep. simplify_eq. by exists []; rewrite app_nil_r.
  - reach_created st Hr; unfold step in Hstep.
    + js_cases Hstep; written.
    + simplify_eq. by exists [].
  - apply step_terminal_data in Hstep. subst st'. exists [].
    rewrite app_nil_r. destruct (websocket_open st) eqn:Ho; [|done].
    destruct (push_frames_open [Stringify.input data] st Ho) as (_ & _ & Ht).
    unfold screen. by rewrite Ht.
  - reach_created st Hr; [|by destruct k]. unfold step in Hstep.
    simpl timers in Hstep. destruct (tms !! k) as [tm|]; [|done].
    destruct (callback tm); js_cases Hstep; written.
  - reach_created st Hr; [|done]. unfold step in Hstep.
    simpl fetches in Hstep. destruct f; [done|]. js_cases Hstep; written.
  - reach_created st Hr; [|done]. unfold step in Hstep.
    simpl fetches in Hstep. destruct f; [done|]. js_cases Hstep; written.
  - by destruct (Hev i).
  - destruct (socket_message_step _ _ _ _ Hr Hstep)
      as (ws & t & Hi & Hrs & Hw & Ht & ->).
    set (st1 := deliver i ws data st).
    assert (terminal st1 = Some t) as Ht1 by done.
    assert (screen st1 = screen st) as <- by done.
    destruct (onmessage_result st1 t data Ht1) as [E|[(c & Hc & E)|[e E]]];
      rewrite E; simpl.
    + by exists []; rewrite app_nil_r.
    + erewrite screen_add_call by done. eexists. split; [done|].
      by repeat constructor.
    + erewrite screen_add_call by done. eexists. split; [done|].
      by repeat constructor.
  - reach_created st Hr; [|by destruct i]. unfold step in Hstep.
    simpl sockets in Hstep. destruct (socks !! i) as [ws|]; [|done].
    destruct (readyState ws), failed; try done; js_cases Hstep; written.
Qed.

(** X19. Only the opening of a socket clears the terminal: after any
    other event the calls made on the terminal are the ones made before,
    followed by what the event has written, and so is what the screen
    holds. *)
Theorem only_open_clears st ev st' :
  reachable st -> step ev st = Some st' -> (forall i, ev <> SocketOpens i) ->
  exists l,
    screen st' = screen st ++ l /\ Forall (fun c => c <> TClear) l /\
    since_clear (screen st') = since_clear (screen st) ++ l.
Proof.
  intros Hr Hstep Hev.
  destruct (step_written _ _ _ Hr Hstep Hev) as (l & E & Hl).
  exists l. split; [done|]. split; [done|].
  rewrite E. by apply since_clear_grows.
Qed.

Lemma only_open_clears_witness :
  exists l,
    screen failed_example = screen connected_example ++ l /\
    since_clear (screen failed_example) =
      since_clear (screen connected_example) ++ l.
Proof.
  destruct (only_open_clears connected_example (SocketCloses 0%nat true)
              failed_example) as (l & E & _ & Hs).
  - exact connected_example_reachable.
  - vm_compute. reflexivity.
  - discriminate.
  - exists l. split; [exact E | exact Hs].
Defined.

(** ** The grid the server knows *)

Lemma grid_reported_ext st st' :
  viewport st' = viewport st -> frames_sent st' = frames_sent st ->
  grid_reported st -> grid_reported st'.
Proof.
  intros Hv Hf (c & r & before & inputs & Hv0 & Hf0).
  exists c, r, before, inputs. split; congruence.
Qed.

Lemma grid_reported_input st st' data :
  viewport st' = viewport st ->
  frames_sent st' = frames_sent st ++ [Stringify.input data] ->
  grid_reported st -> grid_reported st'.
Proof.
  intros Hv Hf (c & r & before & inputs & Hv0 & Hf0).
  exists c, r, before, (inputs ++ [data]). split; [congruence|].
  rewrite Hf, Hf0, map_app. simpl. by rewrite <- app_assoc.
Qed.

Lemma grid_reported_resize st' c r before :
  viewport st' = Some (c, r) ->
  frames_sent st' = before ++ [Stringify.resize c r] ->
  grid_reported st'.
Proof.
  intros Hv Hf. exists c, r, before, (@nil jsstring). split; [done|]. by rewrite Hf.
Qed.

Lemma viewport_add_call c st : viewport (add_call c st) = viewport st.
Proof.
  unfold viewport, add_call. destruct (terminal st) as [t|] eqn:E; simpl; [done|].
  by rewrite E.
Qed.

(** What a command, a message or a close leaves of the grid and of the
    frames sent. *)
Lemma grid_and_frames_kept st ev st' :
  reachable st -> step ev st = Some st' ->
  match ev with
  | SlashCommand | ToggleCommand => terminalSidebar st <> None
  | Layout _ | SocketMessage _ _ | SocketCloses _ _ => True
  | _ => False
  end ->
  viewport st' = viewport st /\ frames_sent st' = frames_sent st.
Proof.
  intros Hr Hstep Hev.
  destruct ev as [| |dims|dims|data|k|status|msg|i|i data|i failed]; try done.
  - reach_created st Hr; [|done]. unfold step in Hstep. js_cases Hstep. done.
  - reach_created st Hr; [|done]. unfold step in Hstep. js_cases Hstep; done.
  - unfold step in Hstep. by simplify_eq.
  - destruct (socket_message_frame _ _ _ _ Hr Hstep) as (Hu & _).
    split; [|by apply stream_untouched_frames].
    destruct (socket_message_step _ _ _ _ Hr Hstep)
      as (ws & t & Hi & Hrs & Hw & Ht & ->).
    set (st1 := deliver i ws data st).
    assert (terminal st1 = Some t) as Ht1 by done.
    assert (viewport st1 = viewport st) as <- by done.
    destruct (onmessage_result st1 t data Ht1) as [E|[(c & _ & E)|[e E]]];
      rewrite E; simpl; [done|apply viewport_add_call|].
    by rewrite viewport_add_call.
  - reach_created st Hr; [|by destruct i]. unfold step in Hstep.
    simpl sockets in Hstep. destruct (socks !! i) as [ws|] eqn:Hi; [|done].
    assert (readyState ws <> CLOSED -> newest socks = Some i) as Hnew.
    { intros Hlive.
      destruct (chain_live _ _ _ _ _ _ Hc Hi Hlive) as (olds & -> & -> & _).
      apply newest_snoc. }
    destruct (readyState ws) eqn:Hrs, failed; try done;
      (rewrite Hnew in * by done);
      js_cases Hstep; unfold viewport, frames_sent; simpl;
      rewrite list_lookup_insert_eq by (by eapply lookup_lt_Some);
      by rewrite Hi.
Qed.

(** In a Connected session every event but the timer of [toggleTerminal]
    keeps the grid reported. *)
Lemma grid_reported_step st ev st' :
  reachable st -> session st = Connected -> grid_reported st ->
  step ev st = Some st' ->
  (forall k tm, ev = TimerFires k -> timers st !! k = Some tm ->
                callback tm <> FitOnly) ->
  grid_reported st'.
Proof.
  intros Hr Hs Hg Hstep Htimer.
  pose proof (proj1 (session_connected st) Hs) as Ho.
  assert (terminalSidebar st <> None) as Hsb.
  { intros Hsb. destruct (step_session_first _ _ _ Hr Hsb Hstep). congruence. }
  destruct ev as [| |dims|dims|data|k|status|msg|i|i data|i failed];
    try (destruct (grid_and_frames_kept _ _ _ Hr Hstep) as [Hv Hf];
         [done|by eapply grid_reported_ext]).
  - destruct (refit_step _ _ _ Hr Hstep) as [Hv Hf]; [left; eauto|].
    rewrite Ho in Hf. destruct (container st') as [c r].
    by eapply grid_reported_resize.
  - apply step_terminal_data in Hstep. rewrite Ho in Hstep. subst st'.
    destruct (push_frames_open [Stringify.input data] st Ho) as (_ & Hf & Ht).
    eapply grid_reported_input; [|done..]. unfold viewport. by rewrite Ht.
  - destruct (session_timer _ _ _ Hr Hstep) as (tm & Hk & H).
    unfold is_reconnect in H. destruct (callback tm) eqn:Hcb.
    + destruct (refit_step _ _ _ Hr Hstep) as [Hv Hf]; [right; eauto|].
      rewrite Ho in Hf. destruct (container st') as [c r].
      by eapply grid_reported_resize.
    + by destruct (Htimer k tm eq_refl Hk).
    + destruct H. congruence.
  - destruct (session_probe st (Responded status) st' Hr Hstep). congruence.
  - destruct (session_probe st (Failed msg) st' Hr Hstep). congruence.
  - destruct (session_opens _ _ _ Hr Hstep). congruence.
Qed.

(** The timers an event adds. *)
Lemma no_refit_pending_step st ev st' :
  reachable st -> no_refit_pending st -> ev <> ToggleCommand ->
  step ev st = Some st' -> no_refit_pending st'.
Proof.
  unfold no_refit_pending. intros Hr Hall Hev Hstep.
  assert (forall k, Forall (fun tm => callback tm <> FitOnly)
                      (delete k (timers st))) as Hdel.
  { intros k. by apply Forall_delete. }
  destruct ev as [| |dims|dims|data|k|status|msg|i|i data|i failed]; try done.
  - reach_created st Hr; unfold step in Hstep.
    + js_cases Hstep. simpl in *. apply Forall_app. split; [done|].
      by repeat constructor.
    + apply (inj Some) in Hstep. subst st'.
      simpl in Hweb. subst w. lazy -[app lit BACKEND_URL].
      by repeat constructor.
  - unfold step in Hstep. by simplify_eq.
  - reach_created st Hr; unfold step in Hstep.
    + js_cases Hstep; done.
    + by simplify_eq.
  - apply step_terminal_data in Hstep. subst st'.
    destruct (websocket_open st); [|done]. unfold push_frames.
    destruct (websocket st) as [i|]; [|done]. by destruct (sockets st !! i).
  - reach_created st Hr; [|by destruct k]. unfold step in Hstep.
    simpl timers in Hstep. specialize (Hdel k). simpl in Hdel.
    destruct (tms !! k) as [tm|]; [|done].
    destruct (callback tm); js_cases Hstep; done.
  - reach_created st Hr; [|done]. unfold step in Hstep.
    simpl fetches in Hstep. destruct f; [done|]. js_cases Hstep; done.
  - reach_created st Hr; [|done]. unfold step in Hstep.
    simpl fetches in Hstep. destruct f; [done|]. js_cases Hstep; done.
  - destruct (socket_opens_step _ _ _ Hr Hstep)
      as (_ & _ & _ & _ & _ & _ & _ & _ & _ & _ & -> & _). done.
  - destruct (socket_message_frame _ _ _ _ Hr Hstep) as ((_ & _ & _ & -> & _) & _).
    done.
  - destruct (socket_closes_step _ _ _ _ Hr Hstep) as (-> & _).
    apply Forall_app. split; [done|]. by repeat constructor.
Qed.

(** X20. As long as the toggle command is not used, the server has been
    told the grid of the terminal whenever the session is Connected: the
    last resize frame sent says the grid the terminal has, and input
    frames only have been sent after it. This holds across resizes of
    the window, slash commands and their timers, and across a connection
    that is dropped and resumed. *)
Theorem grid_reported_without_toggle st evs st' :
  reachable st -> no_refit_pending st ->
  (session st = Connected -> grid_reported st) ->
  Forall (fun ev => ev <> ToggleCommand) evs ->
  run evs st = Some st' ->
  session st' = Connected -> grid_reported st'.
Proof.
  revert st. induction evs as [|ev evs IH]; intros st Hr Hno Hg Hevs Hrun Hs'.
  - simpl in Hrun. simplify_eq. by apply Hg.
  - rewrite run_cons in Hrun.
    destruct (step ev st) as [st1|] eqn:Hstep; [|done].
    inversion Hevs as [|? ? Hev Hevs']; subst.
    apply (IH st1); try done.
    + by eapply reachable_step.
    + by eapply no_refit_pending_step.
    + intros Hs1.
      assert (session st = Connected \/ session st <> Connected) as [Hs|Hs]
        by (destruct (session st); auto; right; discriminate).
      * apply (grid_reported_step st ev st1 Hr Hs (Hg Hs) Hstep).
        intros k tm -> Hk. exact (Forall_lookup_1 _ _ _ _ Hno Hk).
      * assert (exists i, ev = SocketOpens i) as [i ->].
        { destruct ev as [| |dims|dims|data|k|status|msg|i|i data|i failed];
            [| exfalso; by apply Hev | | | | | | | by exists i | |].
          - destruct (terminalSidebar st) eqn:Hsb.
            + destruct Hs. rewrite <- Hs1. symmetry.
              eapply session_kept; [done..|]. simpl. congruence.
            + destruct (step_session_first _ _ _ Hr Hsb Hstep). congruence.
          - destruct Hs. rewrite <- Hs1. symmetry. by eapply session_kept.
          - destruct Hs. rewrite <- Hs1. symmetry. by eapply session_kept.
          - destruct Hs. rewrite <- Hs1. symmetry. by eapply session_kept.
          - destruct (session_timer _ _ _ Hr Hstep) as (tm & _ & H).
            destruct (is_reconnect tm); [|congruence].
            destruct H as [_ H]. revert H.
            destruct (terminal_shown st); intros; congruence.
          - destruct (session_probe st (Responded status) st1 Hr Hstep) as [_ H].
            unfold probe_success in H. revert H.
            destruct (response_ok status); intros; congruence.
          - destruct (session_probe st (Failed msg) st1 Hr Hstep) as [_ H].
            simpl in H. congruence.
          - destruct (socket_message_frame _ _ _ _ Hr Hstep) as (_ & ? & _).
            congruence.
          - destruct (session_closes _ _ _ _ Hr Hstep). congruence. }
        destruct (socket_opens_step _ _ _ Hr Hstep)
          as (t & olds & Ht & Hso & -> & Hall & Hw' & Hso' & _ & Hv & _).
        apply (grid_reported_resize st1 (cols t) (rows t) []).
        -- rewrite Hv. unfold viewport. by rewrite Ht.
        -- unfold frames_sent. by rewrite Hw', Hso', lookup_snoc_last.
Qed.

Lemma day_example_run : run day_events connected_example = Some day_example.
Proof. vm_compute. reflexivity. Qed.

Lemma grid_reported_without_toggle_witness : grid_reported day_example.
Proof.
  apply (grid_reported_without_toggle connected_example day_events).
  - exact connected_example_reachable.
  - constructor.
  - intros _. exists 80, 24, [Stringify.resize 80 24], (@nil jsstring).
    split; reflexivity.
  - unfold day_events. repeat constructor; discriminate.
  - exact day_example_run.
  - vm_compute. reflexivity.
Defined.
